(** * ASCII-Vision 95: the conversion engine, embedded in Rocq

    A shallow embedding of [assets/scripts/image-processor.js],
    [assets/scripts/ascii-converter.js] and of the size computation of
    [handleSavePng] in [assets/scripts/main.js].

    JavaScript Numbers are IEEE-754 binary64 values, so they are modelled by
    Rocq's primitive floats: [+], [-], [*], [/] and the comparisons are the
    very operations the JavaScript engine performs, and a decimal literal
    such as [0.299] denotes the same double in both languages. *)

From Stdlib Require Import String Ascii.
From Stdlib Require Import ZArith Lia List Bool.
From Stdlib Require Import Floats.
Import ListNotations.

Set Warnings "-inexact-float".
#[local] Open Scope float_scope.

(** ** JavaScript Numbers *)

Module JS.

(** The Number whose value is the integer [z] (exact for |z| < 2^53). *)
Definition ofZ (z : Z) : float :=
  match z with
  | Z0 => 0
  | Zpos _ => of_uint63 (Uint63.of_Z z)
  | Zneg p => - of_uint63 (Uint63.of_Z (Zpos p))
  end.

(** A finite non-zero double is [(-1)^s * m * 2^e]; its mantissa as a signed
    integer. *)
Definition signed (s : bool) (m : positive) : Z :=
  if s then Zneg m else Zpos m.

(** The largest integer below or equal to [(-1)^s * m * 2^e]. *)
Definition floorZ (s : bool) (m : positive) (e : Z) : Z :=
  if (0 <=? e)%Z then signed s m * 2 ^ e else signed s m / 2 ^ (- e).

(** [Math.floor]: NaN, the infinities and the zeros are returned unchanged,
    and so is a double with a non-negative exponent (it is an integer). *)
Definition Math_floor (x : float) : float :=
  match Prim2SF x with
  | S754_finite s m e => if (0 <=? e)%Z then x else ofZ (floorZ s m e)
  | _ => x
  end.

(** The integer a Number denotes, when it denotes one ([-0] denotes 0). *)
Definition toZ (x : float) : option Z :=
  match Prim2SF x with
  | S754_zero _ => Some 0%Z
  | S754_finite s m e =>
      if (0 <=? e)%Z then Some (signed s m * 2 ^ e)%Z
      else if (Zpos m mod 2 ^ (- e) =? 0)%Z then Some (signed s m / 2 ^ (- e))%Z
      else None
  | _ => None
  end.

(** [Math.round]: the nearest integer, a tie going up. *)
Definition Math_round (x : float) : float :=
  let f := Math_floor x in
  let r := if x - f <? 0.5 then f else f + 1 in
  if (x <? 0) && (r =? 0) then neg_zero else r.

(** [Math.max] and [Math.min] of two arguments: NaN is contagious, and [+0]
    is larger than [-0]. *)
Definition Math_max (a b : float) : float :=
  if is_nan a || is_nan b then nan
  else if a <? b then b
  else if b <? a then a
  else if get_sign a then b else a.

Definition Math_min (a b : float) : float :=
  if is_nan a || is_nan b then nan
  else if a <? b then a
  else if b <? a then b
  else if get_sign a then a else b.

(** [Math.max(...xs)] and [Math.min(...xs)]. *)
Definition Math_max_of (xs : list float) : float :=
  fold_left Math_max xs neg_infinity.

Definition Math_min_of (xs : list float) : float :=
  fold_left Math_min xs infinity.

(** Strict inequality [!==] of two Numbers. *)
Definition strict_neq (a b : float) : bool := negb (a =? b).

(** WebIDL's conversion of a Number to [unsigned long]: NaN, the zeros and
    the infinities give 0, any other value is truncated towards zero and
    reduced modulo 2^32. *)
Definition ToUint32 (x : float) : Z :=
  match Prim2SF x with
  | S754_finite s m e =>
      let a := if (0 <=? e)%Z then (Zpos m * 2 ^ e)%Z else (Zpos m / 2 ^ (- e))%Z in
      ((if s then - a else a) mod 2 ^ 32)%Z
  | _ => 0%Z
  end.

(** The conversion a [Uint8ClampedArray] applies to a stored Number: NaN
    gives 0, the value is clamped to [0, 255] and rounded to the nearest
    integer, a tie going to the even one. *)
Definition ToUint8Clamp (x : float) : Z :=
  match Prim2SF x with
  | S754_zero _ => 0
  | S754_nan => 0
  | S754_infinity s => if s then 0 else 255
  | S754_finite true _ _ => 0
  | S754_finite false m e =>
      if (0 <=? e)%Z then Z.min 255 (Zpos m * 2 ^ e)
      else
        let d := (2 ^ (- e))%Z in
        let f := (Zpos m / d)%Z in
        let r2 := (2 * (Zpos m mod d))%Z in
        Z.min 255 (if (r2 <? d)%Z then f
                   else if (d <? r2)%Z then f + 1
                   else if Z.even f then f else f + 1)
  end%Z.

End JS.

(** ** Completions

    A JavaScript call returns normally or throws.  [Unmodelled] marks the
    paths this embedding leaves out (a key that names a property inherited
    from [Object.prototype], a pixel rectangle that is not the whole
    canvas). *)

Inductive JSError := IndexSizeError | TypeError.

Inductive Completion (A : Type) : Type :=
| Normal (a : A)
| Throw (e : JSError)
| Unmodelled.

Arguments Normal {A} a.
Arguments Throw {A} e.
Arguments Unmodelled {A}.

Definition bind {A B} (c : Completion A) (k : A -> Completion B) : Completion B :=
  match c with
  | Normal a => k a
  | Throw e => Throw e
  | Unmodelled => Unmodelled
  end.

Declare Scope js_scope.
Delimit Scope js_scope with js.
Notation "x <- c ;; k" := (bind c (fun x => k))
  (at level 100, c at next level, right associativity) : js_scope.
Notation "' p <- c ;; k" := (bind c (fun x => let 'p := x in k))
  (at level 100, p pattern, c at next level, right associativity) : js_scope.

(** [for (let i = start; i < start + n; i++) body] over a loop state. *)
Fixpoint for_loop {St : Type} (n : nat) (i : nat)
    (body : nat -> St -> Completion St) (s : St) : Completion St :=
  match n with
  | O => Normal s
  | S n' => bind (body i s) (for_loop n' (S i) body)
  end.

(** ** Strings, arrays and objects

    A JavaScript string is the list of its characters, each written as the
    Rocq string of its UTF-8 bytes, so that [length] counts characters as
    [String.prototype.length] does for the glyphs used here. *)

Abbreviation jschar := string (only parsing).
Abbreviation jsstring := (list string) (only parsing).

Definition LF : jschar := String (Ascii.ascii_of_nat 10) EmptyString.

(** The characters of ["undefined"], what [+=] appends for [undefined]. *)
Definition undefined_text : jsstring :=
  ["u"; "n"; "d"; "e"; "f"; "i"; "n"; "e"; "d"]%string.

Definition append_value (s : jsstring) (c : option jschar) : jsstring :=
  s ++ match c with Some g => [g] | None => undefined_text end.

(** [s.split("\n")]. *)
Fixpoint split_lines (s : jsstring) : list jsstring :=
  match s with
  | [] => [[]]
  | c :: s' =>
      if String.eqb c LF then [] :: split_lines s'
      else match split_lines s' with
           | l :: ls => (c :: l) :: ls
           | [] => [[c]]
           end
  end.

(** [arr[i]] for a Number [i]: an element when [i] is an integer index
    inside the array, [undefined] otherwise. *)
Definition array_get {A} (arr : list A) (i : float) : option A :=
  match JS.toZ i with
  | Some n => if (0 <=? n)%Z then nth_error arr (Z.to_nat n) else None
  | None => None
  end.

(** The outcome of [object[key]] on an object literal: one of its own
    properties, a property inherited from [Object.prototype], or
    [undefined]. *)
Inductive Lookup (A : Type) : Type :=
| Own (a : A)
| Inherited
| Undefined.

Arguments Own {A} a.
Arguments Inherited {A}.
Arguments Undefined {A}.

Definition object_prototype_names : list string :=
  ["constructor"; "__proto__"; "hasOwnProperty"; "isPrototypeOf";
   "propertyIsEnumerable"; "toLocaleString"; "toString"; "valueOf";
   "__defineGetter__"; "__defineSetter__"; "__lookupGetter__";
   "__lookupSetter__"]%string.

Definition property {A} (object : list (string * A)) (key : string) : Lookup A :=
  match find (fun kv => String.eqb (fst kv) key) object with
  | Some kv => Own (snd kv)
  | None =>
      if existsb (String.eqb key) object_prototype_names then Inherited
      else Undefined
  end.

(** ** The canvas

    [ImageData.data] is a [Uint8ClampedArray]: a list of samples, four per
    pixel in row-major order.  Reading past the end gives [undefined],
    which arithmetic turns into NaN; a write past the end is ignored. *)

Module U8.

Definition get (data : list Z) (i : nat) : float :=
  match nth_error data i with
  | Some v => JS.ofZ v
  | None => nan
  end.

Fixpoint set (data : list Z) (i : nat) (x : float) : list Z :=
  match data, i with
  | [], _ => []
  | _ :: t, O => JS.ToUint8Clamp x :: t
  | v :: t, S i' => v :: set t i' x
  end.

End U8.

Record Canvas := mkCanvas {
  canvas_width : Z;
  canvas_height : Z;
  pixels : list Z
}.

(** Assigning a Number to [canvas.width] or [canvas.height]: the value is
    converted to [unsigned long], and a result above 2^31 - 1 is replaced
    by the attribute's default (300 and 150). *)
Definition canvas_dimension (default : Z) (x : float) : Z :=
  let u := JS.ToUint32 x in
  if (u <=? 2147483647)%Z then u else default.

(** [ctx.getImageData(0, 0, sw, sh)]: [IndexSizeError] when [sw] or [sh]
    is zero; the samples of the canvas when the rectangle is the whole
    canvas. *)
Definition getImageData (ctx : Canvas) (sw sh : Z) : Completion (list Z) :=
  if ((sw =? 0) || (sh =? 0))%Z then Throw IndexSizeError
  else if ((sw =? canvas_width ctx) && (sh =? canvas_height ctx))%Z
       then Normal (pixels ctx)
       else Unmodelled.

(** [ctx.putImageData(imageData, 0, 0)] for an [imageData] of the size of
    the canvas: the samples are stored as they are (the loss a browser may
    incur when it premultiplies a pixel that is not opaque is not
    modelled). *)
Definition putImageData (ctx : Canvas) (data : list Z) : Canvas :=
  mkCanvas (canvas_width ctx) (canvas_height ctx) data.

(** ** image-processor.js *)

Definition clamp (value : float) : float :=
  JS.Math_max 0 (JS.Math_min 255 value).

(** The contrast factor [(259 * (contrast + 255)) / (255 * (259 - contrast))],
    its numerator and its denominator. *)
Definition contrastNumerator (contrast : float) : float := 259 * (contrast + 255).

Definition contrastDenominator (contrast : float) : float := 255 * (259 - contrast).

Definition contrastFactor (contrast : float) : float :=
  contrastNumerator contrast / contrastDenominator contrast.

(** The body of the [for] loop of [applyBrightnessContrast] at index [i]:
    six assignments, the last three reading what the first three stored. *)
Definition adjust_at (brightness factor : float) (i : nat) (data : list Z) : list Z :=
  let data := U8.set data i (clamp (U8.get data i + brightness)) in
  let data := U8.set data (i + 1) (clamp (U8.get data (i + 1) + brightness)) in
  let data := U8.set data (i + 2) (clamp (U8.get data (i + 2) + brightness)) in
  let data := U8.set data i (clamp (factor * (U8.get data i - 128) + 128)) in
  let data := U8.set data (i + 1) (clamp (factor * (U8.get data (i + 1) - 128) + 128)) in
  let data := U8.set data (i + 2) (clamp (factor * (U8.get data (i + 2) - 128) + 128)) in
  data.

(** [for (let i = 0; i < data.length; i += 4)], with the number of
    remaining iterations bounded by [fuel]. *)
Fixpoint adjust_loop (fuel : nat) (brightness factor : float) (i : nat)
    (data : list Z) : list Z :=
  match fuel with
  | O => data
  | S fuel' =>
      if (i <? length data)%nat
      then adjust_loop fuel' brightness factor (i + 4) (adjust_at brightness factor i data)
      else data
  end.

(** The effect of [applyBrightnessContrast] on the samples; [length data]
    iterations are more than the loop needs. *)
Definition adjust_data (brightness contrast : float) (data : list Z) : list Z :=
  adjust_loop (length data) brightness (contrastFactor contrast) 0 data.

Definition applyBrightnessContrast (ctx : Canvas) (width height : Z)
    (brightness contrast : float) : Completion Canvas :=
  (data <- getImageData ctx width height ;;
   Normal (putImageData ctx (adjust_data brightness contrast data)))%js.

(** ** ascii-converter.js *)

#[local] Open Scope string_scope.
#[local] Open Scope list_scope.
#[local] Open Scope float_scope.

(** Character set definitions for different ASCII art styles. *)
Definition charSets : list (string * list jschar) :=
  [ ("dense", ["@"; "#"; "$"; "%"; "&"; "*"; "+"; "-"; ":"; "."; " "]);
    ("medium", ["#"; "$"; "%"; "*"; "+"; "-"; ":"; "."; " "]);
    ("light", ["▓"; "▒"; "░"; ":"; "."; " "]);
    ("blocks", ["█"; "▄"; "▌"; "▐"; "·"; " "]);
    ("simple", ["@"; "*"; "."; " "]);
    ("retro", ["║"; "═"; "╔"; "╗"; "╚"; "╝"; " "; " "]) ].

Module RGB.
Record t := make { r : float; g : float; b : float }.
End RGB.

Definition Palette := float -> float -> float -> RGB.t.

Definition palette_original : Palette :=
  fun r g b => RGB.make r g b.

Definition palette_matrix : Palette :=
  fun r g b =>
    let brightness := r * 0.299 + g * 0.587 + b * 0.114 in
    RGB.make 0 (JS.Math_floor brightness) 0.

Definition palette_amber : Palette :=
  fun r g b =>
    let brightness := r * 0.299 + g * 0.587 + b * 0.114 in
    RGB.make (JS.Math_floor brightness) (JS.Math_floor (brightness * 0.7)) 0.

Definition palette_cyan : Palette :=
  fun r g b =>
    let brightness := r * 0.299 + g * 0.587 + b * 0.114 in
    RGB.make 0 (JS.Math_floor (brightness * 0.8)) (JS.Math_floor brightness).

Definition palette_fire : Palette :=
  fun r g b =>
    let brightness := r * 0.299 + g * 0.587 + b * 0.114 in
    let normalized := brightness / 255 in
    RGB.make (JS.Math_floor brightness)
             (JS.Math_floor (brightness * normalized * 0.5))
             0.

Definition palette_ice : Palette :=
  fun r g b =>
    let brightness := r * 0.299 + g * 0.587 + b * 0.114 in
    let normalized := brightness / 255 in
    RGB.make (JS.Math_floor (brightness * 0.6))
             (JS.Math_floor (brightness * 0.8))
             (JS.Math_floor brightness).

Definition palette_purple : Palette :=
  fun r g b =>
    let brightness := r * 0.299 + g * 0.587 + b * 0.114 in
    RGB.make (JS.Math_floor (brightness * 0.8))
             (JS.Math_floor (brightness * 0.3))
             (JS.Math_floor brightness).

Definition palette_grayscale : Palette :=
  fun r g b =>
    let gray := JS.Math_floor (r * 0.299 + g * 0.587 + b * 0.114) in
    RGB.make gray gray gray.

(** Color palette definitions. *)
Definition colorPalettes : list (string * Palette) :=
  [ ("original", palette_original);
    ("matrix", palette_matrix);
    ("amber", palette_amber);
    ("cyan", palette_cyan);
    ("fire", palette_fire);
    ("ice", palette_ice);
    ("purple", palette_purple);
    ("grayscale", palette_grayscale) ].

(** The source image: its [width] and [height] properties and, since the
    scaling filter belongs to the browser, the samples that
    [ctx.drawImage(image, 0, 0, w, h)] leaves on a fresh [w] x [h] canvas. *)
Module Image.
Record t := make {
  width : float;
  height : float;
  drawn : Z -> Z -> list Z
}.
End Image.

(** The browser fills a [w] x [h] canvas with [4 * w * h] samples, each in
    [0, 255]. *)
Definition canvas_ok (image : Image.t) : Prop :=
  forall w h : Z, (0 <= w)%Z -> (0 <= h)%Z ->
    length (Image.drawn image w h) = Z.to_nat (4 * w * h)
    /\ Forall (fun v => 0 <= v <= 255)%Z (Image.drawn image w h).

Definition drawImage (image : Image.t) (w h : Z) : Canvas :=
  mkCanvas w h (Image.drawn image w h).

(** The [options] argument; [colorPalette] may be absent. *)
Module Options.
Record t := make {
  outputWidth : float;
  brightness : float;
  contrast : float;
  charSetKey : string;
  isColorMode : bool;
  isInverted : bool;
  colorPalette : option string
}.
End Options.

(** One entry of a [colorData] row. *)
Module Cell.
Record t := make { char : option jschar; r : float; g : float; b : float }.
End Cell.

(** The object [convertImageToASCII] returns. *)
Module Result.
Record t := make {
  ascii : jsstring;
  colorData : option (list (list Cell.t));
  processedCanvas : Canvas
}.
End Result.

(** Lines 131-143: the index of the glyph of a pixel. *)
Definition charIndex (selectedCharSet : list jschar) (isInverted : bool)
    (r g b : float) : float :=
  let brightnessValue := r * 0.299 + g * 0.587 + b * 0.114 in
  let normalisedBrightness := brightnessValue / 255 in
  let normalisedBrightness :=
    if isInverted then 1 - normalisedBrightness else normalisedBrightness in
  JS.Math_floor (normalisedBrightness * (JS.ofZ (Z.of_nat (length selectedCharSet)) - 1)).

(** The body of the inner loop at column [x] of row [y]; the loop state is
    the text so far and the current [row]. *)
Definition convert_pixel (selectedCharSet : Lookup (list jschar))
    (isColorMode isInverted : bool) (colorPalette : string)
    (data : list Z) (canvas_width : nat) (y x : nat)
    (st : jsstring * list Cell.t) : Completion (jsstring * list Cell.t) :=
  let '(ascii, row) := st in
  let i := ((y * canvas_width + x) * 4)%nat in
  let r := U8.get data i in
  let g := U8.get data (i + 1) in
  let b := U8.get data (i + 2) in
  (charSet <- match selectedCharSet with
              | Own charSet => Normal charSet
              | Undefined => Throw TypeError
              | Inherited => Unmodelled
              end ;;
   let char := array_get charSet (charIndex charSet isInverted r g b) in
   let ascii := append_value ascii char in
   if isColorMode then
     paletteFunc <- match property colorPalettes colorPalette with
                    | Own f => Normal f
                    | Undefined => Normal palette_original
                    | Inherited => Unmodelled
                    end ;;
     let transformedColor := paletteFunc r g b in
     Normal (ascii,
             row ++ [Cell.make char (RGB.r transformedColor)
                               (RGB.g transformedColor)
                               (RGB.b transformedColor)])
   else Normal (ascii, row))%js.

(** The body of the outer loop at row [y]; the loop state is the text so
    far and [colorData]. *)
Definition convert_row (selectedCharSet : Lookup (list jschar))
    (isColorMode isInverted : bool) (colorPalette : string)
    (data : list Z) (canvas_width : nat) (y : nat)
    (st : jsstring * list (list Cell.t)) : Completion (jsstring * list (list Cell.t)) :=
  let '(ascii, colorData) := st in
  ('(ascii, row) <- for_loop canvas_width 0
       (convert_pixel selectedCharSet isColorMode isInverted colorPalette
                      data canvas_width y) (ascii, []) ;;
   let ascii := ascii ++ [LF] in
   Normal (ascii, if isColorMode then colorData ++ [row] else colorData))%js.

(** [convertImageToASCII]; [window.ImageProcessor] is the module above, so
    the adjuster runs whenever brightness or contrast is not 0. *)
Definition convertImageToASCII (image : Image.t) (options : Options.t)
    : Completion Result.t :=
  let outputWidth := Options.outputWidth options in
  let brightness := Options.brightness options in
  let contrast := Options.contrast options in
  let isColorMode := Options.isColorMode options in
  let colorPalette :=
    match Options.colorPalette options with
    | Some key => key
    | None => "original"
    end in
  let selectedCharSet := property charSets (Options.charSetKey options) in
  let scale := outputWidth / Image.width image in
  let width := canvas_dimension 300 outputWidth in
  let height := canvas_dimension 150 (JS.Math_floor (Image.height image * scale)) in
  let ctx := drawImage image width height in
  (ctx <- (if JS.strict_neq brightness 0 || JS.strict_neq contrast 0
           then applyBrightnessContrast ctx width height brightness contrast
           else Normal ctx) ;;
   data <- getImageData ctx width height ;;
   '(ascii, colorData) <- for_loop (Z.to_nat height) 0
       (convert_row selectedCharSet isColorMode (Options.isInverted options)
                    colorPalette data (Z.to_nat width)) ([], []) ;;
   Normal (Result.make ascii
                       (if isColorMode then Some colorData else None)
                       ctx))%js.

(** What an output element holds: a text, or one [div] per row with one
    [span] per glyph, each with its [textContent] and its [style.color]. *)
Inductive Output :=
| TextContent (text : jsstring)
| Rows (rows : list (list (jschar * string))).

(** [span.textContent] after [span.textContent = pixel.char]: [undefined]
    gives the empty text. *)
Definition glyph_text (char : option jschar) : jschar :=
  match char with
  | Some g => g
  | None => ""
  end.

(** [renderColoredASCII]: the content it gives the output element.  How
    [style.color] serialises the colour [rgb(r, g, b)] belongs to the
    browser: [css_color]. *)
Definition renderColoredASCII (css_color : float -> float -> float -> string)
    (colorData : list (list Cell.t)) : Output :=
  Rows (map (map (fun pixel =>
                    (glyph_text (Cell.char pixel),
                     css_color (Cell.r pixel) (Cell.g pixel) (Cell.b pixel))))
            colorData).

(** ** main.js: the PNG export

    [handleSavePng] reads the text from [AppState.currentAscii], the mode
    from [AppState.settings.colorMode] and, in colour mode, the glyphs and
    their colours from the spans of the output element.  What it draws is
    recorded as the list of [fillText] calls. *)

Module Png.

Record FillText := mkFillText {
  text : jsstring;
  x : float;
  y : float;
  fillStyle : string
}.

Record t := make {
  width : Z;
  height : Z;
  fontSize : float;
  calls : list FillText
}.

End Png.

(** The colour-mode drawing loop over the spans of one row. *)
Fixpoint draw_spans (spans : list (jschar * string)) (startX y xOffset
    adjustedCharWidth : float) : list Png.FillText :=
  match spans with
  | [] => []
  | (char, color) :: rest =>
      Png.mkFillText [char] (startX + xOffset) y color
      :: draw_spans rest startX y (xOffset + adjustedCharWidth) adjustedCharWidth
  end.

(** The drawing loop over rows (colour mode) and over lines (monochrome),
    [index] being the number of the first one. *)
Fixpoint draw_rows (rows : list (list (jschar * string))) (index : nat)
    (startX startY adjustedLineHeight adjustedCharWidth : float)
    : list Png.FillText :=
  match rows with
  | [] => []
  | row :: rest =>
      draw_spans row startX
                 (startY + JS.ofZ (Z.of_nat index) * adjustedLineHeight)
                 0 adjustedCharWidth
      ++ draw_rows rest (S index) startX startY adjustedLineHeight adjustedCharWidth
  end.

Fixpoint draw_lines (lines : list jsstring) (index : nat)
    (startX startY adjustedLineHeight : float) : list Png.FillText :=
  match lines with
  | [] => []
  | line :: rest =>
      Png.mkFillText line startX
                     (startY + JS.ofZ (Z.of_nat index) * adjustedLineHeight)
                     "#00ff00"
      :: draw_lines rest (S index) startX startY adjustedLineHeight
  end.

(** [handleSavePng]: [None] when there is nothing to save, the canvas that
    is encoded otherwise.  [canvas.toBlob] hands [null] to its callback for
    a canvas without pixels, on which [URL.createObjectURL] throws. *)
Definition handleSavePng (currentAscii : jsstring) (colorMode : string)
    (rows : list (list (jschar * string))) : Completion (option Png.t) :=
  match currentAscii with
  | [] => Normal None
  | _ =>
    let isColorMode := String.eqb colorMode "color" in
    let lines := split_lines currentAscii in
    let lines_length := JS.ofZ (Z.of_nat (length lines)) in
    let maxLineLength :=
      JS.Math_max_of (map (fun line => JS.ofZ (Z.of_nat (length line))) lines) in
    let baseFontSize := 10 in
    let baseCharWidth := baseFontSize * 0.6 in
    let baseLineHeight := baseFontSize in
    let padding := 100 in
    let naturalWidth := maxLineLength * baseCharWidth + padding in
    let naturalHeight := lines_length * baseLineHeight + padding in
    let minDimension := 600 in
    let maxDimension := 1200 in
    let aspectRatio := naturalWidth / naturalHeight in
    let '(finalWidth, finalHeight) :=
      if (maxDimension <? naturalWidth) || (maxDimension <? naturalHeight) then
        if naturalHeight <? naturalWidth then
          let finalWidth := JS.Math_min naturalWidth maxDimension in
          (finalWidth, JS.Math_round (finalWidth / aspectRatio))
        else
          let finalHeight := JS.Math_min naturalHeight maxDimension in
          (JS.Math_round (finalHeight * aspectRatio), finalHeight)
      else if (naturalWidth <? minDimension) && (naturalHeight <? minDimension) then
        if naturalHeight <? naturalWidth then
          (minDimension, JS.Math_round (minDimension / aspectRatio))
        else
          (JS.Math_round (minDimension * aspectRatio), minDimension)
      else (JS.Math_round naturalWidth, JS.Math_round naturalHeight) in
    let canvas_width := canvas_dimension 300 finalWidth in
    let canvas_height := canvas_dimension 150 finalHeight in
    let availableWidth := finalWidth - padding in
    let availableHeight := finalHeight - padding in
    let charWidthRatio := 0.6 in
    let maxFontSizeByWidth :=
      JS.Math_floor (availableWidth / maxLineLength / charWidthRatio) in
    let maxFontSizeByHeight := JS.Math_floor (availableHeight / lines_length) in
    let fontSize :=
      JS.Math_max 6 (JS.Math_min_of [maxFontSizeByWidth; maxFontSizeByHeight; 12]) in
    let adjustedLineHeight := fontSize in
    let adjustedCharWidth := fontSize * charWidthRatio in
    let totalTextWidth := maxLineLength * adjustedCharWidth in
    let totalTextHeight := lines_length * adjustedLineHeight in
    let startX := (JS.ofZ canvas_width - totalTextWidth) / 2 in
    let startY := (JS.ofZ canvas_height - totalTextHeight) / 2 in
    let calls :=
      if isColorMode
      then draw_rows rows 0 startX startY adjustedLineHeight adjustedCharWidth
      else draw_lines lines 0 startX startY adjustedLineHeight in
    if ((canvas_width =? 0) || (canvas_height =? 0))%Z then Throw TypeError
    else Normal (Some (Png.make canvas_width canvas_height fontSize calls))
  end.

(** ** main.js: the application state and its handlers

    [AppState], the content of the output element [#ascii] and the label
    of the invert button.  The previews, the file input and the feedback
    on the buttons are left out: no handler reads them back. *)

Module Settings.
Record t := make {
  outputWidth : float;
  brightness : float;
  contrast : float;
  charSetKey : string;
  colorMode : string;
  colorPalette : string
}.
End Settings.

Module AppState.
Record t := make {
  currentImage : option Image.t;
  currentAscii : jsstring;
  isInverted : bool;
  settings : Settings.t
}.
End AppState.

(** The two markups the handlers give the invert button: the flipped icon
    with the word Invert, and the plain icon with the word Revert. *)
Inductive InvertLabel := FlippedInvert | PlainRevert.

Module Page.
Record t := make {
  state : AppState.t;
  asciiOutput : Output;
  invertBtn : InvertLabel
}.
End Page.

Module App.

Section Handlers.

Variable css_color : float -> float -> float -> string.

(** [asciiOutput.children], row by row. *)
Definition children (output : Output) : list (list (jschar * string)) :=
  match output with
  | TextContent _ => []
  | Rows rows => rows
  end.

(** The options [handleRender] hands to the converter. *)
Definition options_of (app : AppState.t) : Options.t :=
  let settings := AppState.settings app in
  Options.make (Settings.outputWidth settings) (Settings.brightness settings)
               (Settings.contrast settings) (Settings.charSetKey settings)
               (String.eqb (Settings.colorMode settings) "color")
               (AppState.isInverted app)
               (Some (Settings.colorPalette settings)).

(** [handleRender]: the page it leaves and how it completes.  An exception
    of the converter leaves the handler before anything is assigned. *)
Definition handleRender (page : Page.t) : Page.t * Completion unit :=
  let app := Page.state page in
  match AppState.currentImage app with
  | None => (page, Normal tt)
  | Some image =>
      let isColorMode := String.eqb (Settings.colorMode (AppState.settings app)) "color" in
      match convertImageToASCII image (options_of app) with
      | Normal result =>
          let app := AppState.make (AppState.currentImage app) (Result.ascii result)
                                   (AppState.isInverted app) (AppState.settings app) in
          let output :=
            match Result.colorData result with
            | Some colorData =>
                if isColorMode then renderColoredASCII css_color colorData
                else TextContent (Result.ascii result)
            | None => TextContent (Result.ascii result)
            end in
          (Page.make app output (Page.invertBtn page), Normal tt)
      | Throw e => (page, Throw e)
      | Unmodelled => (page, Unmodelled)
      end
  end.

(** [handleSavePng] on the page: the text and the mode come from
    [AppState], the spans from the output element. *)
Definition handleSavePng (page : Page.t) : Completion (option Png.t) :=
  let app := Page.state page in
  handleSavePng (AppState.currentAscii app)
                (Settings.colorMode (AppState.settings app))
                (children (Page.asciiOutput page)).

(** [handleInvert]: the flag and the label change before the render. *)
Definition handleInvert (page : Page.t) : Page.t * Completion unit :=
  let app := Page.state page in
  let isInverted := negb (AppState.isInverted app) in
  let app := AppState.make (AppState.currentImage app) (AppState.currentAscii app)
                           isInverted (AppState.settings app) in
  let page := Page.make app (Page.asciiOutput page)
                        (if isInverted then FlippedInvert else PlainRevert) in
  match AppState.currentImage app with
  | Some _ => handleRender page
  | None => (page, Normal tt)
  end.

Definition resetSettings (page : Page.t) : Page.t :=
  let app := Page.state page in
  Page.make (AppState.make (AppState.currentImage app) (AppState.currentAscii app)
               false
               (Settings.make 80 0 0 "medium" "monochrome" "original"))
            (Page.asciiOutput page)
            FlippedInvert.

(** The [change] listener of the colour-mode selector. *)
Definition onColorModeChange (value : string) (page : Page.t) : Page.t :=
  let app := Page.state page in
  let settings := AppState.settings app in
  Page.make (AppState.make (AppState.currentImage app) (AppState.currentAscii app)
               (AppState.isInverted app)
               (Settings.make (Settings.outputWidth settings)
                  (Settings.brightness settings) (Settings.contrast settings)
                  (Settings.charSetKey settings) value
                  (Settings.colorPalette settings)))
            (Page.asciiOutput page)
            (Page.invertBtn page).

End Handlers.

End App.

(** ** A sample image

    A solid white image of [width] x [height]: however the browser scales
    it, every sample of the canvas is 255. *)

Definition white (w h : Z) : list Z := repeat 255%Z (Z.to_nat (4 * w * h)).

Definition white_image (width height : float) : Image.t :=
  Image.make width height white.

(** A page that holds the 2x2 white image with the settings
    [outputWidth = 2] and [charSetKey = "simple"], and a browser for which
    every colour of that image serialises as white. *)
Definition white_page (colorMode : string) : Page.t :=
  Page.make (AppState.make (Some (white_image 2 2)) [] false
               (Settings.make 2 0 0 "simple" colorMode "original"))
            (TextContent [])
            FlippedInvert.

Definition white_css (r g b : float) : string := "rgb(255, 255, 255)".

(** ** Notions used in the statements *)

(** An 8-bit sample. *)
Definition u8 (v : Z) : Prop := (0 <= v <= 255)%Z.

(** What the six assignments of one iteration leave in a colour sample
    that held [v]: the brightness step is stored, hence rounded and
    clamped by the array, before the contrast step reads it back. *)
Definition adjust_sample (brightness factor : float) (v : Z) : Z :=
  JS.ToUint8Clamp
    (clamp (factor * (JS.ofZ (JS.ToUint8Clamp (clamp (JS.ofZ v + brightness))) - 128) + 128)).

(** The integers 0 .. 255 and the Numbers that hold them. *)
Definition small_integers : list Z := map Z.of_nat (seq 0 256).

Definition samples : list float := map JS.ofZ small_integers.

(** The weighted sum of lines 20, 24, ..., 58 and 131. *)
Definition luminance (r g b : float) : float := r * 0.299 + g * 0.587 + b * 0.114.

(** [q] holds of the luminance of every pixel with channels in [l]. *)
Definition all_luminances (q : float -> bool) (l : list float) : bool :=
  forallb (fun r => let pr := r * 0.299 in
    forallb (fun g => let s := pr + g * 0.587 in
      forallb (fun b => q (s + b * 0.114)) l) l) l.

(** [0 <= x < bound], and then [rest]. *)
Definition within (x bound : float) (rest : bool) : bool :=
  if 0 <=? x then if x <? bound then rest else false else false.

(** The scaled brightness, inverted or not, stays in [[0, length)] for the
    lengths 11, 9, 6, 4 and 8 of the built-in character sets. *)
Definition index_facts (L : float) : bool :=
  let n := L / 255 in
  let n' := 1 - n in
  within (n * 10) 11 (within (n' * 10) 11
  (within (n * 8) 9 (within (n' * 8) 9
  (within (n * 5) 6 (within (n' * 5) 6
  (within (n * 3) 4 (within (n' * 3) 4
  (within (n * 7) 8 (within (n' * 7) 8 true))))))))).

(** The products the palettes floor stay in [[0, 256)]. *)
Definition palette_facts (L : float) : bool :=
  within L 256 (within (L * 0.7) 256 (within (L * 0.8) 256
  (within (L * 0.6) 256 (within (L * 0.3) 256
  (within (L * (L / 255) * 0.5) 256 true))))).

(** The text of a grid: each row followed by a line feed. *)
Definition text_of (rows : list jsstring) : jsstring :=
  concat (map (fun row => row ++ [LF]) rows).

(** A row of text: [W] glyphs of the character set. *)
Definition row_ok (set : list jschar) (W : nat) (row : jsstring) : Prop :=
  length row = W /\ Forall (fun c => In c set) row.

(** Numbers without a finite non-zero value: the zeros, the infinities
    and NaN.  As a canvas dimension each of them is 0. *)
Definition no_pixels (x : float) : Prop :=
  match Prim2SF x with
  | S754_finite _ _ _ => False
  | _ => True
  end.

Definition unbounded (x : float) : Prop :=
  match Prim2SF x with
  | S754_infinity _ | S754_nan => True
  | _ => False
  end.

(** [options] with another [colorPalette]. *)
Definition with_palette (options : Options.t) (colorPalette : option string)
    : Options.t :=
  Options.make (Options.outputWidth options) (Options.brightness options)
               (Options.contrast options) (Options.charSetKey options)
               (Options.isColorMode options) (Options.isInverted options)
               colorPalette.

(** The options of the scenarios of the specification: the set [simple],
    no tonal adjustment, monochrome, not inverted. *)
Definition simple_options (outputWidth : float) : Options.t :=
  Options.make outputWidth 0 0 "simple" false false None.

(** ** Notions of the further properties *)

(** The two stores of one iteration, on a colour sample. *)
Definition brightness_step (brightness : float) (v : Z) : Z :=
  JS.ToUint8Clamp (clamp (JS.ofZ v + brightness)).

Definition contrast_step (factor : float) (v : Z) : Z :=
  JS.ToUint8Clamp (clamp (factor * (JS.ofZ v - 128) + 128)).

(** The integers [lo], [lo + 1], ..., [lo + n - 1]. *)
Definition integers (lo : Z) (n : nat) : list Z :=
  map (fun k => (lo + Z.of_nat k)%Z) (seq 0 n).

(** [q] holds of every pair of [l1] x [l2]. *)
Definition all_pairs (q : Z -> Z -> bool) (l1 l2 : list Z) : bool :=
  forallb (fun a => forallb (q a) l2) l1.

(** Before it is stored, the brightened sample is the integer
    [min(255, max(0, v + b))]. *)
Definition brightness_fact (b v : Z) : bool :=
  Leibniz.eqb (clamp (JS.ofZ v + JS.ofZ b)) (JS.ofZ (Z.min 255 (Z.max 0 (v + b)))).

(** Before they are stored, the contrasted samples [v] and [v + 1] are in
    order. *)
Definition contrast_fact (c v : Z) : bool :=
  let factor := contrastFactor (JS.ofZ c) in
  clamp (factor * (JS.ofZ v - 128) + 128)
  <=? clamp (factor * (JS.ofZ (v + 1) - 128) + 128).

(** A stored integer is read back, and the contrast step at the factors
    1, 0 and Infinity. *)
Definition extreme_contrast_fact (v : Z) : bool :=
  (JS.ToUint8Clamp (JS.ofZ v) =? v)%Z
  && (contrast_step (contrastFactor 0) v =? v)%Z
  && (contrast_step (contrastFactor (-255)) v =? 128)%Z
  && (contrast_step (contrastFactor 259) v =? (if (v <=? 128)%Z then 0 else 255))%Z.

(** Before it is stored, the contrasted sample is on the side of 128
    where the sample was: further from 128 for a contrast of 0 or more,
    nearer for a contrast of 0 or less. *)
Definition pivot_fact (c v : Z) : bool :=
  let y := clamp (contrastFactor (JS.ofZ c) * (JS.ofZ v - 128) + 128) in
  let high := (128 <=? v)%Z in
  let low := (v <=? 128)%Z in
  (if (0 <=? c)%Z && high then JS.ofZ v <=? y else true)
  && (if (0 <=? c)%Z && low then y <=? JS.ofZ v else true)
  && (if (c <=? 0)%Z && high then (128 <=? y) && (y <=? JS.ofZ v) else true)
  && (if (c <=? 0)%Z && low then (JS.ofZ v <=? y) && (y <=? 128) else true).

(** Rounding [m / d] to the nearest integer, a tie going to the even one. *)
Definition round_half_even (m d : Z) : Z :=
  let f := (m / d)%Z in
  let r2 := (2 * (m mod d))%Z in
  if (r2 <? d)%Z then f
  else if (d <? r2)%Z then (f + 1)%Z
  else if Z.even f then f else (f + 1)%Z.

(** The value [m * 2^e] of a positive double as a fraction. *)
Definition numerator (m : positive) (e : Z) : Z :=
  if (0 <=? e)%Z then (Zpos m * 2 ^ e)%Z else Zpos m.

Definition denominator (e : Z) : Z :=
  if (0 <=? e)%Z then 1%Z else (2 ^ (- e))%Z.

(** The integers 0 .. 255, each with the Number that holds it. *)
Definition tagged_samples : list (Z * float) :=
  map (fun v => (v, JS.ofZ v)) small_integers.

(** [q R G B L] holds of every 8-bit pixel and its luminance [L]. *)
Definition all_pixels (q : Z -> Z -> Z -> float -> bool) : bool :=
  forallb (fun r => let pr := snd r * 0.299 in
    forallb (fun g => let s := pr + snd g * 0.587 in
      forallb (fun b => q (fst r) (fst g) (fst b) (s + snd b * 0.114))
        tagged_samples) tagged_samples) tagged_samples.

(** [x < bound], and then [rest]. *)
Definition below (x bound : float) (rest : bool) : bool :=
  if x <? bound then rest else false.

(** The luminance is 255 for white only and 0 for black only; below 255
    the scaled brightness stays below the last index of each built-in set,
    and so does the inverted one above 0. *)
Definition extreme_facts (R G B : Z) (L : float) : bool :=
  let n := L / 255 in
  let n' := 1 - n in
  if L <? 255 then
    below (n * 10) 10 (below (n * 8) 8 (below (n * 5) 5 (below (n * 3) 3
      (below (n * 7) 7
        (if 0 <? L then
           below (n' * 10) 10 (below (n' * 8) 8 (below (n' * 5) 5
             (below (n' * 3) 3 (below (n' * 7) 7 true))))
         else (L =? 0) && (R =? 0)%Z && (G =? 0)%Z && (B =? 0)%Z)))))
  else (L =? 255) && (R =? 255)%Z && (G =? 255)%Z && (B =? 255)%Z.

(** The glyph index of the gray pixel [(v, v, v)], -1 when it is not an
    integer. *)
Definition gray_index (selectedCharSet : list jschar) (isInverted : bool) (v : Z) : Z :=
  match JS.toZ (charIndex selectedCharSet isInverted (JS.ofZ v) (JS.ofZ v) (JS.ofZ v)) with
  | Some n => n
  | None => (-1)%Z
  end.

(** From one gray level to the next the index does not decrease, and does
    not increase when inverted. *)
Definition ramp_fact (selectedCharSet : list jschar) (v : Z) : bool :=
  (0 <=? gray_index selectedCharSet false v)%Z
  && (gray_index selectedCharSet false v <=? gray_index selectedCharSet false (v + 1))%Z
  && (0 <=? gray_index selectedCharSet true (v + 1))%Z
  && (gray_index selectedCharSet true (v + 1) <=? gray_index selectedCharSet true v)%Z.

Definition ramp_facts (selectedCharSet : list jschar) : bool :=
  forallb (ramp_fact selectedCharSet) (integers 0 255).

(** The gray level the grayscale palette gives the gray pixel [(v, v, v)]
    is [v] or [v - 1], the latter exactly when the weighted sum of the
    three doubles falls below [v]. *)
Definition grayscale_fact (v : Z) : bool :=
  let c := palette_grayscale (JS.ofZ v) (JS.ofZ v) (JS.ofZ v) in
  match JS.toZ (RGB.r c), JS.toZ (RGB.g c), JS.toZ (RGB.b c) with
  | Some r, Some g, Some b =>
      (r =? g)%Z && (g =? b)%Z
      && (if luminance (JS.ofZ v) (JS.ofZ v) (JS.ofZ v) <? JS.ofZ v
          then (r =? v - 1)%Z else (r =? v)%Z)
  | _, _, _ => false
  end.

(** The gray levels whose weighted sum falls below them. *)
Definition darkened_grays : list Z :=
  filter (fun v => luminance (JS.ofZ v) (JS.ofZ v) (JS.ofZ v) <? JS.ofZ v)
         small_integers.

(** The glyph of the pixel at column [x] of row [y]. *)
Definition pixel_glyph (selectedCharSet : list jschar) (isInverted : bool)
    (data : list Z) (canvas_width y x : nat) : option jschar :=
  let i := ((y * canvas_width + x) * 4)%nat in
  array_get selectedCharSet
    (charIndex selectedCharSet isInverted
       (U8.get data i) (U8.get data (i + 1)) (U8.get data (i + 2))).

(** The [colorData] entry of that pixel. *)
Definition pixel_cell (selectedCharSet : list jschar) (isInverted : bool)
    (paletteFunc : Palette) (data : list Z) (canvas_width y x : nat) : Cell.t :=
  let i := ((y * canvas_width + x) * 4)%nat in
  let transformedColor :=
    paletteFunc (U8.get data i) (U8.get data (i + 1)) (U8.get data (i + 2)) in
  Cell.make (pixel_glyph selectedCharSet isInverted data canvas_width y x)
            (RGB.r transformedColor) (RGB.g transformedColor) (RGB.b transformedColor).

(** The text of the grid: row after row, each glyph as [+=] appends it,
    and a line feed after each row. *)
Definition row_text (selectedCharSet : list jschar) (isInverted : bool)
    (data : list Z) (canvas_width y : nat) : jsstring :=
  flat_map (fun x => append_value []
                       (pixel_glyph selectedCharSet isInverted data canvas_width y x))
           (seq 0 canvas_width)
  ++ [LF].

Definition grid_text (selectedCharSet : list jschar) (isInverted : bool)
    (data : list Z) (canvas_width canvas_height : nat) : jsstring :=
  flat_map (row_text selectedCharSet isInverted data canvas_width) (seq 0 canvas_height).

Definition grid_cells (selectedCharSet : list jschar) (isInverted : bool)
    (paletteFunc : Palette) (data : list Z) (canvas_width canvas_height : nat)
    : list (list Cell.t) :=
  map (fun y => map (pixel_cell selectedCharSet isInverted paletteFunc data canvas_width y)
                    (seq 0 canvas_width))
      (seq 0 canvas_height).

(** The rows of glyphs of a grid, as the spans of the output element hold
    them. *)
Definition glyph_rows (selectedCharSet : list jschar) (isInverted : bool)
    (data : list Z) (canvas_width canvas_height : nat) : list jsstring :=
  map (fun y => map (fun x => glyph_text (pixel_glyph selectedCharSet isInverted data
                                            canvas_width y x))
                    (seq 0 canvas_width))
      (seq 0 canvas_height).

(** The palette key with its default, and
    [colorPalettes[colorPalette] || colorPalettes.original]. *)
Definition palette_key (colorPalette : option string) : string :=
  match colorPalette with
  | Some key => key
  | None => "original"
  end.

Definition palette_of (colorPalette : option string) : Palette :=
  match property colorPalettes (palette_key colorPalette) with
  | Own paletteFunc => paletteFunc
  | _ => palette_original
  end.

(** [options] with another [isColorMode]. *)
Definition with_color_mode (options : Options.t) (isColorMode : bool) : Options.t :=
  Options.make (Options.outputWidth options) (Options.brightness options)
               (Options.contrast options) (Options.charSetKey options)
               isColorMode (Options.isInverted options)
               (Options.colorPalette options).

(** The samples the loops read: the drawn image, adjusted when brightness
    or contrast is not 0. *)
Definition processed_pixels (image : Image.t) (options : Options.t) : list Z :=
  let outputWidth := Options.outputWidth options in
  let width := canvas_dimension 300 outputWidth in
  let height :=
    canvas_dimension 150
      (JS.Math_floor (Image.height image * (outputWidth / Image.width image))) in
  if JS.strict_neq (Options.brightness options) 0
     || JS.strict_neq (Options.contrast options) 0
  then adjust_data (Options.brightness options) (Options.contrast options)
         (Image.drawn image width height)
  else Image.drawn image width height.

(** Every pixel of the buffer has the alpha sample 255.  A canvas keeps
    the colour samples of such a pixel as [putImageData] wrote them. *)
Fixpoint opaque (data : list Z) : bool :=
  match data with
  | _ :: _ :: _ :: a :: rest => (a =? 255)%Z && opaque rest
  | _ => true
  end.

(** The size, the font size and the origin of the text that [handleSavePng]
    computes from the length of the longest line and the number of lines. *)
Module Layout.
Record t := make {
  width : Z;
  height : Z;
  fontSize : float;
  startX : float;
  startY : float
}.
End Layout.

Definition final_size (maxLineLength lines_length : float) : float * float :=
  let baseFontSize := 10 in
  let baseCharWidth := baseFontSize * 0.6 in
  let baseLineHeight := baseFontSize in
  let padding := 100 in
  let naturalWidth := maxLineLength * baseCharWidth + padding in
  let naturalHeight := lines_length * baseLineHeight + padding in
  let minDimension := 600 in
  let maxDimension := 1200 in
  let aspectRatio := naturalWidth / naturalHeight in
  if (maxDimension <? naturalWidth) || (maxDimension <? naturalHeight) then
    if naturalHeight <? naturalWidth then
      let finalWidth := JS.Math_min naturalWidth maxDimension in
      (finalWidth, JS.Math_round (finalWidth / aspectRatio))
    else
      let finalHeight := JS.Math_min naturalHeight maxDimension in
      (JS.Math_round (finalHeight * aspectRatio), finalHeight)
  else if (naturalWidth <? minDimension) && (naturalHeight <? minDimension) then
    if naturalHeight <? naturalWidth then
      (minDimension, JS.Math_round (minDimension / aspectRatio))
    else
      (JS.Math_round (minDimension * aspectRatio), minDimension)
  else (JS.Math_round naturalWidth, JS.Math_round naturalHeight).

Definition png_layout (maxLineLength lines_length : float) : Layout.t :=
  let padding := 100 in
  let '(finalWidth, finalHeight) := final_size maxLineLength lines_length in
  let canvas_width := canvas_dimension 300 finalWidth in
  let canvas_height := canvas_dimension 150 finalHeight in
  let availableWidth := finalWidth - padding in
  let availableHeight := finalHeight - padding in
  let charWidthRatio := 0.6 in
  let maxFontSizeByWidth :=
    JS.Math_floor (availableWidth / maxLineLength / charWidthRatio) in
  let maxFontSizeByHeight := JS.Math_floor (availableHeight / lines_length) in
  let fontSize :=
    JS.Math_max 6 (JS.Math_min_of [maxFontSizeByWidth; maxFontSizeByHeight; 12]) in
  let adjustedLineHeight := fontSize in
  let adjustedCharWidth := fontSize * charWidthRatio in
  let totalTextWidth := maxLineLength * adjustedCharWidth in
  let totalTextHeight := lines_length * adjustedLineHeight in
  let startX := (JS.ofZ canvas_width - totalTextWidth) / 2 in
  let startY := (JS.ofZ canvas_height - totalTextHeight) / 2 in
  Layout.make canvas_width canvas_height fontSize startX startY.

(** The calls [handleSavePng] draws with a layout. *)
Definition png_calls (l : Layout.t) (isColorMode : bool) (lines : list jsstring)
    (rows : list (list (jschar * string))) : list Png.FillText :=
  if isColorMode
  then draw_rows rows 0 (Layout.startX l) (Layout.startY l) (Layout.fontSize l)
         (Layout.fontSize l * 0.6)
  else draw_lines lines 0 (Layout.startX l) (Layout.startY l) (Layout.fontSize l).

(** The length of the longest line. *)
Definition longest (lines : list jsstring) : Z :=
  fold_left Z.max (map (fun line => Z.of_nat (length line)) lines) 0%Z.

(** [Math.max] on the small integers: it is their maximum, and the initial
    [-Infinity] of [Math.max(...xs)] gives way to the first argument. *)
Definition max_fact (a b : Z) : bool :=
  Leibniz.eqb (JS.Math_max (JS.ofZ a) (JS.ofZ b)) (JS.ofZ (Z.max a b)).

Definition max_first_fact (a : Z) : bool :=
  Leibniz.eqb (JS.Math_max neg_infinity (JS.ofZ a)) (JS.ofZ a).

(** For [c] columns and [n] lines: the bitmap has pixels, no side above
    1200, the larger side at least 600 and a font size of 6 to 12; up to
    200 lines the text block is within the bitmap, beyond them it is
    taller than the bitmap. *)
Definition layout_fact (c n : Z) : bool :=
  let l := png_layout (JS.ofZ c) (JS.ofZ n) in
  let w := Layout.width l in
  let h := Layout.height l in
  let fontSize := Layout.fontSize l in
  (1 <=? w)%Z && (w <=? 1200)%Z && (1 <=? h)%Z && (h <=? 1200)%Z
  && (600 <=? Z.max w h)%Z
  && (6 <=? fontSize) && (fontSize <=? 12)
  && (if (n <=? 200)%Z
      then (JS.ofZ c * (fontSize * 0.6) <=? JS.ofZ w) && (JS.ofZ n * fontSize <=? JS.ofZ h)
      else JS.ofZ h <? JS.ofZ n * fontSize).

(** * Verification *)

(** ** The tonal adjuster *)

Lemma set_length data i x : length (U8.set data i x) = length data.
Proof.
  revert i; induction data as [|v t IH]; intros [|i]; simpl; auto.
Qed.

Lemma set_same data i x :
  (i < length data)%nat ->
  nth_error (U8.set data i x) i = Some (JS.ToUint8Clamp x).
Proof.
  revert i; induction data as [|v t IH]; intros [|i] H; simpl in *;
    try lia; auto.
  apply IH; lia.
Qed.

Lemma set_other data i j x :
  i <> j -> nth_error (U8.set data i x) j = nth_error data j.
Proof.
  revert i j; induction data as [|v t IH]; intros [|i] [|j] H; simpl;
    try congruence; auto.
Qed.

Lemma get_some data i v : nth_error data i = Some v -> U8.get data i = JS.ofZ v.
Proof. unfold U8.get; intros ->; reflexivity. Qed.

Lemma set_beyond data i x : (length data <= i)%nat -> U8.set data i x = data.
Proof.
  revert i; induction data as [|v t IH]; intros [|i] H; simpl in *;
    try lia; auto.
  f_equal; apply IH; lia.
Qed.

(** One iteration rewrites the three colour samples at [i], [i+1], [i+2]
    and nothing else. *)
Lemma adjust_at_nth b f i data j :
  nth_error (adjust_at b f i data) j =
  if ((i <=? j) && (j <? i + 3))%nat
  then option_map (adjust_sample b f) (nth_error data j)
  else nth_error data j.
Proof.
  unfold adjust_at, U8.get.
  destruct (Nat.leb_spec i j) as [Hij|Hij]; simpl.
  2:{ now rewrite !set_other by lia. }
  destruct (Nat.ltb_spec j (i + 3)) as [Hj|Hj].
  2:{ now rewrite !set_other by lia. }
  destruct (nth_error data j) as [v|] eqn:E.
  2:{ apply nth_error_None in E.
      rewrite (proj2 (nth_error_None _ _)); [reflexivity|].
      rewrite !set_length; lia. }
  assert (Hlen : (j < length data)%nat) by (apply nth_error_Some; congruence).
  simpl. unfold adjust_sample.
  assert (K : j = i \/ j = (i + 1)%nat \/ j = (i + 2)%nat) by lia.
  destruct K as [->|[->| ->]];
    repeat first [ rewrite set_other by lia
                 | rewrite set_same by (rewrite ?set_length; lia) ];
    rewrite E; reflexivity.
Qed.

Lemma adjust_at_length b f i data : length (adjust_at b f i data) = length data.
Proof. unfold adjust_at; now rewrite !set_length. Qed.

Lemma adjust_loop_length fuel b f i data :
  length (adjust_loop fuel b f i data) = length data.
Proof.
  revert i data; induction fuel as [|fuel IH]; intros i data; simpl; auto.
  destruct (i <? length data)%nat; auto.
  rewrite IH. apply adjust_at_length.
Qed.

(** With enough fuel the loop started at [i] rewrites exactly the samples
    at [i + 4 q + k], [k < 3]. *)
Lemma adjust_loop_nth fuel b f : forall i data j,
  (length data <= i + 4 * fuel)%nat ->
  nth_error (adjust_loop fuel b f i data) j =
  if ((i <=? j) && negb ((j - i) mod 4 =? 3))%nat
  then option_map (adjust_sample b f) (nth_error data j)
  else nth_error data j.
Proof.
  assert (past : forall (data : list Z) i j (c : bool), (length data <= i)%nat ->
            nth_error data j =
            if ((i <=? j)%nat && c)%bool
            then option_map (adjust_sample b f) (nth_error data j)
            else nth_error data j).
  { intros data i j c H. destruct (Nat.leb_spec i j); simpl; auto.
    rewrite (proj2 (nth_error_None data j)) by lia. now destruct c. }
  induction fuel as [|fuel IH]; intros i data j Hfuel.
  - apply past; lia.
  - cbn [adjust_loop].
    destruct (Nat.ltb_spec i (length data)) as [Hi|Hi]; [|apply past; lia].
    rewrite IH by (rewrite adjust_at_length; lia).
    rewrite adjust_at_nth.
    remember ((j - i) mod 4)%nat as m eqn:Em.
    remember ((j - (i + 4)) mod 4)%nat as m' eqn:Em'.
    destruct (Nat.leb_spec (i + 4) j) as [H4|H4].
    + assert (m' = m) as ->.
      { subst. replace (j - i)%nat with ((j - (i + 4)) + 1 * 4)%nat by lia.
        now rewrite Nat.Div0.mod_add. }
      destruct (Nat.leb_spec i j); [|lia].
      destruct (Nat.ltb_spec j (i + 3)); [lia|]. reflexivity.
    + destruct (Nat.leb_spec i j) as [Hij|Hij]; [|reflexivity].
      assert (K : j = i \/ j = (i + 1)%nat \/ j = (i + 2)%nat \/ j = (i + 3)%nat) by lia.
      destruct K as [->|[->|[->| ->]]].
      * replace (i - i)%nat with 0%nat in Em by lia. subst m.
        destruct (Nat.ltb_spec i (i + 3)); [reflexivity|lia].
      * replace (i + 1 - i)%nat with 1%nat in Em by lia. subst m.
        destruct (Nat.ltb_spec (i + 1) (i + 3)); [reflexivity|lia].
      * replace (i + 2 - i)%nat with 2%nat in Em by lia. subst m.
        destruct (Nat.ltb_spec (i + 2) (i + 3)); [reflexivity|lia].
      * replace (i + 3 - i)%nat with 3%nat in Em by lia. subst m.
        destruct (Nat.ltb_spec (i + 3) (i + 3)); [lia|reflexivity].
Qed.

Lemma adjust_data_length b c data : length (adjust_data b c data) = length data.
Proof. apply adjust_loop_length. Qed.

Lemma adjust_data_color b c data p k :
  (k < 3)%nat ->
  nth_error (adjust_data b c data) (4 * p + k) =
  option_map (adjust_sample b (contrastFactor c)) (nth_error data (4 * p + k)).
Proof.
  intros Hk. unfold adjust_data. rewrite adjust_loop_nth by lia.
  replace (4 * p + k - 0)%nat with (k + p * 4)%nat by lia.
  rewrite Nat.Div0.mod_add, Nat.mod_small by lia.
  destruct k as [|[|[|k]]]; try lia; reflexivity.
Qed.

Lemma adjust_data_alpha b c data p :
  nth_error (adjust_data b c data) (4 * p + 3) = nth_error data (4 * p + 3).
Proof.
  unfold adjust_data. rewrite adjust_loop_nth by lia.
  replace (4 * p + 3 - 0)%nat with (3 + p * 4)%nat by lia.
  rewrite Nat.Div0.mod_add. reflexivity.
Qed.

Lemma applyBrightnessContrast_pixels ctx w h b c ctx' :
  applyBrightnessContrast ctx w h b c = Normal ctx' ->
  pixels ctx' = adjust_data b c (pixels ctx).
Proof.
  unfold applyBrightnessContrast, getImageData.
  destruct (_ || _)%bool; simpl; [discriminate|].
  destruct (_ && _)%bool; simpl; [|discriminate].
  intros [= <-]. reflexivity.
Qed.

(** ** Facts on doubles

    The comparisons of primitive floats are related to the mantissa and
    exponent of their arguments by the standard library's specification of
    the primitives ([leb_spec], [ltb_spec], [Prim2SF_valid]). *)

Lemma digits2_pos_gt m : (Zpos m < 2 ^ Zpos (digits2_pos m))%Z.
Proof.
  induction m as [m IH|m IH|]; cbn [digits2_pos];
    rewrite ?Pos2Z.inj_succ, ?Z.pow_succ_r by lia; lia.
Qed.

(** The mantissa of a double has at most 53 bits. *)
Lemma mantissa_bound x s m e :
  Prim2SF x = S754_finite s m e -> (Zpos m < 2 ^ 53)%Z.
Proof.
  intros E. pose proof (Prim2SF_valid x) as V. rewrite E in V.
  unfold valid_binary, bounded, canonical_mantissa, fexp in V.
  apply andb_prop in V. destruct V as [V _]. apply Z.eqb_eq in V.
  pose proof (digits2_pos_gt m) as D.
  assert (Zpos (digits2_pos m) <= 53)%Z by (unfold prec in V; lia).
  eapply Z.lt_le_trans; [exact D|].
  apply Z.pow_le_mono_r; lia.
Qed.

(** A Number that compares as [0 <= x] is a zero, a positive finite double
    or [+Infinity]. *)
Lemma nonneg_cases x :
  (0 <=? x) = true ->
  (exists s, Prim2SF x = S754_zero s)
  \/ (exists m e, Prim2SF x = S754_finite false m e)
  \/ Prim2SF x = S754_infinity false.
Proof.
  rewrite leb_spec. change (Prim2SF 0) with (S754_zero false).
  destruct (Prim2SF x) as [s|s| |s m e]; cbn; try discriminate.
  - eauto.
  - destruct s; [discriminate|auto].
  - destruct s; [discriminate|eauto].
Qed.

(** Below a bound [B = K] whose mantissa is normal, a positive double
    [m * 2^e] has a negative exponent and [m < K * 2^-e]. *)
Lemma below_bound x bound K mK eK m e :
  Prim2SF bound = S754_finite false mK eK ->
  (eK < 0)%Z -> (Zpos mK = K * 2 ^ (- eK))%Z -> (2 ^ 52 <= Zpos mK)%Z ->
  Prim2SF x = S754_finite false m e ->
  (x <? bound) = true ->
  (e < 0)%Z /\ (Zpos m < K * 2 ^ (- e))%Z.
Proof.
  intros EB HeK HmK Hnorm Ex Hlt.
  pose proof (mantissa_bound _ _ _ _ Ex) as Hm.
  rewrite ltb_spec, Ex, EB in Hlt. cbn in Hlt.
  destruct (Z.compare_spec e eK) as [->|He|He]; try discriminate.
  - split; [lia|]. rewrite <- HmK.
    change (Pos.compare_cont Eq m mK) with (Pos.compare m mK) in Hlt.
    destruct (Pos.compare_spec m mK); try discriminate. lia.
  - split; [lia|].
    replace (- e)%Z with ((eK - e) + - eK)%Z by lia.
    rewrite Z.pow_add_r by lia.
    assert (2 ^ 1 <= 2 ^ (eK - e))%Z by (apply Z.pow_le_mono_r; lia).
    change (2 ^ 1)%Z with 2%Z in *. change (2 ^ 53)%Z with (2 * 2 ^ 52)%Z in Hm.
    nia.
Qed.

Lemma small_integers_spec n : (0 <= n <= 255)%Z -> In n small_integers.
Proof.
  intros H. unfold small_integers. apply in_map_iff.
  exists (Z.to_nat n). split; [lia|]. apply in_seq. lia.
Qed.

(** The integers of [0 .. 255] survive the trip through a Number. *)
Lemma toZ_ofZ n : (0 <= n <= 255)%Z -> JS.toZ (JS.ofZ n) = Some n.
Proof.
  intros H.
  assert (A : forallb (fun n => match JS.toZ (JS.ofZ n) with
                                | Some k => (k =? n)%Z
                                | None => false
                                end) small_integers = true)
    by (vm_compute; reflexivity).
  rewrite forallb_forall in A. specialize (A n (small_integers_spec n H)).
  destruct (JS.toZ (JS.ofZ n)); [|discriminate].
  apply Z.eqb_eq in A. now subst.
Qed.

(** [Math.floor] of a Number in [[0, K)], [K <= 256], is one of the
    integers [0 .. K - 1]. *)
Lemma Math_floor_range x bound K mK eK :
  Prim2SF bound = S754_finite false mK eK ->
  (eK < 0)%Z -> (Zpos mK = K * 2 ^ (- eK))%Z -> (2 ^ 52 <= Zpos mK)%Z ->
  (K <= 256)%Z ->
  (0 <=? x) = true -> (x <? bound) = true ->
  exists n, (0 <= n < K)%Z /\ JS.toZ (JS.Math_floor x) = Some n.
Proof.
  intros EB HeK HmK Hnorm HK H0 Hlt.
  assert (0 < K)%Z by (pose proof (Z.pow_pos_nonneg 2 (- eK)); nia).
  destruct (nonneg_cases x H0) as [[s E]|[(m & e & E)|E]].
  - exists 0%Z. split; [lia|].
    unfold JS.Math_floor. rewrite E. unfold JS.toZ. now rewrite E.
  - destruct (below_bound _ _ _ _ _ _ _ EB HeK HmK Hnorm E Hlt) as [He Hm].
    exists (Zpos m / 2 ^ (- e))%Z.
    assert (P : (0 < 2 ^ (- e))%Z) by (apply Z.pow_pos_nonneg; lia).
    assert (R : (0 <= Zpos m / 2 ^ (- e) < K)%Z).
    { split; [apply Z.div_pos; lia|]. apply Z.div_lt_upper_bound; lia. }
    split; [exact R|].
    unfold JS.Math_floor. rewrite E.
    destruct (Z.leb_spec 0 e); [lia|].
    unfold JS.floorZ. destruct (Z.leb_spec 0 e); [lia|]. cbn [JS.signed].
    apply toZ_ofZ. lia.
  - rewrite ltb_spec, E, EB in Hlt. discriminate.
Qed.

(** ** The luminance of 8-bit pixels

    The weighted sum has only finitely many inputs, so what the mapper and
    the palettes need of it is checked by running the doubles through all
    256^3 pixels. *)

Lemma all_luminances_sound q l :
  all_luminances q l = true ->
  forall r g b, In r l -> In g l -> In b l -> q (luminance r g b) = true.
Proof.
  unfold all_luminances, luminance. intros H r g b Hr Hg Hb.
  rewrite forallb_forall in H. specialize (H r Hr). cbv zeta in H.
  rewrite forallb_forall in H. specialize (H g Hg). cbv zeta in H.
  rewrite forallb_forall in H. exact (H b Hb).
Qed.

Lemma index_facts_all : all_luminances index_facts samples = true.
Proof. vm_cast_no_check (eq_refl true). Qed.

Lemma palette_facts_all : all_luminances palette_facts samples = true.
Proof. vm_cast_no_check (eq_refl true). Qed.

Lemma sample_in v : (0 <= v <= 255)%Z -> In (JS.ofZ v) samples.
Proof. intros H. apply in_map, small_integers_spec, H. Qed.

Lemma within_true x bound rest :
  within x bound rest = true ->
  ((0 <=? x) = true /\ (x <? bound) = true) /\ rest = true.
Proof.
  unfold within. destruct (0 <=? x); [|discriminate].
  destruct (x <? bound); [|discriminate]. auto.
Qed.

(** Applies [Math_floor_range] at a literal bound. *)
Ltac floor_below bound K :=
  apply (Math_floor_range _ bound K _ _ ltac:(vm_compute; reflexivity));
  [ reflexivity | reflexivity | now vm_compute | now vm_compute
  | tauto | tauto ].

Lemma property_own {A} (object : list (string * A)) key a :
  property object key = Own a -> In (key, a) object.
Proof.
  unfold property. destruct (find _ object) as [[k v]|] eqn:F.
  - intros [= <-]. apply find_some in F. destruct F as [F E].
    cbn in E. apply String.eqb_eq in E. now subst.
  - destruct (existsb _ _); discriminate.
Qed.

(** The glyph index of an 8-bit pixel is an integer inside the set, for
    each built-in set. *)
Lemma charIndex_range key set R G B invert :
  property charSets key = Own set ->
  (0 <= R <= 255)%Z -> (0 <= G <= 255)%Z -> (0 <= B <= 255)%Z ->
  exists n : Z,
    (0 <= n < Z.of_nat (length set))%Z
    /\ JS.toZ (charIndex set invert (JS.ofZ R) (JS.ofZ G) (JS.ofZ B)) = Some n.
Proof.
  intros P HR HG HB. apply property_own in P.
  pose proof (all_luminances_sound _ _ index_facts_all _ _ _
                (sample_in R HR) (sample_in G HG) (sample_in B HB)) as F.
  unfold index_facts in F. cbv zeta in F.
  unfold charIndex. fold (luminance (JS.ofZ R) (JS.ofZ G) (JS.ofZ B)).
  set (L := luminance _ _ _) in *. cbv zeta.
  repeat (apply within_true in F;
          let H := fresh "F" in destruct F as [H F]).
  cbn in P.
  destruct P as [P|[P|[P|[P|[P|[P|[]]]]]]]; injection P as <- <-;
    cbn [length]; destruct invert.
  - floor_below 11 11%Z.
  - floor_below 11 11%Z.
  - floor_below 9 9%Z.
  - floor_below 9 9%Z.
  - floor_below 6 6%Z.
  - floor_below 6 6%Z.
  - floor_below 6 6%Z.
  - floor_below 6 6%Z.
  - floor_below 4 4%Z.
  - floor_below 4 4%Z.
  - floor_below 8 8%Z.
  - floor_below 8 8%Z.
Qed.

(** ** Stored samples stay 8-bit *)

Lemma ToUint8Clamp_range x : u8 (JS.ToUint8Clamp x).
Proof.
  unfold u8, JS.ToUint8Clamp.
  destruct (Prim2SF x) as [s|s| |s m e]; try lia.
  - destruct s; lia.
  - destruct s; [lia|].
    destruct (Z.leb_spec 0 e).
    + pose proof (Z.pow_nonneg 2 e). nia.
    + assert (0 < 2 ^ (- e))%Z by (apply Z.pow_pos_nonneg; lia).
      assert (0 <= Zpos m / 2 ^ (- e))%Z by (apply Z.div_pos; lia).
      cbv zeta.
      destruct (_ <? _)%Z; [lia|]. destruct (_ <? _)%Z; [lia|].
      destruct (Z.even _); lia.
Qed.

Lemma adjust_data_u8 b c data : Forall u8 data -> Forall u8 (adjust_data b c data).
Proof.
  intros H. apply Forall_forall. intros v Hv.
  apply In_nth_error in Hv. destruct Hv as [j Hj].
  unfold adjust_data in Hj. rewrite adjust_loop_nth in Hj by lia.
  destruct (_ && _)%bool.
  - destruct (nth_error data j); [|discriminate].
    injection Hj as <-. apply ToUint8Clamp_range.
  - rewrite Forall_forall in H. eapply H, nth_error_In, Hj.
Qed.

(** ** Canvas sizes *)

Lemma ToUint32_integer x n : JS.toZ x = Some n -> JS.ToUint32 x = (n mod 2 ^ 32)%Z.
Proof.
  unfold JS.toZ, JS.ToUint32.
  destruct (Prim2SF x) as [s|s| |s m e]; try discriminate.
  - now intros [= <-].
  - destruct (Z.leb_spec 0 e).
    + intros [= <-]. destruct s; cbn [JS.signed]; f_equal; lia.
    + destruct (Z.eqb_spec (Zpos m mod 2 ^ (- e)) 0) as [D|]; [|discriminate].
      intros [= <-]. destruct s; cbn [JS.signed]; f_equal.
      assert (0 < 2 ^ (- e))%Z by (apply Z.pow_pos_nonneg; lia).
      change (Z.neg m) with (- Z.pos m)%Z.
      rewrite Z.div_opp_l_z by lia. reflexivity.
Qed.

(** An integer in the range of the attribute is stored as it is. *)
Lemma canvas_dimension_integer default x n :
  JS.toZ x = Some n -> (0 <= n <= 2147483647)%Z ->
  canvas_dimension default x = n.
Proof.
  intros E H. unfold canvas_dimension. rewrite (ToUint32_integer _ _ E).
  rewrite Z.mod_small by lia. destruct (Z.leb_spec n 2147483647); lia.
Qed.

(** ** Glyph lookup *)

Lemma array_get_integer {A} (arr : list A) i n :
  JS.toZ i = Some n -> (0 <= n)%Z -> array_get arr i = nth_error arr (Z.to_nat n).
Proof.
  intros E H. unfold array_get. rewrite E.
  destruct (Z.leb_spec 0 n); [reflexivity|lia].
Qed.

(** Every 8-bit pixel has a glyph in each built-in set. *)
Lemma glyph_defined key set R G B invert :
  property charSets key = Own set ->
  u8 R -> u8 G -> u8 B ->
  exists c, array_get set (charIndex set invert (JS.ofZ R) (JS.ofZ G) (JS.ofZ B)) = Some c
            /\ In c set.
Proof.
  intros P HR HG HB.
  destruct (charIndex_range key set R G B invert P HR HG HB) as (n & Hn & E).
  rewrite (array_get_integer _ _ _ E) by lia.
  destruct (nth_error set (Z.to_nat n)) as [c|] eqn:N.
  - exists c. split; [reflexivity|]. eapply nth_error_In, N.
  - apply nth_error_None in N. lia.
Qed.

Lemma builtin_glyph_not_LF key set c :
  property charSets key = Own set -> In c set -> String.eqb c LF = false.
Proof.
  intros P. apply property_own in P. cbn in P.
  destruct P as [P|[P|[P|[P|[P|[P|[]]]]]]]; injection P as <- <-;
    cbn; intros H; repeat (destruct H as [<-|H]; [reflexivity|]); destruct H.
Qed.

(** ** The conversion loops *)

Section Loops.

Variables (key : string) (set : list jschar).
Variables (isColorMode isInverted : bool) (colorPalette : string).
Variables (data : list Z) (W H : nat).

Hypothesis set_own : property charSets key = Own set.
Hypothesis palette_modelled :
  isColorMode = true -> property colorPalettes colorPalette <> Inherited.
Hypothesis data_u8 : Forall u8 data.
Hypothesis data_length : length data = (4 * W * H)%nat.

Lemma sample_at i : (i < 4 * W * H)%nat -> exists v, nth_error data i = Some v /\ u8 v.
Proof.
  intros Hi. destruct (nth_error data i) as [v|] eqn:E.
  - exists v. split; [reflexivity|].
    rewrite Forall_forall in data_u8. eapply data_u8, nth_error_In, E.
  - apply nth_error_None in E. lia.
Qed.

(** One pixel appends one glyph of the set to the text and, in colour
    mode, one cell to the row. *)
Lemma convert_pixel_ok y x ascii row :
  (y < H)%nat -> (x < W)%nat ->
  exists c cell,
    In c set /\
    convert_pixel (Own set) isColorMode isInverted colorPalette data W y x (ascii, row)
    = Normal (ascii ++ [c], if isColorMode then row ++ [cell] else row).
Proof.
  intros Hy Hx.
  assert (Hi : ((y * W + x) * 4 + 2 < 4 * W * H)%nat) by nia.
  destruct (sample_at ((y * W + x) * 4)) as (R & ER & HR); [lia|].
  destruct (sample_at ((y * W + x) * 4 + 1)) as (G & EG & HG); [lia|].
  destruct (sample_at ((y * W + x) * 4 + 2)) as (B & EB & HB); [lia|].
  unfold convert_pixel. cbn [bind].
  rewrite (get_some _ _ _ ER), (get_some _ _ _ EG), (get_some _ _ _ EB).
  destruct (glyph_defined key set R G B isInverted set_own HR HG HB) as (c & Ec & Hc).
  rewrite Ec. cbn [append_value].
  destruct isColorMode eqn:CM.
  - destruct (property colorPalettes colorPalette) as [f| |] eqn:P.
    + cbn [bind]. eauto.
    + exfalso. now apply palette_modelled.
    + cbn [bind]. eauto.
  - exists c, (Cell.make None 0 0 0). auto.
Qed.

Lemma convert_pixels_ok y n : forall x0 ascii row,
  (y < H)%nat -> (x0 + n <= W)%nat ->
  exists glyphs cells,
    length glyphs = n /\ Forall (fun c => In c set) glyphs /\ length cells = n /\
    for_loop n x0
      (convert_pixel (Own set) isColorMode isInverted colorPalette data W y)
      (ascii, row)
    = Normal (ascii ++ glyphs, if isColorMode then row ++ cells else row).
Proof.
  induction n as [|n IH]; intros x0 ascii row Hy Hx.
  - exists [], []. cbn. rewrite !app_nil_r. destruct isColorMode; auto.
  - cbn [for_loop].
    destruct (convert_pixel_ok y x0 ascii row Hy) as (c & cell & Hc & E); [lia|].
    rewrite E. cbn [bind].
    destruct (IH (S x0) (ascii ++ [c]) (if isColorMode then row ++ [cell] else row) Hy)
      as (glyphs & cells & Lg & Fg & Lc & E'); [lia|].
    exists (c :: glyphs), (cell :: cells). rewrite E'.
    repeat split; cbn; auto.
    destruct isColorMode; now rewrite <- !app_assoc.
Qed.

(** One scanline appends [W] glyphs and a line feed. *)
Lemma convert_row_ok y ascii colorData :
  (y < H)%nat ->
  exists glyphs cells,
    length glyphs = W /\ Forall (fun c => In c set) glyphs /\ length cells = W /\
    convert_row (Own set) isColorMode isInverted colorPalette data W y (ascii, colorData)
    = Normal (ascii ++ glyphs ++ [LF],
              if isColorMode then colorData ++ [cells] else colorData).
Proof.
  intros Hy. unfold convert_row.
  destruct (convert_pixels_ok y W 0 ascii [] Hy) as (glyphs & cells & Lg & Fg & Lc & E);
    [lia|].
  rewrite E. cbn [bind]. exists glyphs, cells.
  repeat split; auto. rewrite <- app_assoc.
  destruct isColorMode; reflexivity.
Qed.

Lemma convert_rows_ok n : forall y0 ascii colorData,
  (y0 + n <= H)%nat ->
  exists rows grid,
    length rows = n /\ Forall (row_ok set W) rows /\
    length grid = n /\ Forall (fun cells => length cells = W) grid /\
    for_loop n y0
      (convert_row (Own set) isColorMode isInverted colorPalette data W)
      (ascii, colorData)
    = Normal (ascii ++ text_of rows,
              if isColorMode then colorData ++ grid else colorData).
Proof.
  induction n as [|n IH]; intros y0 ascii colorData Hy.
  - exists [], []. cbn. rewrite !app_nil_r. destruct isColorMode; auto.
  - cbn [for_loop].
    destruct (convert_row_ok y0 ascii colorData) as (glyphs & cells & Lg & Fg & Lc & E);
      [lia|].
    rewrite E. cbn [bind].
    destruct (IH (S y0) (ascii ++ glyphs ++ [LF])
                 (if isColorMode then colorData ++ [cells] else colorData))
      as (rows & grid & Lr & Fr & Lgr & Fgr & E'); [lia|].
    exists (glyphs :: rows), (cells :: grid). rewrite E'.
    repeat split; cbn; auto.
    + constructor; [split|]; auto.
    + unfold text_of. cbn. rewrite <- !app_assoc.
      destruct isColorMode; now rewrite <- ?app_assoc.
Qed.

(** Splitting the text at line feeds gives the rows back, and an empty
    last line after the final line feed. *)
Lemma split_text rows : Forall (row_ok set W) rows -> split_lines (text_of rows) = rows ++ [[]].
Proof.
  induction 1 as [|row rows [_ Hrow] _ IH]; [reflexivity|].
  unfold text_of in *. cbn [map concat app]. rewrite <- app_assoc. cbn [app].
  induction Hrow as [|c row Hc _ IHrow]; cbn [app split_lines].
  - change (String.eqb LF LF) with true. cbn. now rewrite IH.
  - rewrite (builtin_glyph_not_LF key set c set_own Hc). now rewrite IHrow.
Qed.

End Loops.

(** ** The converter as a whole *)

Lemma bind_normal {A B} (c : Completion A) (k : A -> Completion B) b :
  bind c k = Normal b -> exists a, c = Normal a /\ k a = Normal b.
Proof. destruct c; cbn; try discriminate. eauto. Qed.

Lemma for_loop_ext {St} (f g : nat -> St -> Completion St) :
  (forall i s, f i s = g i s) ->
  forall n i s, for_loop n i f s = for_loop n i g s.
Proof.
  intros E n. induction n as [|n IH]; intros i s; cbn; auto.
  rewrite E. destruct (g i s); cbn; auto.
Qed.

(** The optional tonal adjustment of a canvas with pixels succeeds and
    leaves 8-bit samples, four per pixel. *)
Lemma adjusted_canvas image w h b c :
  canvas_ok image -> (1 <= w)%Z -> (1 <= h)%Z ->
  exists ctx,
    (if JS.strict_neq b 0 || JS.strict_neq c 0
     then applyBrightnessContrast (drawImage image w h) w h b c
     else Normal (drawImage image w h)) = Normal ctx
    /\ getImageData ctx w h = Normal (pixels ctx)
    /\ length (pixels ctx) = (4 * Z.to_nat w * Z.to_nat h)%nat
    /\ Forall u8 (pixels ctx).
Proof.
  intros OK Hw Hh. destruct (OK w h) as [L F]; [lia|lia|].
  assert (L' : length (Image.drawn image w h) = (4 * Z.to_nat w * Z.to_nat h)%nat) by lia.
  assert (G : forall data, getImageData (mkCanvas w h data) w h = Normal data).
  { intros data. unfold getImageData. cbn.
    destruct (Z.eqb_spec w 0); [lia|]. destruct (Z.eqb_spec h 0); [lia|].
    now rewrite !Z.eqb_refl. }
  destruct (_ || _)%bool.
  - unfold applyBrightnessContrast, drawImage. rewrite G. cbn [bind].
    eexists. split; [reflexivity|]. unfold putImageData. cbn.
    split; [apply G|]. split; [now rewrite adjust_data_length|now apply adjust_data_u8].
  - eexists. split; [reflexivity|]. unfold drawImage. cbn. auto.
Qed.

(** On a canvas with pixels, a built-in character set and a palette key
    that is modelled, the conversion returns one row of text per canvas
    row and one glyph per canvas column. *)
Lemma convert_normal image options set w h :
  canvas_ok image ->
  property charSets (Options.charSetKey options) = Own set ->
  (Options.isColorMode options = true -> forall key,
     Options.colorPalette options = Some key ->
     property colorPalettes key <> Inherited) ->
  canvas_dimension 300 (Options.outputWidth options) = w ->
  canvas_dimension 150
    (JS.Math_floor (Image.height image
                    * (Options.outputWidth options / Image.width image))) = h ->
  (1 <= w)%Z -> (1 <= h)%Z ->
  exists rows grid ctx,
    convertImageToASCII image options
    = Normal (Result.make (text_of rows)
                          (if Options.isColorMode options then Some grid else None)
                          ctx)
    /\ length rows = Z.to_nat h /\ Forall (row_ok set (Z.to_nat w)) rows
    /\ length grid = Z.to_nat h
    /\ Forall (fun cells => length cells = Z.to_nat w) grid.
Proof.
  intros OK P Pal Ew Eh Hw Hh. unfold convertImageToASCII. cbv zeta.
  rewrite P, Ew, Eh.
  destruct (adjusted_canvas image w h (Options.brightness options)
              (Options.contrast options) OK Hw Hh) as (ctx & E & G & L & F).
  rewrite E. cbn [bind]. rewrite G. cbn [bind].
  assert (Pal' : Options.isColorMode options = true ->
                 property colorPalettes
                   match Options.colorPalette options with
                   | Some key => key
                   | None => "original"
                   end <> Inherited).
  { intros CM. destruct (Options.colorPalette options) as [key|] eqn:K.
    - now apply Pal.
    - discriminate. }
  destruct (convert_rows_ok _ set (Options.isColorMode options)
              (Options.isInverted options) _ (pixels ctx)
              (Z.to_nat w) (Z.to_nat h) P Pal' F L (Z.to_nat h) 0 [] [])
    as (rows & grid & Lr & Fr & Lg & Fg & E'); [lia|].
  rewrite E'. cbn [bind app].
  exists rows, grid, ctx. repeat split; auto.
  destruct (Options.isColorMode options); reflexivity.
Qed.

(** A canvas without pixels: [getImageData] throws. *)
Lemma convert_no_pixels image options :
  canvas_dimension 300 (Options.outputWidth options) = 0%Z
  \/ canvas_dimension 150
       (JS.Math_floor (Image.height image
                       * (Options.outputWidth options / Image.width image))) = 0%Z ->
  convertImageToASCII image options = Throw IndexSizeError.
Proof.
  intros Z0. unfold convertImageToASCII. cbv zeta.
  set (w := canvas_dimension 300 _) in *.
  set (h := canvas_dimension 150 _) in *.
  assert (G : forall ctx, getImageData ctx w h = Throw IndexSizeError).
  { intros ctx. unfold getImageData.
    destruct Z0 as [-> | ->]; cbn; [reflexivity|].
    now rewrite orb_true_r. }
  destruct (_ || _)%bool.
  - unfold applyBrightnessContrast. now rewrite G.
  - cbn [bind]. now rewrite G.
Qed.

(** An unknown character-set key on a canvas with pixels: reading
    [selectedCharSet.length] throws at the first pixel. *)
Lemma convert_unknown_set image options w h :
  property charSets (Options.charSetKey options) = Undefined ->
  canvas_dimension 300 (Options.outputWidth options) = w ->
  canvas_dimension 150
    (JS.Math_floor (Image.height image
                    * (Options.outputWidth options / Image.width image))) = h ->
  (1 <= w)%Z -> (1 <= h)%Z ->
  convertImageToASCII image options = Throw TypeError.
Proof.
  intros P Ew Eh Hw Hh. unfold convertImageToASCII. cbv zeta.
  rewrite P, Ew, Eh.
  assert (G : forall data, getImageData (mkCanvas w h data) w h = Normal data).
  { intros data. unfold getImageData. cbn.
    destruct (Z.eqb_spec w 0); [lia|]. destruct (Z.eqb_spec h 0); [lia|].
    now rewrite !Z.eqb_refl. }
  assert (T : forall data,
            (data' <- getImageData (mkCanvas w h data) w h ;;
             '(ascii, colorData) <- for_loop (Z.to_nat h) 0
                 (convert_row Undefined (Options.isColorMode options)
                    (Options.isInverted options)
                    match Options.colorPalette options with
                    | Some key => key
                    | None => "original"
                    end data' (Z.to_nat w)) ([], []) ;;
             Normal (Result.make ascii
                       (if Options.isColorMode options then Some colorData else None)
                       (mkCanvas w h data)))%js = Throw TypeError).
  { intros data. rewrite G. cbn [bind].
    destruct (Z.to_nat h) as [|n] eqn:Nh; [lia|].
    destruct (Z.to_nat w) as [|m] eqn:Nw; [lia|].
    reflexivity. }
  destruct (_ || _)%bool.
  - unfold applyBrightnessContrast, drawImage. rewrite G. cbn [bind].
    unfold putImageData. cbn [canvas_width canvas_height]. apply T.
  - cbn [bind]. apply T.
Qed.

(** ** Degenerate sizes *)

Lemma no_pixels_dimension default x :
  no_pixels x -> canvas_dimension default (JS.Math_floor x) = 0%Z.
Proof.
  unfold no_pixels, canvas_dimension, JS.ToUint32, JS.Math_floor.
  destruct (Prim2SF x) as [s|s| |s m e] eqn:E; try tauto; now rewrite E.
Qed.

Lemma zero_cases x : (x =? 0) = true -> exists s, Prim2SF x = S754_zero s.
Proof.
  rewrite eqb_spec. change (Prim2SF 0) with (S754_zero false).
  destruct (Prim2SF x) as [s|s| |s m e]; cbn; try discriminate; eauto.
  all: destruct s; discriminate.
Qed.

Lemma zero_dimension default x : (x =? 0) = true -> canvas_dimension default x = 0%Z.
Proof.
  intros H. destruct (zero_cases x H) as [s E].
  unfold canvas_dimension, JS.ToUint32. now rewrite E.
Qed.

(** [0 * y] is a zero or NaN. *)
Lemma mul_zero_no_pixels x y : (x =? 0) = true -> no_pixels (x * y).
Proof.
  intros H. destruct (zero_cases x H) as [s E]. unfold no_pixels.
  rewrite mul_spec, E. unfold SF64mul, SFmul.
  destruct (Prim2SF y); cbn; auto.
Qed.

(** [x / 0] is an infinity or NaN, and so is any product with it. *)
Lemma div_zero_unbounded x y : (y =? 0) = true -> unbounded (x / y).
Proof.
  intros H. destruct (zero_cases y H) as [s E]. unfold unbounded.
  rewrite div_spec, E. unfold SF64div, SFdiv.
  destruct (Prim2SF x); cbn; auto.
Qed.

Lemma mul_unbounded_no_pixels x y : unbounded y -> no_pixels (x * y).
Proof.
  unfold no_pixels, unbounded. rewrite mul_spec. unfold SF64mul, SFmul.
  destruct (Prim2SF y); try tauto; destruct (Prim2SF x); cbn; auto.
Qed.

(** ** Palette fallback *)

Lemma convert_pixel_fallback selectedCharSet isColorMode isInverted key data W y x st :
  property colorPalettes key = Undefined ->
  convert_pixel selectedCharSet isColorMode isInverted key data W y x st
  = convert_pixel selectedCharSet isColorMode isInverted "original" data W y x st.
Proof.
  intros P. unfold convert_pixel. destruct st as [ascii row].
  rewrite P. reflexivity.
Qed.

Lemma bind_ext {A B} (c : Completion A) (k1 k2 : A -> Completion B) :
  (forall a, k1 a = k2 a) -> bind c k1 = bind c k2.
Proof. intros E. destruct c; cbn; auto. Qed.

Lemma bind_left {A B} (c1 c2 : Completion A) (k : A -> Completion B) :
  c1 = c2 -> bind c1 k = bind c2 k.
Proof. now intros ->. Qed.

Lemma convert_palette_fallback image options key :
  property colorPalettes key = Undefined ->
  convertImageToASCII image (with_palette options (Some key))
  = convertImageToASCII image (with_palette options (Some "original")).
Proof.
  intros P. unfold convertImageToASCII, with_palette. cbn.
  apply bind_ext. intros ctx. apply bind_ext. intros data.
  apply bind_left, for_loop_ext.
  intros y st. unfold convert_row. destruct st as [ascii colorData].
  apply bind_left, for_loop_ext.
  intros x st. now apply convert_pixel_fallback.
Qed.

(** ** Integer brightness

    For an integer brightness the brightened sample is an integer of
    [[0, 255]], which the array stores as it is. *)

Lemma integers_spec lo n z : (lo <= z < lo + Z.of_nat n)%Z -> In z (integers lo n).
Proof.
  intros H. unfold integers. apply in_map_iff.
  exists (Z.to_nat (z - lo)). split; [lia|]. apply in_seq. lia.
Qed.

Lemma all_pairs_sound q l1 l2 :
  all_pairs q l1 l2 = true -> forall a b, In a l1 -> In b l2 -> q a b = true.
Proof.
  unfold all_pairs. intros H a b Ha Hb.
  rewrite forallb_forall in H. specialize (H a Ha).
  rewrite forallb_forall in H. exact (H b Hb).
Qed.

Lemma brightness_facts_all :
  all_pairs brightness_fact (integers (-255) 511) small_integers = true.
Proof. vm_cast_no_check (eq_refl true). Qed.

Lemma extreme_contrast_facts_all : forallb extreme_contrast_fact small_integers = true.
Proof. vm_cast_no_check (eq_refl true). Qed.

Lemma adjust_sample_steps b f v :
  adjust_sample b f v = contrast_step f (brightness_step b v).
Proof. reflexivity. Qed.

Lemma extreme_contrast_at v :
  u8 v ->
  JS.ToUint8Clamp (JS.ofZ v) = v
  /\ contrast_step (contrastFactor 0) v = v
  /\ contrast_step (contrastFactor (-255)) v = 128%Z
  /\ contrast_step (contrastFactor 259) v = (if (v <=? 128)%Z then 0 else 255)%Z.
Proof.
  intros H. pose proof extreme_contrast_facts_all as A.
  rewrite forallb_forall in A. specialize (A v (small_integers_spec v H)).
  unfold extreme_contrast_fact in A.
  apply andb_prop in A. destruct A as [A A4].
  apply andb_prop in A. destruct A as [A A3].
  apply andb_prop in A. destruct A as [A1 A2].
  apply Z.eqb_eq in A1, A2, A3, A4. auto.
Qed.

(** Without contrast a brightness [b] adds [b] to the sample and
    saturates at 0 and 255. *)
Lemma brightness_step_closed b v :
  (-255 <= b <= 255)%Z -> u8 v ->
  brightness_step (JS.ofZ b) v = Z.min 255 (Z.max 0 (v + b)).
Proof.
  intros Hb Hv.
  assert (Ib : In b (integers (-255) 511))
    by (apply integers_spec; change (Z.of_nat 511) with 511%Z; lia).
  pose proof (all_pairs_sound _ _ _ brightness_facts_all b v Ib
                (small_integers_spec v Hv)) as E.
  apply Leibniz.eqb_spec in E. unfold brightness_step. rewrite E.
  apply extreme_contrast_at. unfold u8 in *. lia.
Qed.


(** * The claims *)

(** ** Tonal adjuster *)

(** C9: for every pixel of the buffer and all brightness and contrast
    values, [applyBrightnessContrast] leaves the alpha sample (index
    [4 p + 3]) unchanged, and the buffer keeps its length: only the R, G
    and B samples may be modified. *)
Theorem alpha_untouched ctx width height brightness contrast ctx' p :
  applyBrightnessContrast ctx width height brightness contrast = Normal ctx' ->
  nth_error (pixels ctx') (4 * p + 3) = nth_error (pixels ctx) (4 * p + 3)
  /\ length (pixels ctx') = length (pixels ctx).
Proof.
  intros E. apply applyBrightnessContrast_pixels in E. rewrite E.
  split.
  - apply adjust_data_alpha.
  - apply adjust_data_length.
Qed.


(** C8: with brightness 0 and contrast 0 the contrast factor is exactly 1
    and the adjustment is the identity on every 8-bit sample, so running
    the adjuster on the freshly drawn canvas hands the converter the very
    samples it reads when the adjuster is skipped. *)
Theorem zero_adjustment_is_identity image w h v :
  canvas_ok image -> (0 <= w)%Z -> (0 <= h)%Z -> u8 v ->
  contrastFactor 0 = 1
  /\ (clamp (1 * (clamp (JS.ofZ v + 0) - 128) + 128) =? JS.ofZ v) = true
  /\ adjust_sample 0 (contrastFactor 0) v = v
  /\ adjust_data 0 0 (Image.drawn image w h) = Image.drawn image w h
  /\ (ctx <- applyBrightnessContrast (drawImage image w h) w h 0 0 ;;
      getImageData ctx w h)%js
     = getImageData (drawImage image w h) w h.
Proof.
  intros OK Hw Hh Hv.
  assert (S : forall v, u8 v ->
            (clamp (1 * (clamp (JS.ofZ v + 0) - 128) + 128) =? JS.ofZ v) = true
            /\ adjust_sample 0 (contrastFactor 0) v = v).
  { intros u Hu.
    assert (A : forallb (fun u =>
                  (clamp (1 * (clamp (JS.ofZ u + 0) - 128) + 128) =? JS.ofZ u)
                  && (adjust_sample 0 (contrastFactor 0) u =? u)%Z)
                small_integers = true) by (vm_compute; reflexivity).
    rewrite forallb_forall in A. specialize (A u (small_integers_spec u Hu)).
    apply andb_prop in A. destruct A as [A1 A2]. apply Z.eqb_eq in A2. auto. }
  assert (D : forall data, Forall u8 data -> adjust_data 0 0 data = data).
  { intros data F. apply nth_error_ext. intros j.
    unfold adjust_data. rewrite adjust_loop_nth by lia.
    destruct (_ && _)%bool; [|reflexivity].
    destruct (nth_error data j) as [u|] eqn:E; [|reflexivity].
    cbn. f_equal. apply S.
    rewrite Forall_forall in F. eapply F, nth_error_In, E. }
  destruct (OK w h Hw Hh) as [_ F].
  split; [reflexivity|]. split; [apply S, Hv|]. split; [apply S, Hv|].
  split; [apply D, F|].
  unfold applyBrightnessContrast, getImageData, drawImage, putImageData. cbn.
  destruct (_ || _)%bool; [reflexivity|].
  rewrite !Z.eqb_refl. cbn. rewrite !Z.eqb_refl. cbn.
  rewrite D by exact F. reflexivity.
Qed.

(** C6, as the code has it: at contrast = -255 the denominator
    [255 * (259 - contrast)] is 131070 and the numerator is 0, so the
    factor is 0 and nothing is divided by zero; among the integer
    contrasts of [-1000, 1000] the denominator is zero exactly at
    contrast = 259, where the factor evaluates to Infinity. *)
Theorem contrast_denominator_zero_at_259 (contrast : Z) :
  (-1000 <= contrast <= 1000)%Z ->
  ((contrastDenominator (JS.ofZ contrast) =? 0) = true <-> contrast = 259%Z)
  /\ contrastDenominator (-255) = 131070
  /\ contrastFactor (-255) = 0
  /\ contrastFactor 259 = infinity.
Proof.
  intros H.
  assert (A : forallb (fun n =>
                let c := (Z.of_nat n - 1000)%Z in
                Bool.eqb (contrastDenominator (JS.ofZ c) =? 0) (c =? 259)%Z)
              (seq 0 2001) = true) by (vm_compute; reflexivity).
  rewrite forallb_forall in A.
  specialize (A (Z.to_nat (contrast + 1000))).
  cbv zeta in A.
  replace (Z.of_nat (Z.to_nat (contrast + 1000)) - 1000)%Z with contrast in A by lia.
  assert (I : In (Z.to_nat (contrast + 1000)) (seq 0 2001)) by (apply in_seq; lia).
  apply A in I. apply Bool.eqb_prop in I. rewrite I.
  repeat split; try reflexivity.
  - apply Z.eqb_eq.
  - intros ->. reflexivity.
Qed.

(** ** Glyph mapper *)

(** C2: for every built-in character set of length N, every pixel with
    R, G, B in [0, 255] and either setting of invert, the character index
    the mapper computes is an integer in [0, N - 1], so the lookup
    [selectedCharSet[charIndex]] finds a glyph of the set although the
    index is not clamped. *)
Theorem charIndex_in_bounds key selectedCharSet R G B isInverted :
  property charSets key = Own selectedCharSet ->
  u8 R -> u8 G -> u8 B ->
  let index := charIndex selectedCharSet isInverted (JS.ofZ R) (JS.ofZ G) (JS.ofZ B) in
  exists n glyph,
    JS.toZ index = Some n
    /\ (0 <= n <= Z.of_nat (length selectedCharSet) - 1)%Z
    /\ array_get selectedCharSet index = Some glyph
    /\ nth_error selectedCharSet (Z.to_nat n) = Some glyph.
Proof.
  intros P HR HG HB index.
  destruct (charIndex_range key selectedCharSet R G B isInverted P HR HG HB)
    as (n & Hn & E).
  fold index in E.
  destruct (nth_error selectedCharSet (Z.to_nat n)) as [glyph|] eqn:N.
  - exists n, glyph. repeat split; try lia; auto.
    now rewrite (array_get_integer _ _ _ E) by lia.
  - apply nth_error_None in N. lia.
Qed.

(** C7: for each of the eight built-in palette functions and all integers
    r, g, b in [0, 255], every channel of the returned colour is an
    integer in [0, 255]. *)
Theorem palettes_stay_8bit key palette R G B :
  property colorPalettes key = Own palette ->
  u8 R -> u8 G -> u8 B ->
  let color := palette (JS.ofZ R) (JS.ofZ G) (JS.ofZ B) in
  (exists n, u8 n /\ JS.toZ (RGB.r color) = Some n)
  /\ (exists n, u8 n /\ JS.toZ (RGB.g color) = Some n)
  /\ (exists n, u8 n /\ JS.toZ (RGB.b color) = Some n).
Proof.
  intros P HR HG HB. apply property_own in P.
  pose proof (all_luminances_sound _ _ palette_facts_all _ _ _
                (sample_in R HR) (sample_in G HG) (sample_in B HB)) as F.
  unfold palette_facts in F.
  set (L := luminance _ _ _) in *.
  repeat (apply within_true in F;
          let H := fresh "F" in destruct F as [H F]).
  assert (zero : exists n, u8 n /\ JS.toZ 0 = Some n)
    by (exists 0%Z; split; [unfold u8; lia|reflexivity]).
  assert (floor : forall x, (0 <=? x) = true /\ (x <? 256) = true ->
            exists n, u8 n /\ JS.toZ (JS.Math_floor x) = Some n).
  { intros x Hx.
    assert (Q : exists n, (0 <= n < 256)%Z /\ JS.toZ (JS.Math_floor x) = Some n)
      by floor_below 256 256%Z.
    destruct Q as (n & Hn & E). exists n. split; [unfold u8; lia|exact E]. }
  assert (same : forall v, u8 v -> exists n, u8 n /\ JS.toZ (JS.ofZ v) = Some n)
    by (intros v Hv; exists v; split; [exact Hv|now apply toZ_ofZ]).
  cbn in P.
  destruct P as [P|[P|[P|[P|[P|[P|[P|[P|[]]]]]]]]]; injection P as <- <-;
    cbv zeta;
    unfold palette_original, palette_matrix, palette_amber, palette_cyan,
      palette_fire, palette_ice, palette_purple, palette_grayscale;
    cbn [RGB.r RGB.g RGB.b];
    fold (luminance (JS.ofZ R) (JS.ofZ G) (JS.ofZ B)); fold L;
    repeat split; auto.
Qed.

(** C1, as the code has it: let [h] be the target height
    [Math.floor(image.height * (outputWidth / image.width))], evaluated in
    double arithmetic as the code does.  For an integer outputWidth OW in
    [1, 2^31 - 1], a built-in character set and a palette key that is not
    the name of an inherited property, the converter returns a grid with
    exactly [h] rows and exactly OW columns in every row whenever [h] is
    an integer in [1, 2^31 - 1].  No minimum of one row is enforced: when
    [h] is 0 the canvas has no pixels, [getImageData] throws
    [IndexSizeError] and no grid is returned. *)
Theorem grid_shape image options selectedCharSet OW h :
  canvas_ok image ->
  property charSets (Options.charSetKey options) = Own selectedCharSet ->
  (Options.isColorMode options = true -> forall key,
     Options.colorPalette options = Some key ->
     property colorPalettes key <> Inherited) ->
  JS.toZ (Options.outputWidth options) = Some OW ->
  (1 <= OW <= 2147483647)%Z ->
  JS.toZ (JS.Math_floor (Image.height image
                         * (Options.outputWidth options / Image.width image)))
  = Some h ->
  (0 <= h <= 2147483647)%Z ->
  (h = 0%Z -> convertImageToASCII image options = Throw IndexSizeError)
  /\ ((1 <= h)%Z ->
      exists result rows,
        convertImageToASCII image options = Normal result
        /\ split_lines (Result.ascii result) = rows ++ [[]]
        /\ length rows = Z.to_nat h
        /\ Forall (fun row => length row = Z.to_nat OW) rows
        /\ match Result.colorData result with
           | Some grid =>
               Options.isColorMode options = true
               /\ length grid = Z.to_nat h
               /\ Forall (fun cells => length cells = Z.to_nat OW) grid
           | None => Options.isColorMode options = false
           end).
Proof.
  intros OK P Pal EW HW Eh Hh.
  pose proof (canvas_dimension_integer 300 _ _ EW ltac:(lia)) as Dw.
  pose proof (canvas_dimension_integer 150 _ _ Eh Hh) as Dh.
  split.
  - intros ->. apply convert_no_pixels. now right.
  - intros H1.
    destruct (convert_normal image options selectedCharSet OW h OK P Pal Dw Dh)
      as (rows & grid & ctx & E & Lr & Fr & Lg & Fg); [lia|lia|].
    exists (Result.make (text_of rows)
              (if Options.isColorMode options then Some grid else None) ctx), rows.
    split; [exact E|]. cbn [Result.ascii Result.colorData].
    split; [eapply split_text; eauto|].
    split; [exact Lr|].
    split.
    + eapply Forall_impl; [|exact Fr]. now intros row [L _].
    + destruct (Options.isColorMode options); auto.
Qed.

(** C5, as the code has it: the converter validates nothing and has no
    InvalidInput error.  It throws synchronously, returning no grid, an
    [IndexSizeError] (from [getImageData] on a canvas without pixels) when
    outputWidth is 0 or the image has zero width or zero height, and a
    [TypeError] when the character-set key is unknown and the canvas has at
    least one pixel.  An unknown colour-palette key is not an error: the
    palette falls back to [original], and the conversion returns what it
    returns for the key ["original"]. *)
Theorem conversion_failures image options :
  let outputWidth := Options.outputWidth options in
  let width := canvas_dimension 300 outputWidth in
  let height :=
    canvas_dimension 150
      (JS.Math_floor (Image.height image * (outputWidth / Image.width image))) in
  ((outputWidth =? 0) = true \/ (Image.width image =? 0) = true
   \/ (Image.height image =? 0) = true ->
   convertImageToASCII image options = Throw IndexSizeError)
  /\ (property charSets (Options.charSetKey options) = Undefined ->
      (1 <= width)%Z -> (1 <= height)%Z ->
      convertImageToASCII image options = Throw TypeError)
  /\ (forall key, property colorPalettes key = Undefined ->
      convertImageToASCII image (with_palette options (Some key))
      = convertImageToASCII image (with_palette options (Some "original"))).
Proof.
  cbv zeta. split; [|split].
  - intros [Z0|[Z0|Z0]]; apply convert_no_pixels.
    + left. now apply zero_dimension.
    + right. apply no_pixels_dimension, mul_unbounded_no_pixels.
      now apply div_zero_unbounded.
    + right. apply no_pixels_dimension. now apply mul_zero_no_pixels.
  - intros P Hw Hh. eapply convert_unknown_set; eauto.
  - intros key P. now apply convert_palette_fallback.
Qed.

(** C10: in monochrome mode the result does not depend on the colorPalette
    option: two runs that differ only in the palette key give the same
    completion, hence the same ascii text, and a returned result has
    [colorData = null]. *)
Theorem monochrome_ignores_palette image options palette1 palette2 :
  Options.isColorMode options = false ->
  convertImageToASCII image (with_palette options palette1)
  = convertImageToASCII image (with_palette options palette2)
  /\ (forall result,
        convertImageToASCII image (with_palette options palette1) = Normal result ->
        Result.colorData result = None).
Proof.
  intros M. split.
  - unfold convertImageToASCII, with_palette. cbn. rewrite M.
    apply bind_ext. intros ctx. apply bind_ext. intros data.
    apply bind_left, for_loop_ext. intros y [ascii colorData].
    unfold convert_row. apply bind_left, for_loop_ext. intros x [ascii' row].
    unfold convert_pixel. reflexivity.
  - intros result E.
    unfold convertImageToASCII, with_palette in E. cbn in E. rewrite M in E.
    apply bind_normal in E. destruct E as (ctx & _ & E).
    apply bind_normal in E. destruct E as (data & _ & E).
    apply bind_normal in E. destruct E as ([ascii colorData] & _ & E).
    injection E as <-. reflexivity.
Qed.

(** ** Raster exporter *)

(** C4, as the code has it: for a 1x1 glyph grid (one line holding one
    glyph) the exporter does not throw and returns a bitmap whose larger
    side, the height, is exactly 600; the width keeps the natural aspect
    ratio 106 : 110 and is [Math.round(600 * (106 / 110)) = 578], below
    600.  The font size is 12. *)
Theorem png_size_of_single_glyph glyph colorMode rows :
  String.eqb glyph LF = false ->
  exists png,
    handleSavePng [glyph] colorMode rows = Normal (Some png)
    /\ Png.width png = 578%Z /\ Png.height png = 600%Z
    /\ Png.fontSize png = 12.
Proof.
  intros G. unfold handleSavePng. cbn [split_lines]. rewrite G.
  cbn [length map].
  eexists. split; [vm_compute; reflexivity|]. cbn. auto.
Qed.

(** * Further properties *)

(** ** The order of doubles *)

Lemma SFcompare_antisym x y :
  SFcompare y x = option_map CompOpp (SFcompare x y).
Proof.
  destruct x as [[]|[]| |[] m e], y as [[]|[]| |[] m' e']; cbn; auto;
    rewrite (Z.compare_antisym e e'); destruct (e ?= e')%Z; cbn; auto;
    pose proof (Pos.compare_cont_antisym m m' Eq) as A; cbn in A;
    rewrite <- A; destruct (Pos.compare_cont Eq m m'); reflexivity.
Qed.

Lemma SFcompare_defined x y :
  x <> S754_nan -> y <> S754_nan -> exists c, SFcompare x y = Some c.
Proof.
  destruct x as [[]|[]| |[] m e], y as [[]|[]| |[] m' e']; cbn; eauto;
    congruence.
Qed.

Lemma is_nan_false x : is_nan x = false -> Prim2SF x <> S754_nan.
Proof.
  unfold is_nan. rewrite eqb_spec. intros H E. rewrite E in H. discriminate.
Qed.

Lemma ltb_leb x y : (x <? y) = true -> (x <=? y) = true.
Proof.
  rewrite ltb_spec, leb_spec. unfold SFltb, SFleb.
  destruct (SFcompare _ _) as [[]|]; auto.
Qed.

(** Of two Numbers that are not NaN, one is below or equal to the other. *)
Lemma not_ltb_leb x y :
  is_nan x = false -> is_nan y = false -> (x <? y) = false -> (y <=? x) = true.
Proof.
  intros Nx Ny. apply is_nan_false in Nx, Ny.
  rewrite ltb_spec, leb_spec. unfold SFltb, SFleb.
  rewrite (SFcompare_antisym (Prim2SF x) (Prim2SF y)).
  destruct (SFcompare_defined _ _ Nx Ny) as [c ->]. destruct c; cbn; auto.
Qed.

Lemma leb_refl x : is_nan x = false -> (x <=? x) = true.
Proof.
  intros N. apply not_ltb_leb; auto.
  rewrite ltb_spec. unfold SFltb.
  pose proof (SFcompare_antisym (Prim2SF x) (Prim2SF x)) as A.
  destruct (SFcompare _ _) as [[]|]; auto; discriminate.
Qed.

(** [Math.min] and [Math.max] of two Numbers that are not NaN pick one of
    them, below (above) or equal to both. *)
Lemma Math_min_spec a b :
  is_nan a = false -> is_nan b = false ->
  (JS.Math_min a b = a \/ JS.Math_min a b = b)
  /\ (JS.Math_min a b <=? a) = true /\ (JS.Math_min a b <=? b) = true.
Proof.
  intros Na Nb. unfold JS.Math_min. rewrite Na, Nb. cbn [orb].
  destruct (a <? b) eqn:L1.
  - split; [auto|]. split; [now apply leb_refl|now apply ltb_leb].
  - destruct (b <? a) eqn:L2.
    + split; [auto|]. split; [now apply ltb_leb|now apply leb_refl].
    + destruct (get_sign a).
      * split; [auto|]. split; [now apply leb_refl|now apply not_ltb_leb].
      * split; [auto|]. split; [now apply not_ltb_leb|now apply leb_refl].
Qed.

Lemma Math_max_spec a b :
  is_nan a = false -> is_nan b = false ->
  (JS.Math_max a b = a \/ JS.Math_max a b = b)
  /\ (a <=? JS.Math_max a b) = true /\ (b <=? JS.Math_max a b) = true.
Proof.
  intros Na Nb. unfold JS.Math_max. rewrite Na, Nb. cbn [orb].
  destruct (a <? b) eqn:L1.
  - split; [auto|]. split; [now apply ltb_leb|now apply leb_refl].
  - destruct (b <? a) eqn:L2.
    + split; [auto|]. split; [now apply leb_refl|now apply ltb_leb].
    + destruct (get_sign a).
      * split; [auto|]. split; [now apply not_ltb_leb|now apply leb_refl].
      * split; [auto|]. split; [now apply leb_refl|now apply not_ltb_leb].
Qed.

Lemma Math_min_nan a b : is_nan b = true -> JS.Math_min a b = nan.
Proof. intros N. unfold JS.Math_min. rewrite N, orb_true_r. reflexivity. Qed.

(** X1: [clamp] returns a Number of [[0, 255]] for every argument that
    is not NaN: the argument itself, 0 or 255.  NaN is returned as NaN,
    not clamped.  Clamping twice is clamping once. *)
Theorem clamp_bounds value :
  (is_nan value = false ->
     (0 <=? clamp value) = true /\ (clamp value <=? 255) = true
     /\ (clamp value = value \/ clamp value = 0 \/ clamp value = 255))
  /\ (is_nan value = true -> is_nan (clamp value) = true)
  /\ clamp (clamp value) = clamp value.
Proof.
  assert (R : is_nan value = false ->
     (0 <=? clamp value) = true /\ (clamp value <=? 255) = true
     /\ (clamp value = value \/ clamp value = 0 \/ clamp value = 255)).
  { intros N. unfold clamp.
    destruct (Math_min_spec 255 value eq_refl N) as (Cm & Um & _).
    assert (Nm : is_nan (JS.Math_min 255 value) = false)
      by (destruct Cm as [-> | ->]; auto).
    destruct (Math_max_spec 0 (JS.Math_min 255 value) eq_refl Nm) as (CM & LM & _).
    split; [exact LM|]. split.
    - destruct CM as [-> | ->]; [reflexivity|exact Um].
    - destruct CM as [-> | ->]; [auto|]. destruct Cm as [-> | ->]; auto. }
  assert (Nn : is_nan value = true -> clamp value = nan).
  { intros N. unfold clamp. rewrite Math_min_nan by exact N. reflexivity. }
  split; [exact R|]. split.
  - intros N. rewrite Nn by exact N. reflexivity.
  - destruct (is_nan value) eqn:N.
    + rewrite Nn by reflexivity. reflexivity.
    + destruct (R eq_refl) as (_ & _ & [E|[E|E]]); rewrite E;
        [exact E|reflexivity|reflexivity].
Qed.

(** ** Storing into a [Uint8ClampedArray] is monotone *)

Lemma round_half_even_spec m d :
  (0 < d)%Z ->
  let n := round_half_even m d in
  (2 * n * d - d <= 2 * m <= 2 * n * d + d)%Z
  /\ ((2 * m = 2 * n * d + d)%Z -> Z.even n = true)
  /\ ((2 * m = 2 * n * d - d)%Z -> Z.even n = true).
Proof.
  intros Hd. unfold round_half_even.
  pose proof (Z.div_mod m d ltac:(lia)) as E.
  pose proof (Z.mod_pos_bound m d Hd) as B.
  set (f := (m / d)%Z) in *. set (r := (m mod d)%Z) in *. cbv zeta.
  destruct (Z.ltb_spec (2 * r) d) as [L|L].
  - repeat split; try nia.
  - destruct (Z.ltb_spec d (2 * r)) as [G|G].
    + repeat split; try nia.
    + destruct (Z.even f) eqn:Ev.
      * repeat split; try nia. intros _. exact Ev.
      * repeat split; try nia. intros _.
        rewrite Z.add_1_r, Z.even_succ, <- Z.negb_even, Ev. reflexivity.
Qed.

Lemma round_half_even_mono m1 d1 m2 d2 :
  (0 < d1)%Z -> (0 < d2)%Z -> (m1 * d2 <= m2 * d1)%Z ->
  (round_half_even m1 d1 <= round_half_even m2 d2)%Z.
Proof.
  intros H1 H2 L.
  destruct (round_half_even_spec m1 d1 H1) as ((A1 & _) & _ & T1).
  destruct (round_half_even_spec m2 d2 H2) as ((_ & A2) & T2 & _).
  set (n1 := round_half_even m1 d1) in *. set (n2 := round_half_even m2 d2) in *.
  cbv zeta in *.
  destruct (Z.le_gt_cases n1 n2) as [|G]; [assumption|exfalso].
  assert (P : (0 < d1 * d2)%Z) by nia.
  assert (C1 : ((2 * n1 - 1) * (d1 * d2) <= 2 * m1 * d2)%Z) by nia.
  assert (C2 : (2 * m2 * d1 <= (2 * n2 + 1) * (d1 * d2))%Z) by nia.
  assert (N : (n1 = n2 + 1)%Z) by nia.
  assert (E1 : (2 * m1 = 2 * n1 * d1 - d1)%Z) by nia.
  assert (E2 : (2 * m2 = 2 * n2 * d2 + d2)%Z) by nia.
  apply T1 in E1. apply T2 in E2.
  rewrite N, Z.add_1_r, Z.even_succ, <- Z.negb_even, E2 in E1. discriminate.
Qed.

Lemma round_half_even_integer m : round_half_even m 1 = m.
Proof.
  unfold round_half_even. rewrite Z.div_1_r, Z.mod_1_r. reflexivity.
Qed.

Lemma digits2_pos_le m : (2 ^ (Zpos (digits2_pos m) - 1) <= Zpos m)%Z.
Proof.
  induction m as [m IH|m IH|]; cbn [digits2_pos];
    rewrite ?Pos2Z.inj_succ; try reflexivity;
    replace (Z.succ (Zpos (digits2_pos m)) - 1)%Z
      with (Z.succ (Zpos (digits2_pos m) - 1)) by lia;
    rewrite Z.pow_succ_r by lia; lia.
Qed.

(** Above the smallest exponent the mantissa of a double is normal. *)
Lemma normal_mantissa x s m e :
  Prim2SF x = S754_finite s m e -> (-1074 < e)%Z -> (2 ^ 52 <= Zpos m)%Z.
Proof.
  intros E He. pose proof (Prim2SF_valid x) as V. rewrite E in V.
  unfold valid_binary, bounded, canonical_mantissa, fexp in V.
  apply andb_prop in V. destruct V as [V _]. apply Z.eqb_eq in V.
  pose proof (digits2_pos_le m) as D.
  change (SpecFloat.emin prec emax) with (-1074)%Z in V. unfold prec in V.
  assert (Zpos (digits2_pos m) = 53)%Z as D53 by lia.
  rewrite D53 in D. exact D.
Qed.

Lemma denominator_pos e : (0 < denominator e)%Z.
Proof.
  unfold denominator. destruct (Z.leb_spec 0 e); [lia|].
  apply Z.pow_pos_nonneg; lia.
Qed.

Lemma fraction_le m e m' e' :
  (e <= e')%Z -> (e = e' -> (Zpos m <= Zpos m')%Z) ->
  ((e < e')%Z -> (Zpos m <= 2 * Zpos m')%Z) ->
  (numerator m e * denominator e' <= numerator m' e' * denominator e)%Z.
Proof.
  intros Le Eq Lt. unfold numerator, denominator.
  destruct (Z.eq_dec e e') as [<-|Ne].
  - specialize (Eq eq_refl). destruct (Z.leb_spec 0 e).
    + pose proof (Z.pow_nonneg 2 e). nia.
    + pose proof (Z.pow_nonneg 2 (- e)). nia.
  - assert (Hlt : (e < e')%Z) by lia. specialize (Lt Hlt).
    assert (K : (2 <= 2 ^ (e' - e))%Z).
    { change 2%Z with (2 ^ 1)%Z at 1. apply Z.pow_le_mono_r; lia. }
    destruct (Z.leb_spec 0 e), (Z.leb_spec 0 e'); try lia.
    + replace (2 ^ e')%Z with (2 ^ e * 2 ^ (e' - e))%Z
        by (rewrite <- Z.pow_add_r by lia; f_equal; lia).
      pose proof (Z.pow_nonneg 2 e).
      assert (Zpos m * 2 ^ e <= 2 * Zpos m' * 2 ^ e)%Z by nia.
      assert (2 * (Zpos m' * 2 ^ e) <= 2 ^ (e' - e) * (Zpos m' * 2 ^ e))%Z by nia.
      lia.
    + assert (0 < 2 ^ e')%Z by (apply Z.pow_pos_nonneg; lia).
      assert (2 ^ 1 <= 2 ^ (- e))%Z by (apply Z.pow_le_mono_r; lia).
      change (2 ^ 1)%Z with 2%Z in *.
      assert (Zpos m' * 1 <= Zpos m' * 2 ^ e')%Z by nia.
      assert (Zpos m' * 2 ^ e' * 2 <= Zpos m' * 2 ^ e' * 2 ^ (- e))%Z by nia.
      lia.
    + replace (2 ^ (- e))%Z with (2 ^ (e' - e) * 2 ^ (- e'))%Z
        by (rewrite <- Z.pow_add_r by lia; f_equal; lia).
      pose proof (Z.pow_nonneg 2 (- e')).
      assert (Zpos m * 2 ^ (- e') <= 2 * Zpos m' * 2 ^ (- e'))%Z by nia.
      assert (2 * (Zpos m' * 2 ^ (- e')) <= 2 ^ (e' - e) * (Zpos m' * 2 ^ (- e')))%Z by nia.
      lia.
Qed.

Lemma ToUint8Clamp_finite x m e :
  Prim2SF x = S754_finite false m e ->
  JS.ToUint8Clamp x = Z.min 255 (round_half_even (numerator m e) (denominator e)).
Proof.
  intros E. unfold JS.ToUint8Clamp, numerator, denominator. rewrite E.
  destruct (0 <=? e)%Z; [now rewrite round_half_even_integer|reflexivity].
Qed.

Lemma ToUint8Clamp_mono x y :
  (x <=? y) = true -> (JS.ToUint8Clamp x <= JS.ToUint8Clamp y)%Z.
Proof.
  rewrite leb_spec. intros L.
  pose proof (ToUint8Clamp_range x) as Rx. pose proof (ToUint8Clamp_range y) as Ry.
  unfold u8 in *.
  destruct (Prim2SF x) as [s|s| |s m e] eqn:Ex.
  - unfold JS.ToUint8Clamp at 1. rewrite Ex. lia.
  - destruct s.
    + unfold JS.ToUint8Clamp at 1. rewrite Ex. lia.
    + destruct (Prim2SF y) as [s'|s'| |s' m' e'] eqn:Ey; try discriminate.
      * destruct s'; [discriminate|].
        unfold JS.ToUint8Clamp. rewrite Ex, Ey. lia.
  - discriminate.
  - destruct s.
    + unfold JS.ToUint8Clamp at 1. rewrite Ex. lia.
    + destruct (Prim2SF y) as [s'|s'| |s' m' e'] eqn:Ey; try discriminate.
      * destruct s'; [discriminate|].
        unfold JS.ToUint8Clamp at 2. rewrite Ey. lia.
      * destruct s'; [discriminate|].
        rewrite (ToUint8Clamp_finite x m e Ex), (ToUint8Clamp_finite y m' e' Ey).
        apply Z.min_le_compat_l.
        apply round_half_even_mono; try apply denominator_pos.
        cbn in L.
        pose proof (mantissa_bound _ _ _ _ Ex) as Bm.
        apply fraction_le.
        -- destruct (Z.compare_spec e e'); try lia; discriminate.
        -- intros <-. rewrite Z.compare_refl in L.
           change (Pos.compare_cont Eq m m') with (Pos.compare m m') in L.
           destruct (Pos.compare_spec m m'); try discriminate; lia.
        -- intros Hlt.
           assert (N : (2 ^ 52 <= Zpos m')%Z).
           { apply (normal_mantissa y false m' e' Ey).
             pose proof (Prim2SF_valid x) as V. rewrite Ex in V.
             unfold valid_binary, bounded, canonical_mantissa, fexp in V.
             apply andb_prop in V. destruct V as [V _]. apply Z.eqb_eq in V.
             change (SpecFloat.emin prec emax) with (-1074)%Z in V. lia. }
           change (2 ^ 53)%Z with (2 * 2 ^ 52)%Z in Bm. lia.
Qed.

Lemma contrast_facts_all :
  all_pairs contrast_fact (integers (-255) 514) (integers 0 255) = true.
Proof. vm_cast_no_check (eq_refl true). Qed.

(** ** The tonal curve *)

Lemma contrast_step_next c v :
  (-255 <= c <= 258)%Z -> (0 <= v < 255)%Z ->
  (contrast_step (contrastFactor (JS.ofZ c)) v
   <= contrast_step (contrastFactor (JS.ofZ c)) (v + 1))%Z.
Proof.
  intros Hc Hv.
  assert (Ic : In c (integers (-255) 514))
    by (apply integers_spec; change (Z.of_nat 514) with 514%Z; lia).
  assert (Iv : In v (integers 0 255))
    by (apply integers_spec; change (Z.of_nat 255) with 255%Z; lia).
  apply ToUint8Clamp_mono.
  exact (all_pairs_sound _ _ _ contrast_facts_all c v Ic Iv).
Qed.

Lemma contrast_step_mono c v v' :
  (-255 <= c <= 258)%Z -> u8 v -> u8 v' -> (v <= v')%Z ->
  (contrast_step (contrastFactor (JS.ofZ c)) v
   <= contrast_step (contrastFactor (JS.ofZ c)) v')%Z.
Proof.
  intros Hc Hv Hv' L. unfold u8 in *.
  replace v' with (v + Z.of_nat (Z.to_nat (v' - v)))%Z by lia.
  assert (B : (v + Z.of_nat (Z.to_nat (v' - v)) <= 255)%Z) by lia.
  induction (Z.to_nat (v' - v)) as [|n IH].
  - rewrite Z.add_0_r. lia.
  - etransitivity; [apply IH; lia|].
    replace (v + Z.of_nat (S n))%Z with (v + Z.of_nat n + 1)%Z by lia.
    apply contrast_step_next; lia.
Qed.

Lemma adjust_data_nth b c data j :
  nth_error (adjust_data b c data) j =
  if (j mod 4 =? 3)%nat then nth_error data j
  else option_map (adjust_sample b (contrastFactor c)) (nth_error data j).
Proof.
  unfold adjust_data. rewrite adjust_loop_nth by lia.
  rewrite Nat.sub_0_r. cbn [Nat.leb andb].
  destruct (j mod 4 =? 3)%nat; reflexivity.
Qed.

(** X2: with contrast 0 and an integer brightness [b] of [[-255, 255]],
    the loop of the adjuster leaves [min(255, max(0, v + b))] in the
    buffer for every 8-bit R, G and B sample [v]: brightness is a shift
    that saturates. *)
Theorem brightness_shifts_and_saturates data (b : Z) p k v :
  (-255 <= b <= 255)%Z -> (k < 3)%nat ->
  nth_error data (4 * p + k) = Some v -> u8 v ->
  nth_error (adjust_data (JS.ofZ b) 0 data) (4 * p + k)
  = Some (Z.min 255 (Z.max 0 (v + b))).
Proof.
  intros Hb Hk Hv U.
  rewrite adjust_data_color by exact Hk. rewrite Hv. cbn [option_map].
  rewrite adjust_sample_steps, brightness_step_closed by assumption.
  f_equal. apply extreme_contrast_at. unfold u8. lia.
Qed.

(** X3: for an integer brightness of [[-255, 255]] and an integer
    contrast of [[-255, 258]] the loop of the adjuster never swaps two
    colour samples of the buffer: of two 8-bit R, G or B samples, the one
    that is not brighter before is not brighter after. *)
Theorem tonal_curve_is_monotone data (b c : Z) i j v v' :
  (-255 <= b <= 255)%Z -> (-255 <= c <= 258)%Z ->
  (i mod 4 <> 3)%nat -> (j mod 4 <> 3)%nat ->
  nth_error data i = Some v -> nth_error data j = Some v' ->
  u8 v -> u8 v' -> (v <= v')%Z ->
  exists a a',
    nth_error (adjust_data (JS.ofZ b) (JS.ofZ c) data) i = Some a
    /\ nth_error (adjust_data (JS.ofZ b) (JS.ofZ c) data) j = Some a'
    /\ (a <= a')%Z.
Proof.
  intros Hb Hc Hi Hj Ev Ev' Hv Hv' L.
  rewrite !adjust_data_nth, Ev, Ev'.
  destruct (Nat.eqb_spec (i mod 4) 3) as [|_]; [contradiction|].
  destruct (Nat.eqb_spec (j mod 4) 3) as [|_]; [contradiction|].
  cbn [option_map]. eexists. eexists. split; [reflexivity|]. split; [reflexivity|].
  rewrite !adjust_sample_steps.
  rewrite !brightness_step_closed by assumption.
  apply contrast_step_mono; unfold u8 in *; lia.
Qed.

Lemma pivot_facts_all :
  all_pairs pivot_fact (integers (-255) 514) small_integers = true.
Proof. vm_cast_no_check (eq_refl true). Qed.

Lemma contrast_step_pivot c v :
  (-255 <= c <= 258)%Z -> u8 v ->
  ((0 <= c)%Z ->
   ((128 <= v)%Z -> (v <= contrast_step (contrastFactor (JS.ofZ c)) v)%Z)
   /\ ((v <= 128)%Z -> (contrast_step (contrastFactor (JS.ofZ c)) v <= v)%Z))
  /\ ((c <= 0)%Z ->
      ((128 <= v)%Z -> (128 <= contrast_step (contrastFactor (JS.ofZ c)) v <= v)%Z)
      /\ ((v <= 128)%Z -> (v <= contrast_step (contrastFactor (JS.ofZ c)) v <= 128)%Z)).
Proof.
  intros Hc Hv.
  assert (Ic : In c (integers (-255) 514))
    by (apply integers_spec; change (Z.of_nat 514) with 514%Z; lia).
  pose proof (all_pairs_sound _ _ _ pivot_facts_all c v Ic (small_integers_spec v Hv)) as F.
  unfold pivot_fact in F. cbv zeta in F.
  set (y := clamp _) in F.
  assert (Ev : JS.ToUint8Clamp (JS.ofZ v) = v) by (now apply extreme_contrast_at).
  assert (E128 : JS.ToUint8Clamp 128 = 128%Z) by reflexivity.
  assert (up : forall x, (x <=? y) = true ->
                 (JS.ToUint8Clamp x <= contrast_step (contrastFactor (JS.ofZ c)) v)%Z)
    by (intros x Hx; apply ToUint8Clamp_mono, Hx).
  assert (down : forall x, (y <=? x) = true ->
                   (contrast_step (contrastFactor (JS.ofZ c)) v <= JS.ToUint8Clamp x)%Z)
    by (intros x Hx; apply ToUint8Clamp_mono, Hx).
  apply andb_prop in F. destruct F as [F F4].
  apply andb_prop in F. destruct F as [F F3].
  apply andb_prop in F. destruct F as [F1 F2].
  split; intros C0; (split; intros L).
  - destruct (Z.leb_spec 0 c); [|lia]. destruct (Z.leb_spec 128 v); [|lia].
    pose proof (up _ F1) as U. rewrite Ev in U. exact U.
  - destruct (Z.leb_spec 0 c); [|lia]. destruct (Z.leb_spec v 128); [|lia].
    pose proof (down _ F2) as D. rewrite Ev in D. exact D.
  - destruct (Z.leb_spec c 0); [|lia]. destruct (Z.leb_spec 128 v); [|lia].
    apply andb_prop in F3. destruct F3 as [A B].
    pose proof (up _ A) as U. pose proof (down _ B) as D.
    rewrite E128 in U. rewrite Ev in D. lia.
  - destruct (Z.leb_spec c 0); [|lia]. destruct (Z.leb_spec v 128); [|lia].
    apply andb_prop in F4. destruct F4 as [A B].
    pose proof (up _ A) as U. pose proof (down _ B) as D.
    rewrite Ev in U. rewrite E128 in D. lia.
Qed.

(** X4: in the buffer the loop of the adjuster leaves, contrast alone
    (brightness 0) pivots on 128: for an integer contrast of [[0, 258]] a
    sample of 128 or more does not decrease and a sample of 128 or less
    does not increase; for an integer contrast of [[-255, 0]] every
    sample moves towards 128 without crossing it.  The sample 128 is a
    fixed point. *)
Theorem contrast_pivots_on_128 data (c : Z) p k v :
  (-255 <= c <= 258)%Z -> (k < 3)%nat ->
  nth_error data (4 * p + k) = Some v -> u8 v ->
  exists a,
    nth_error (adjust_data 0 (JS.ofZ c) data) (4 * p + k) = Some a
    /\ ((0 <= c)%Z -> ((128 <= v)%Z -> (v <= a)%Z) /\ ((v <= 128)%Z -> (a <= v)%Z))
    /\ ((c <= 0)%Z ->
        ((128 <= v)%Z -> (128 <= a <= v)%Z) /\ ((v <= 128)%Z -> (v <= a <= 128)%Z)).
Proof.
  intros Hc Hk Ev Hv.
  rewrite adjust_data_color by exact Hk. rewrite Ev. cbn [option_map].
  eexists. split; [reflexivity|].
  rewrite adjust_sample_steps.
  change 0 with (JS.ofZ 0). rewrite brightness_step_closed by (assumption || lia).
  replace (Z.min 255 (Z.max 0 (v + 0))) with v by (unfold u8 in Hv; lia).
  now apply contrast_step_pivot.
Qed.

(** X5: the two ends of the contrast scale in the buffer the loop of the
    adjuster leaves, whatever the brightness.  At contrast -255 the factor
    is 0 and every R, G and B sample becomes 128.  At contrast 259 the
    factor is Infinity and the samples are thresholded: 0 when the
    brightened sample is at most 128 (at 128 the product is NaN, stored
    as 0), 255 above. *)
Theorem extreme_contrasts data brightness p k v :
  (k < 3)%nat ->
  nth_error data (4 * p + k) = Some v ->
  nth_error (adjust_data brightness (-255) data) (4 * p + k) = Some 128%Z
  /\ nth_error (adjust_data brightness 259 data) (4 * p + k)
     = Some (if (brightness_step brightness v <=? 128)%Z then 0 else 255)%Z.
Proof.
  intros Hk Hv.
  pose proof (extreme_contrast_at (brightness_step brightness v)
                (ToUint8Clamp_range _)) as (_ & _ & E1 & E2).
  split; rewrite adjust_data_color by exact Hk; rewrite Hv; cbn [option_map];
    rewrite adjust_sample_steps; f_equal; assumption.
Qed.

(** X6: [applyBrightnessContrast] throws [IndexSizeError] when the width
    or the height it is given is 0, for any brightness and contrast.
    Given the size of a canvas with pixels it returns, for any brightness
    and contrast (NaN and the infinities included), a canvas of the same
    size with as many samples, all 8-bit if they were. *)
Theorem adjuster_outcome ctx width height brightness contrast :
  (width = 0%Z \/ height = 0%Z ->
   applyBrightnessContrast ctx width height brightness contrast = Throw IndexSizeError)
  /\ (width <> 0%Z -> height <> 0%Z ->
      width = canvas_width ctx -> height = canvas_height ctx ->
      exists ctx',
        applyBrightnessContrast ctx width height brightness contrast = Normal ctx'
        /\ canvas_width ctx' = width /\ canvas_height ctx' = height
        /\ length (pixels ctx') = length (pixels ctx)
        /\ (Forall u8 (pixels ctx) -> Forall u8 (pixels ctx'))).
Proof.
  unfold applyBrightnessContrast, getImageData. split.
  - intros [-> | ->]; cbn; [reflexivity|]. now rewrite orb_true_r.
  - intros Hw Hh -> ->.
    destruct (Z.eqb_spec (canvas_width ctx) 0); [contradiction|].
    destruct (Z.eqb_spec (canvas_height ctx) 0); [contradiction|].
    rewrite !Z.eqb_refl. cbn. eexists. split; [reflexivity|]. cbn.
    repeat split; auto using adjust_data_length, adjust_data_u8.
Qed.

(** X7: the adjustment works pixel by pixel: adjusting a buffer made of
    whole pixels followed by more samples adjusts the two parts
    independently, so a pixel's new value depends neither on its position
    nor on the other pixels. *)
Theorem adjustment_is_pixelwise brightness contrast data1 data2 :
  (length data1 mod 4 = 0)%nat ->
  adjust_data brightness contrast (data1 ++ data2)
  = adjust_data brightness contrast data1 ++ adjust_data brightness contrast data2.
Proof.
  intros M. apply nth_error_ext. intros j.
  rewrite adjust_data_nth.
  destruct (Nat.ltb_spec j (length data1)) as [L|L].
  - rewrite !nth_error_app1 by (rewrite ?adjust_data_length; exact L).
    now rewrite adjust_data_nth.
  - rewrite !nth_error_app2 by (rewrite ?adjust_data_length; exact L).
    rewrite adjust_data_nth, adjust_data_length.
    apply Nat.Div0.div_exact in M.
    assert (Ej : (j mod 4 = (j - length data1) mod 4)%nat).
    { replace j with ((j - length data1) + (length data1 / 4) * 4)%nat at 1 by lia.
      apply Nat.Div0.mod_add. }
    rewrite Ej. reflexivity.
Qed.

Lemma extreme_facts_all : all_pixels extreme_facts = true.
Proof. vm_cast_no_check (eq_refl true). Qed.

(** ** The extremes of the glyph ramp *)

Lemma tagged_in v : u8 v -> In (v, JS.ofZ v) tagged_samples.
Proof.
  intros H. unfold tagged_samples.
  apply (in_map (fun v => (v, JS.ofZ v))), small_integers_spec, H.
Qed.

Lemma all_pixels_sound q :
  all_pixels q = true ->
  forall R G B, u8 R -> u8 G -> u8 B ->
    q R G B (luminance (JS.ofZ R) (JS.ofZ G) (JS.ofZ B)) = true.
Proof.
  unfold all_pixels, luminance. intros H R G B HR HG HB.
  rewrite forallb_forall in H. specialize (H _ (tagged_in R HR)). cbv zeta in H.
  rewrite forallb_forall in H. specialize (H _ (tagged_in G HG)). cbv zeta in H.
  rewrite forallb_forall in H. exact (H _ (tagged_in B HB)).
Qed.

Lemma below_true x bound rest :
  below x bound rest = true -> (x <? bound) = true /\ rest = true.
Proof. unfold below. destruct (x <? bound); [auto|discriminate]. Qed.

Lemma ltb_not_eqb x y : (x <? y) = true -> (x =? y) = false.
Proof.
  rewrite ltb_spec, eqb_spec. unfold SFltb, SFeqb.
  destruct (SFcompare _ _) as [[]|]; auto; discriminate.
Qed.

Lemma ltb_not_eqb_sym x y : (x <? y) = true -> (y =? x) = false.
Proof.
  rewrite ltb_spec, eqb_spec. unfold SFltb, SFeqb.
  rewrite (SFcompare_antisym (Prim2SF x) (Prim2SF y)).
  destruct (SFcompare _ _) as [[]|]; cbn; auto; discriminate.
Qed.

Lemma eqb_leb x y : (x =? y) = true -> (x <=? y) = true.
Proof.
  rewrite leb_spec, eqb_spec. unfold SFleb, SFeqb.
  destruct (SFcompare _ _) as [[]|]; auto.
Qed.

Lemma eqb_leb_sym x y : (x =? y) = true -> (y <=? x) = true.
Proof.
  rewrite leb_spec, eqb_spec. unfold SFleb, SFeqb.
  rewrite (SFcompare_antisym (Prim2SF x) (Prim2SF y)).
  destruct (SFcompare _ _) as [[]|]; cbn; auto.
Qed.

(** What [extreme_facts] says of a pixel, case by case. *)
Lemma extreme_cases R G B :
  u8 R -> u8 G -> u8 B ->
  let L := luminance (JS.ofZ R) (JS.ofZ G) (JS.ofZ B) in
  let n := L / 255 in
  ((L <? 255) = true
   /\ (n * 10 <? 10) = true /\ (n * 8 <? 8) = true /\ (n * 5 <? 5) = true
   /\ (n * 3 <? 3) = true /\ (n * 7 <? 7) = true
   \/ (L =? 255) = true /\ R = 255%Z /\ G = 255%Z /\ B = 255%Z)
  /\ ((0 <? L) = true
      /\ ((1 - n) * 10 <? 10) = true /\ ((1 - n) * 8 <? 8) = true
      /\ ((1 - n) * 5 <? 5) = true /\ ((1 - n) * 3 <? 3) = true
      /\ ((1 - n) * 7 <? 7) = true
      \/ (L =? 0) = true /\ R = 0%Z /\ G = 0%Z /\ B = 0%Z).
Proof.
  intros HR HG HB L n.
  pose proof (all_pixels_sound _ extreme_facts_all R G B HR HG HB) as F.
  fold L in F. unfold extreme_facts in F. fold n in F. cbv zeta in F.
  destruct (L <? 255) eqn:L255.
  - repeat (apply below_true in F; let H := fresh "F" in destruct F as [H F]).
    split; [left; auto 10|].
    destruct (0 <? L) eqn:L0.
    + repeat (apply below_true in F; let H := fresh "F" in destruct F as [H F]).
      left. auto 10.
    + right.
      apply andb_prop in F. destruct F as [F B0].
      apply andb_prop in F. destruct F as [F G0].
      apply andb_prop in F. destruct F as [F R0].
      apply Z.eqb_eq in R0, G0, B0. auto.
  - apply andb_prop in F. destruct F as [F B0].
    apply andb_prop in F. destruct F as [F G0].
    apply andb_prop in F. destruct F as [F R0].
    apply Z.eqb_eq in R0, G0, B0.
    split; [right; auto|].
    left. subst R G B. subst n L. vm_compute. auto 10.
Qed.

(** X8: the weighted sum [r * 0.299 + g * 0.587 + b * 0.114] of an
    8-bit pixel, computed in doubles, lies in [[0, 255]]; it is 255 for
    white only and 0 for black only. *)
Theorem luminance_range R G B :
  u8 R -> u8 G -> u8 B ->
  let L := luminance (JS.ofZ R) (JS.ofZ G) (JS.ofZ B) in
  (0 <=? L) = true /\ (L <=? 255) = true
  /\ ((L =? 255) = true <-> R = 255%Z /\ G = 255%Z /\ B = 255%Z)
  /\ ((L =? 0) = true <-> R = 0%Z /\ G = 0%Z /\ B = 0%Z).
Proof.
  intros HR HG HB L.
  destruct (extreme_cases R G B HR HG HB) as [Hi Lo]. fold L in Hi, Lo.
  cbv zeta in Hi, Lo.
  split; [|split; [|split]].
  - destruct Lo as [(P & _)|(E & _)]; [now apply ltb_leb|now apply eqb_leb_sym].
  - destruct Hi as [(P & _)|(E & _)]; [now apply ltb_leb|now apply eqb_leb].
  - destruct Hi as [(P & _)|(E & W)].
    + rewrite (ltb_not_eqb _ _ P). split; [discriminate|].
      intros (-> & -> & ->). subst L. vm_compute in P. discriminate.
    + tauto.
  - destruct Lo as [(P & _)|(E & W)].
    + rewrite (ltb_not_eqb_sym _ _ P). split; [discriminate|].
      intros (-> & -> & ->). subst L. vm_compute in P. discriminate.
    + tauto.
Qed.

(** The index stays below [K] when the scaled brightness does. *)
Ltac index_below E bound K :=
  match type of E with
  | JS.toZ (JS.Math_floor ?x) = Some ?last =>
      let n := fresh "n" in
      let Hn := fresh "Hn" in
      let En := fresh "En" in
      destruct (Math_floor_range x bound K _ _ ltac:(vm_compute; reflexivity)
                  ltac:(reflexivity) ltac:(reflexivity) ltac:(now vm_compute)
                  ltac:(now vm_compute) ltac:(tauto) ltac:(tauto))
        as (n & Hn & En);
      rewrite En in E; injection E as E; cbn in E; lia
  end.

(** The last index of a built-in set is reached by one pixel only. *)
Lemma last_index_extreme key selectedCharSet R G B :
  property charSets key = Own selectedCharSet ->
  u8 R -> u8 G -> u8 B ->
  let last := (Z.of_nat (length selectedCharSet) - 1)%Z in
  (JS.toZ (charIndex selectedCharSet false (JS.ofZ R) (JS.ofZ G) (JS.ofZ B)) = Some last
   <-> R = 255%Z /\ G = 255%Z /\ B = 255%Z)
  /\ (JS.toZ (charIndex selectedCharSet true (JS.ofZ R) (JS.ofZ G) (JS.ofZ B)) = Some last
      <-> R = 0%Z /\ G = 0%Z /\ B = 0%Z).
Proof.
  intros P HR HG HB. apply property_own in P.
  pose proof (all_luminances_sound _ _ index_facts_all _ _ _
                (sample_in R HR) (sample_in G HG) (sample_in B HB)) as F.
  unfold index_facts in F. cbv zeta in F.
  destruct (extreme_cases R G B HR HG HB) as [Hi Lo]. cbv zeta in Hi, Lo.
  unfold charIndex. fold (luminance (JS.ofZ R) (JS.ofZ G) (JS.ofZ B)).
  set (L := luminance _ _ _) in *. cbv zeta.
  repeat (apply within_true in F;
          let H := fresh "F" in destruct F as [H F]).
  cbn in P.
  destruct P as [P|[P|[P|[P|[P|[P|[]]]]]]]; injection P as <- <-;
    cbn [length]; (split; split; [intros E| |intros E|]).
  all: try (intros (-> & -> & ->); subst L; vm_compute; reflexivity).
  all: try (destruct Hi as [Hi|Hi]; [exfalso|tauto]).
  all: try (destruct Lo as [Lo|Lo]; [exfalso|tauto]).
  - index_below E 10 10%Z.
  - index_below E 10 10%Z.
  - index_below E 8 8%Z.
  - index_below E 8 8%Z.
  - index_below E 5 5%Z.
  - index_below E 5 5%Z.
  - index_below E 5 5%Z.
  - index_below E 5 5%Z.
  - index_below E 3 3%Z.
  - index_below E 3 3%Z.
  - index_below E 7 7%Z.
  - index_below E 7 7%Z.
Qed.

(** Every built-in set but [retro] lists each glyph once. *)
Lemma charSets_NoDup key selectedCharSet :
  property charSets key = Own selectedCharSet -> key <> "retro"%string ->
  NoDup selectedCharSet.
Proof.
  intros P R. apply property_own in P. cbn in P.
  destruct P as [P|[P|[P|[P|[P|[P|[]]]]]]]; injection P as <- <-;
    try (exfalso; apply R; reflexivity);
    repeat (constructor; [cbn; intuition discriminate|]); constructor.
Qed.

(** In a set without a repeated glyph, the glyph at an index of the set is
    the last glyph at the last index only. *)
Lemma last_glyph_last_index {A} (arr : list A) i n :
  NoDup arr -> JS.toZ i = Some n -> (0 <= n < Z.of_nat (length arr))%Z ->
  array_get arr i = nth_error arr (Z.to_nat (Z.of_nat (length arr) - 1))
  <-> JS.toZ i = Some (Z.of_nat (length arr) - 1)%Z.
Proof.
  intros D E H. rewrite (array_get_integer arr i n E) by lia. rewrite E. split.
  - intros G. f_equal.
    assert (Z.to_nat n = Z.to_nat (Z.of_nat (length arr) - 1)); [|lia].
    apply (proj1 (NoDup_nth_error arr) D); [lia|exact G].
  - now intros [= ->].
Qed.

(** X9: for each built-in character set and every 8-bit pixel, the glyph
    index [Math.floor(normalisedBrightness * (length - 1))] is the last
    index [length - 1] for the white pixel alone and, when inverted, for
    the black pixel alone.  In every set but [retro] the glyph of the
    pixel is therefore the last glyph of the set for that one colour
    only.  The set [retro] ends in two blanks: there the glyph at the
    index before the last is the last glyph too. *)
Theorem last_glyph_marks_the_extreme key selectedCharSet R G B :
  property charSets key = Own selectedCharSet ->
  u8 R -> u8 G -> u8 B ->
  let last := (Z.of_nat (length selectedCharSet) - 1)%Z in
  let index isInverted :=
    charIndex selectedCharSet isInverted (JS.ofZ R) (JS.ofZ G) (JS.ofZ B) in
  let last_glyph := nth_error selectedCharSet (Z.to_nat last) in
  (JS.toZ (index false) = Some last <-> R = 255%Z /\ G = 255%Z /\ B = 255%Z)
  /\ (JS.toZ (index true) = Some last <-> R = 0%Z /\ G = 0%Z /\ B = 0%Z)
  /\ (key <> "retro"%string ->
      (array_get selectedCharSet (index false) = last_glyph
       <-> R = 255%Z /\ G = 255%Z /\ B = 255%Z)
      /\ (array_get selectedCharSet (index true) = last_glyph
          <-> R = 0%Z /\ G = 0%Z /\ B = 0%Z))
  /\ (key = "retro"%string ->
      forall isInverted,
        JS.toZ (index isInverted) = Some (last - 1)%Z ->
        array_get selectedCharSet (index isInverted) = last_glyph).
Proof.
  intros P HR HG HB. cbv zeta.
  destruct (last_index_extreme key selectedCharSet R G B P HR HG HB) as [W K].
  cbv zeta in W, K.
  split; [exact W|]. split; [exact K|]. split.
  - intros NR. pose proof (charSets_NoDup key selectedCharSet P NR) as D.
    destruct (charIndex_range key selectedCharSet R G B false P HR HG HB)
      as (n & Hn & En).
    destruct (charIndex_range key selectedCharSet R G B true P HR HG HB)
      as (m & Hm & Em).
    split.
    + rewrite (last_glyph_last_index _ _ n D En Hn). exact W.
    + rewrite (last_glyph_last_index _ _ m D Em Hm). exact K.
  - intros -> isInverted E. vm_compute in P. injection P as <-.
    rewrite (array_get_integer _ _ _ E) by (cbn; lia). reflexivity.
Qed.

(** ** The converter, pixel by pixel *)

Section Exact.

Variables (set : list jschar) (isColorMode isInverted : bool).
Variables (colorPalette : option string) (data : list Z) (W : nat).

Hypothesis palette_modelled :
  isColorMode = true -> property colorPalettes (palette_key colorPalette) <> Inherited.

Lemma convert_pixel_exact y x ascii row :
  convert_pixel (Own set) isColorMode isInverted (palette_key colorPalette) data W y x
    (ascii, row)
  = Normal (ascii ++ append_value [] (pixel_glyph set isInverted data W y x),
            if isColorMode
            then row ++ [pixel_cell set isInverted (palette_of colorPalette) data W y x]
            else row).
Proof.
  unfold convert_pixel, pixel_cell, pixel_glyph, palette_of. cbn [bind].
  destruct isColorMode.
  - destruct (property colorPalettes (palette_key colorPalette)) as [f| |] eqn:P;
      cbn [bind].
    + reflexivity.
    + exfalso. now apply palette_modelled.
    + reflexivity.
  - reflexivity.
Qed.

Lemma convert_pixels_exact y n : forall x0 ascii row,
  for_loop n x0
    (convert_pixel (Own set) isColorMode isInverted (palette_key colorPalette) data W y)
    (ascii, row)
  = Normal (ascii ++ flat_map (fun x => append_value []
                                 (pixel_glyph set isInverted data W y x)) (seq x0 n),
            if isColorMode
            then row ++ map (pixel_cell set isInverted (palette_of colorPalette) data W y)
                            (seq x0 n)
            else row).
Proof.
  induction n as [|n IH]; intros x0 ascii row.
  - cbn. rewrite !app_nil_r. now destruct isColorMode.
  - cbn [for_loop]. rewrite convert_pixel_exact. cbn [bind]. rewrite IH.
    cbn [seq flat_map map]. rewrite <- !app_assoc.
    destruct isColorMode; [|reflexivity]. now rewrite <- !app_assoc.
Qed.

Lemma convert_row_exact y ascii colorData :
  convert_row (Own set) isColorMode isInverted (palette_key colorPalette) data W y
    (ascii, colorData)
  = Normal (ascii ++ row_text set isInverted data W y,
            if isColorMode
            then colorData ++ [map (pixel_cell set isInverted (palette_of colorPalette)
                                      data W y) (seq 0 W)]
            else colorData).
Proof.
  unfold convert_row. rewrite convert_pixels_exact. cbn [bind app].
  unfold row_text. rewrite <- app_assoc. now destruct isColorMode.
Qed.

Lemma convert_rows_exact n : forall y0 ascii colorData,
  for_loop n y0
    (convert_row (Own set) isColorMode isInverted (palette_key colorPalette) data W)
    (ascii, colorData)
  = Normal (ascii ++ flat_map (row_text set isInverted data W) (seq y0 n),
            if isColorMode
            then colorData
                 ++ map (fun y => map (pixel_cell set isInverted (palette_of colorPalette)
                                         data W y) (seq 0 W)) (seq y0 n)
            else colorData).
Proof.
  induction n as [|n IH]; intros y0 ascii colorData.
  - cbn. rewrite !app_nil_r. now destruct isColorMode.
  - cbn [for_loop]. rewrite convert_row_exact. cbn [bind]. rewrite IH.
    cbn [seq flat_map map]. rewrite <- !app_assoc.
    destruct isColorMode; [|reflexivity]. now rewrite <- !app_assoc.
Qed.

End Exact.

(** A key that names an inherited property stops the colour loop at the
    first pixel. *)
Lemma convert_rows_inherited selectedCharSet isInverted key data W H st :
  property colorPalettes key = Inherited -> (0 < W)%nat -> (0 < H)%nat ->
  forall r, for_loop H 0 (convert_row selectedCharSet true isInverted key data W) st
            <> Normal r.
Proof.
  intros P HW HH r. destruct H as [|H]; [lia|]. destruct W as [|W]; [lia|].
  destruct st as [ascii colorData].
  cbn [for_loop]. unfold convert_row at 1. cbn [for_loop].
  unfold convert_pixel at 1. rewrite P.
  destruct selectedCharSet; cbn; discriminate.
Qed.

(** Without a character set the loop stops at the first pixel. *)
Lemma convert_rows_need_set selectedCharSet isColorMode isInverted key data W H st r :
  for_loop H 0 (convert_row selectedCharSet isColorMode isInverted key data W) st
  = Normal r ->
  (0 < W)%nat -> (0 < H)%nat ->
  exists set, selectedCharSet = Own set.
Proof.
  intros E HW HH. destruct selectedCharSet as [set| |]; [eauto| |];
    destruct H as [|H]; try lia; destruct W as [|W]; try lia;
    destruct st as [ascii colorData]; cbn in E; discriminate.
Qed.

Lemma getImageData_normal ctx w h data :
  getImageData ctx w h = Normal data ->
  w <> 0%Z /\ h <> 0%Z /\ w = canvas_width ctx /\ h = canvas_height ctx
  /\ data = pixels ctx.
Proof.
  unfold getImageData.
  destruct (Z.eqb_spec w 0); [discriminate|].
  destruct (Z.eqb_spec h 0); [discriminate|]. cbn.
  destruct (Z.eqb_spec w (canvas_width ctx)); [|discriminate].
  destruct (Z.eqb_spec h (canvas_height ctx)); [|discriminate]. cbn.
  intros [= <-]. auto.
Qed.

Lemma canvas_dimension_nonneg default x :
  (0 <= default)%Z -> (0 <= canvas_dimension default x)%Z.
Proof.
  intros H. unfold canvas_dimension.
  assert (0 <= JS.ToUint32 x)%Z.
  { unfold JS.ToUint32. destruct (Prim2SF x); try lia. apply Z.mod_pos_bound. lia. }
  destruct (_ <=? _)%Z; lia.
Qed.

(** What a conversion that returns has found: a character set, a canvas
    with pixels and, in colour mode, a palette key that is modelled. *)
Lemma convert_normal_inv image options result :
  convertImageToASCII image options = Normal result ->
  let outputWidth := Options.outputWidth options in
  let width := canvas_dimension 300 outputWidth in
  let height :=
    canvas_dimension 150
      (JS.Math_floor (Image.height image * (outputWidth / Image.width image))) in
  (exists selectedCharSet,
     property charSets (Options.charSetKey options) = Own selectedCharSet)
  /\ (1 <= width)%Z /\ (1 <= height)%Z
  /\ (Options.isColorMode options = true ->
      property colorPalettes
        match Options.colorPalette options with
        | Some key => key
        | None => "original"
        end <> Inherited).
Proof.
  intros E. cbv zeta. unfold convertImageToASCII in E. cbv zeta in E.
  set (w := canvas_dimension 300 _) in *.
  set (h := canvas_dimension 150 _) in *.
  pose proof (canvas_dimension_nonneg 300 (Options.outputWidth options) ltac:(lia)) as Hw.
  fold w in Hw.
  assert (Hh : (0 <= h)%Z) by (apply canvas_dimension_nonneg; lia).
  apply bind_normal in E. destruct E as (ctx & Ectx & E).
  apply bind_normal in E. destruct E as (data & Edata & E).
  apply bind_normal in E. destruct E as ([ascii colorData] & Eloop & E).
  apply getImageData_normal in Edata. destruct Edata as (W0 & H0 & _).
  split; [|split; [lia|split; [lia|]]].
  - eapply convert_rows_need_set; [exact Eloop| |]; lia.
  - intros CM I. rewrite CM in Eloop.
    eapply convert_rows_inherited; [exact I| | |exact Eloop]; lia.
Qed.

(** With a character set, a canvas with pixels and a modelled palette
    key, the conversion returns the grid of the processed pixels. *)
Lemma convert_with_set image options selectedCharSet :
  let outputWidth := Options.outputWidth options in
  let width := canvas_dimension 300 outputWidth in
  let height :=
    canvas_dimension 150
      (JS.Math_floor (Image.height image * (outputWidth / Image.width image))) in
  let data := processed_pixels image options in
  property charSets (Options.charSetKey options) = Own selectedCharSet ->
  (1 <= width)%Z -> (1 <= height)%Z ->
  (Options.isColorMode options = true ->
   property colorPalettes
     match Options.colorPalette options with
     | Some key => key
     | None => "original"
     end <> Inherited) ->
  convertImageToASCII image options
  = Normal (Result.make
              (grid_text selectedCharSet (Options.isInverted options) data
                 (Z.to_nat width) (Z.to_nat height))
              (if Options.isColorMode options
               then Some (grid_cells selectedCharSet (Options.isInverted options)
                            (palette_of (Options.colorPalette options)) data
                            (Z.to_nat width) (Z.to_nat height))
               else None)
              (mkCanvas width height data)).
Proof.
  cbv zeta. intros P Hw Hh Pal.
  unfold convertImageToASCII, processed_pixels. cbv zeta.
  set (w := canvas_dimension 300 _) in *.
  set (h := canvas_dimension 150 _) in *.
  rewrite P.
  assert (G : forall data, getImageData (mkCanvas w h data) w h = Normal data).
  { intros data. unfold getImageData. cbn.
    destruct (Z.eqb_spec w 0); [lia|]. destruct (Z.eqb_spec h 0); [lia|].
    now rewrite !Z.eqb_refl. }
  destruct (_ || _)%bool.
  - unfold applyBrightnessContrast, drawImage, putImageData. rewrite G.
    cbn [bind canvas_width canvas_height]. rewrite G. cbn [bind].
    rewrite (convert_rows_exact selectedCharSet _ _ _ _ _ Pal). cbn [bind app].
    now destruct (Options.isColorMode options).
  - unfold drawImage. cbn [bind]. rewrite G. cbn [bind].
    rewrite (convert_rows_exact selectedCharSet _ _ _ _ _ Pal). cbn [bind app].
    now destruct (Options.isColorMode options).
Qed.

(** X10: the converter, for a key of [charSets], in colour mode a
    palette key that is not a name of [Object.prototype], and, when
    brightness or contrast is not 0, a drawn image whose pixels are all
    opaque.  On a canvas without pixels it throws; on any other canvas it
    returns the pixel-by-pixel image of the processed canvas:
    [processedCanvas] holds the drawn image, tonally adjusted when
    brightness or contrast is not 0; [ascii] is, row after row, the glyph
    of each pixel followed by a line feed after each row; [colorData] is,
    in colour mode, the grid of the glyphs with the palette's colour of
    each pixel, and [null] otherwise. *)
Theorem converter_is_pixelwise image options selectedCharSet :
  let outputWidth := Options.outputWidth options in
  let width := canvas_dimension 300 outputWidth in
  let height :=
    canvas_dimension 150
      (JS.Math_floor (Image.height image * (outputWidth / Image.width image))) in
  let data := processed_pixels image options in
  property charSets (Options.charSetKey options) = Own selectedCharSet ->
  (Options.isColorMode options = true ->
   property colorPalettes (palette_key (Options.colorPalette options)) <> Inherited) ->
  (JS.strict_neq (Options.brightness options) 0
   || JS.strict_neq (Options.contrast options) 0 = true ->
   opaque (Image.drawn image width height) = true) ->
  (width = 0%Z \/ height = 0%Z ->
   convertImageToASCII image options = Throw IndexSizeError)
  /\ (width <> 0%Z -> height <> 0%Z ->
      convertImageToASCII image options
      = Normal (Result.make
                  (grid_text selectedCharSet (Options.isInverted options) data
                     (Z.to_nat width) (Z.to_nat height))
                  (if Options.isColorMode options
                   then Some (grid_cells selectedCharSet (Options.isInverted options)
                                (palette_of (Options.colorPalette options)) data
                                (Z.to_nat width) (Z.to_nat height))
                   else None)
                  (mkCanvas width height data))).
Proof.
  cbv zeta. intros P Pal _. split.
  - apply convert_no_pixels.
  - intros Hw Hh.
    pose proof (canvas_dimension_nonneg 300 (Options.outputWidth options) ltac:(lia)).
    pose proof (canvas_dimension_nonneg 150
                  (JS.Math_floor (Image.height image
                                  * (Options.outputWidth options / Image.width image)))
                  ltac:(lia)).
    apply (convert_with_set image options selectedCharSet P); [lia|lia|exact Pal].
Qed.

(** X11: the text does not depend on the colour mode: when the
    conversion returns in colour mode, it returns in monochrome mode with
    the same [ascii], the same processed canvas and no [colorData]. *)
Theorem text_ignores_color_mode image options result :
  convertImageToASCII image (with_color_mode options true) = Normal result ->
  exists result',
    convertImageToASCII image (with_color_mode options false) = Normal result'
    /\ Result.ascii result' = Result.ascii result
    /\ Result.processedCanvas result' = Result.processedCanvas result
    /\ Result.colorData result' = None.
Proof.
  intros E.
  destruct (convert_normal_inv _ _ _ E) as ([set P] & Hw & Hh & Pal).
  rewrite (convert_with_set _ _ set P Hw Hh Pal) in E. injection E as <-.
  eexists. split.
  - apply (convert_with_set image (with_color_mode options false) set P Hw Hh).
    discriminate.
  - cbn. auto.
Qed.

(** ** Gray pixels *)

Lemma ramp_facts_all : forallb ramp_facts (map snd charSets) = true.
Proof. vm_cast_no_check (eq_refl true). Qed.

Lemma grayscale_facts_all : forallb grayscale_fact small_integers = true.
Proof. vm_cast_no_check (eq_refl true). Qed.

Lemma ramp_step key set v :
  property charSets key = Own set -> (0 <= v < 255)%Z ->
  (0 <= gray_index set false v <= gray_index set false (v + 1))%Z
  /\ (0 <= gray_index set true (v + 1) <= gray_index set true v)%Z.
Proof.
  intros P Hv. apply property_own in P.
  pose proof ramp_facts_all as A. rewrite forallb_forall in A.
  specialize (A set (in_map snd _ _ P)). unfold ramp_facts in A.
  rewrite forallb_forall in A.
  assert (Iv : In v (integers 0 255))
    by (apply integers_spec; change (Z.of_nat 255) with 255%Z; lia).
  specialize (A v Iv). unfold ramp_fact in A.
  apply andb_prop in A. destruct A as [A A4].
  apply andb_prop in A. destruct A as [A A3].
  apply andb_prop in A. destruct A as [A1 A2].
  lia.
Qed.

(** X12: on gray pixels the ramp is monotone: for each built-in set a
    gray level that is not darker never gets an earlier glyph, nor a
    later one when inverted. *)
Theorem gray_ramp_is_monotone key selectedCharSet v v' :
  property charSets key = Own selectedCharSet ->
  u8 v -> u8 v' -> (v <= v')%Z ->
  JS.toZ (charIndex selectedCharSet false (JS.ofZ v) (JS.ofZ v) (JS.ofZ v))
  = Some (gray_index selectedCharSet false v)
  /\ JS.toZ (charIndex selectedCharSet true (JS.ofZ v) (JS.ofZ v) (JS.ofZ v))
     = Some (gray_index selectedCharSet true v)
  /\ (gray_index selectedCharSet false v <= gray_index selectedCharSet false v')%Z
  /\ (gray_index selectedCharSet true v' <= gray_index selectedCharSet true v)%Z.
Proof.
  intros P Hv Hv' L.
  assert (D : forall inv, JS.toZ (charIndex selectedCharSet inv (JS.ofZ v) (JS.ofZ v)
                                    (JS.ofZ v))
                          = Some (gray_index selectedCharSet inv v)).
  { intros inv. unfold gray_index.
    destruct (charIndex_range key selectedCharSet v v v inv P Hv Hv Hv) as (n & _ & ->).
    reflexivity. }
  split; [apply D|]. split; [apply D|].
  unfold u8 in *.
  replace v' with (v + Z.of_nat (Z.to_nat (v' - v)))%Z by lia.
  assert (B : (v + Z.of_nat (Z.to_nat (v' - v)) <= 255)%Z) by lia.
  induction (Z.to_nat (v' - v)) as [|n IH].
  - rewrite Z.add_0_r. lia.
  - replace (v + Z.of_nat (S n))%Z with (v + Z.of_nat n + 1)%Z in * by lia.
    pose proof (ramp_step key selectedCharSet (v + Z.of_nat n) P ltac:(lia)).
    lia.
Qed.

(** X13: the grayscale palette is not the identity on gray pixels: it
    maps [(v, v, v)] to the gray [v] or [v - 1], the latter exactly when
    the weighted sum of the doubles falls below [v], which happens for 65
    of the 256 gray levels. *)
Theorem grayscale_darkens_some_grays v :
  u8 v ->
  let color := palette_grayscale (JS.ofZ v) (JS.ofZ v) (JS.ofZ v) in
  exists gray,
    JS.toZ (RGB.r color) = Some gray /\ JS.toZ (RGB.g color) = Some gray
    /\ JS.toZ (RGB.b color) = Some gray
    /\ (gray = if luminance (JS.ofZ v) (JS.ofZ v) (JS.ofZ v) <? JS.ofZ v
               then (v - 1)%Z else v)
    /\ (gray = (v - 1)%Z <-> In v darkened_grays)
    /\ length darkened_grays = 65%nat.
Proof.
  intros H. cbv zeta.
  pose proof grayscale_facts_all as A. rewrite forallb_forall in A.
  specialize (A v (small_integers_spec v H)). unfold grayscale_fact in A.
  cbv zeta in A.
  destruct (JS.toZ (RGB.r _)) as [r|]; [|discriminate].
  destruct (JS.toZ (RGB.g _)) as [g|]; [|discriminate].
  destruct (JS.toZ (RGB.b _)) as [b|]; [|discriminate].
  apply andb_prop in A. destruct A as [A A3].
  apply andb_prop in A. destruct A as [A1 A2].
  apply Z.eqb_eq in A1, A2. subst g b.
  exists r. split; [reflexivity|]. split; [reflexivity|]. split; [reflexivity|].
  assert (I : In v darkened_grays
              <-> (luminance (JS.ofZ v) (JS.ofZ v) (JS.ofZ v) <? JS.ofZ v) = true).
  { unfold darkened_grays. rewrite filter_In. split; [tauto|].
    intros D. split; [apply small_integers_spec, H|exact D]. }
  destruct (luminance (JS.ofZ v) (JS.ofZ v) (JS.ofZ v) <? JS.ofZ v);
    apply Z.eqb_eq in A3; subst r.
  - split; [reflexivity|]. split; [tauto|]. vm_compute. reflexivity.
  - split; [reflexivity|]. split; [|vm_compute; reflexivity].
    rewrite I. split; [lia|discriminate].
Qed.

(** ** main.js: the layout of the PNG *)

Lemma handleSavePng_layout c cs colorMode rows :
  let lines := split_lines (c :: cs) in
  let l := png_layout
             (JS.Math_max_of (map (fun line => JS.ofZ (Z.of_nat (length line))) lines))
             (JS.ofZ (Z.of_nat (length lines))) in
  handleSavePng (c :: cs) colorMode rows
  = if ((Layout.width l =? 0) || (Layout.height l =? 0))%Z then Throw TypeError
    else Normal (Some (Png.make (Layout.width l) (Layout.height l) (Layout.fontSize l)
                         (png_calls l (String.eqb colorMode "color") lines rows))).
Proof.
  cbv zeta. unfold handleSavePng, png_layout, png_calls.
  set (lines := split_lines (c :: cs)).
  set (m := JS.Math_max_of _). set (n := JS.ofZ (Z.of_nat (length lines))).
  cbv zeta.
  change (if (1200 <? m * (10 * 0.6) + 100) || (1200 <? n * 10 + 100)
          then _ else _) with (final_size m n).
  destruct (final_size m n) as [fw fh]. reflexivity.
Qed.

Lemma max_facts_all : all_pairs max_fact (integers 0 121) (integers 0 121) = true.
Proof. vm_cast_no_check (eq_refl true). Qed.

Lemma max_first_facts_all : forallb max_first_fact (integers 0 121) = true.
Proof. vm_cast_no_check (eq_refl true). Qed.

Lemma fold_max_ge l : forall acc,
  (acc <= fold_left Z.max l acc)%Z
  /\ Forall (fun x => x <= fold_left Z.max l acc)%Z l.
Proof.
  induction l as [|x l IH]; intros acc; cbn [fold_left].
  - split; [lia|constructor].
  - destruct (IH (Z.max acc x)) as [A F]. split; [lia|].
    constructor; [lia|exact F].
Qed.

Lemma fold_Math_max l : forall acc,
  (0 <= acc <= 120)%Z -> Forall (fun x => 0 <= x <= 120)%Z l ->
  fold_left JS.Math_max (map JS.ofZ l) (JS.ofZ acc) = JS.ofZ (fold_left Z.max l acc).
Proof.
  induction l as [|x l IH]; intros acc Ha F; cbn [map fold_left]; [reflexivity|].
  inversion F as [|? ? Hx F']; subst.
  assert (E : JS.Math_max (JS.ofZ acc) (JS.ofZ x) = JS.ofZ (Z.max acc x)).
  { apply Leibniz.eqb_spec.
    apply (all_pairs_sound _ _ _ max_facts_all acc x);
      apply integers_spec; change (Z.of_nat 121) with 121%Z; lia. }
  rewrite E. apply IH; [lia|exact F'].
Qed.

(** [Math.max(...lines.map(line => line.length))] is the length of the
    longest line, for lines of at most 120 characters. *)
Lemma longest_Math_max line lines :
  (longest (line :: lines) <= 120)%Z ->
  JS.Math_max_of (map (fun line => JS.ofZ (Z.of_nat (length line))) (line :: lines))
  = JS.ofZ (longest (line :: lines)).
Proof.
  unfold longest, JS.Math_max_of. intros B.
  set (lens := map (fun line : list string => Z.of_nat (length line)) (line :: lines)) in *.
  assert (F : Forall (fun x => 0 <= x <= 120)%Z lens).
  { destruct (fold_max_ge lens 0) as [_ F].
    assert (P : Forall (fun x => 0 <= x)%Z lens).
    { unfold lens. apply Forall_forall. intros x Hx. apply in_map_iff in Hx.
      destruct Hx as (l & <- & _). lia. }
    rewrite Forall_forall in *. intros x Hx.
    specialize (F x Hx). specialize (P x Hx). cbv beta in *. lia. }
  replace (map (fun line : list string => JS.ofZ (Z.of_nat (length line))) (line :: lines))
    with (map JS.ofZ lens) by (unfold lens; now rewrite map_map).
  unfold lens in *. cbn [map fold_left] in *.
  inversion F as [|? ? Hx F']; subst.
  assert (E : JS.Math_max neg_infinity (JS.ofZ (Z.of_nat (length line)))
              = JS.ofZ (Z.of_nat (length line))).
  { apply Leibniz.eqb_spec.
    pose proof max_first_facts_all as A. rewrite forallb_forall in A.
    apply A, integers_spec. change (Z.of_nat 121) with 121%Z. lia. }
  rewrite E. rewrite Z.max_r by lia. apply fold_Math_max; [lia|exact F'].
Qed.

Lemma layout_facts_all : all_pairs layout_fact (integers 1 120) (integers 1 250) = true.
Proof. vm_cast_no_check (eq_refl true). Qed.

(** What [layout_fact] says, fact by fact. *)
Lemma layout_fact_spec c n :
  layout_fact c n = true ->
  let l := png_layout (JS.ofZ c) (JS.ofZ n) in
  (1 <= Layout.width l <= 1200)%Z /\ (1 <= Layout.height l <= 1200)%Z
  /\ (600 <= Z.max (Layout.width l) (Layout.height l))%Z
  /\ (6 <=? Layout.fontSize l) = true /\ (Layout.fontSize l <=? 12) = true
  /\ ((n <= 200)%Z ->
      (JS.ofZ c * (Layout.fontSize l * 0.6) <=? JS.ofZ (Layout.width l)) = true
      /\ (JS.ofZ n * Layout.fontSize l <=? JS.ofZ (Layout.height l)) = true)
  /\ ((200 < n)%Z ->
      (JS.ofZ (Layout.height l) <? JS.ofZ n * Layout.fontSize l) = true).
Proof.
  unfold layout_fact. cbv zeta. set (l := png_layout _ _). intros F.
  repeat (apply andb_prop in F; let H := fresh "F" in destruct F as [F H]).
  split; [lia|]. split; [lia|]. split; [lia|]. split; [assumption|].
  split; [assumption|].
  destruct (Z.leb_spec n 200) as [L|L].
  - apply andb_prop in F0. split; [tauto|lia].
  - split; [lia|]. intros _. exact F0.
Qed.

(** A text of at most 120 columns and 250 lines is exported with the
    layout of its number of columns and lines. *)
Lemma handleSavePng_small currentAscii colorMode rows :
  let lines := split_lines currentAscii in
  let columns := longest lines in
  let count := Z.of_nat (length lines) in
  let l := png_layout (JS.ofZ columns) (JS.ofZ count) in
  currentAscii <> [] -> (1 <= columns <= 120)%Z -> (count <= 250)%Z ->
  handleSavePng currentAscii colorMode rows
  = Normal (Some (Png.make (Layout.width l) (Layout.height l) (Layout.fontSize l)
                    (png_calls l (String.eqb colorMode "color") lines rows)))
  /\ layout_fact columns count = true.
Proof.
  cbv zeta. intros NE Hc Hn.
  destruct currentAscii as [|c cs]; [contradiction|].
  rewrite handleSavePng_layout.
  set (lines := split_lines (c :: cs)) in *.
  assert (NL : (1 <= Z.of_nat (length lines))%Z).
  { unfold lines. cbn [split_lines].
    destruct (String.eqb c LF); [cbn [length]; lia|].
    destruct (split_lines cs); cbn [length]; lia. }
  assert (EM : JS.Math_max_of (map (fun line => JS.ofZ (Z.of_nat (length line))) lines)
               = JS.ofZ (longest lines)).
  { destruct lines as [|line lines']; [cbn in NL; lia|].
    apply longest_Math_max. lia. }
  rewrite EM.
  assert (F : layout_fact (longest lines) (Z.of_nat (length lines)) = true).
  { apply (all_pairs_sound _ _ _ layout_facts_all); apply integers_spec.
    - change (Z.of_nat 120) with 120%Z. lia.
    - change (Z.of_nat 250) with 250%Z. lia. }
  split; [|exact F].
  destruct (layout_fact_spec _ _ F) as (Hw & Hh & _).
  destruct (Z.eqb_spec (Layout.width (png_layout (JS.ofZ (longest lines))
                          (JS.ofZ (Z.of_nat (length lines))))) 0) as [Z0|_]; [lia|].
  destruct (Z.eqb_spec (Layout.height (png_layout (JS.ofZ (longest lines))
                           (JS.ofZ (Z.of_nat (length lines))))) 0) as [Z0|_]; [lia|].
  reflexivity.
Qed.

(** X14: a text of at most 120 columns and 250 lines is exported
    without an exception to a bitmap whose sides are at most 1200 and
    whose larger side is at least 600, with a font size of 6 to 12.  Up to
    200 lines the text block (columns x 0.6 x font size by lines x font
    size) is within the bitmap; beyond 200 lines it is taller than the
    bitmap, the font size having a floor of 6. *)
Theorem png_fits_up_to_200_lines currentAscii colorMode rows :
  let lines := split_lines currentAscii in
  let columns := longest lines in
  let count := Z.of_nat (length lines) in
  currentAscii <> [] -> (1 <= columns <= 120)%Z -> (count <= 250)%Z ->
  exists png,
    handleSavePng currentAscii colorMode rows = Normal (Some png)
    /\ (1 <= Png.width png <= 1200)%Z /\ (1 <= Png.height png <= 1200)%Z
    /\ (600 <= Z.max (Png.width png) (Png.height png))%Z
    /\ (6 <=? Png.fontSize png) = true /\ (Png.fontSize png <=? 12) = true
    /\ ((count <= 200)%Z ->
        (JS.ofZ columns * (Png.fontSize png * 0.6) <=? JS.ofZ (Png.width png)) = true
        /\ (JS.ofZ count * Png.fontSize png <=? JS.ofZ (Png.height png)) = true)
    /\ ((200 < count)%Z ->
        (JS.ofZ (Png.height png) <? JS.ofZ count * Png.fontSize png) = true).
Proof.
  cbv zeta. intros NE Hc Hn.
  destruct (handleSavePng_small currentAscii colorMode rows NE Hc Hn) as [E F].
  eexists. split; [exact E|]. cbn [Png.width Png.height Png.fontSize].
  exact (layout_fact_spec _ _ F).
Qed.

(** ** Rendering and exporting *)

Lemma draw_spans_text spans : forall startX y xOffset adjustedCharWidth,
  map Png.text (draw_spans spans startX y xOffset adjustedCharWidth)
  = map (fun span => [fst span]) spans
  /\ map Png.fillStyle (draw_spans spans startX y xOffset adjustedCharWidth)
     = map snd spans.
Proof.
  induction spans as [|[char color] spans IH]; intros; cbn [draw_spans map];
    [auto|].
  destruct (IH startX y (xOffset + adjustedCharWidth) adjustedCharWidth) as [-> ->].
  auto.
Qed.

(** In colour mode one [fillText] per span, in order, with its glyph and
    its colour. *)
Lemma draw_rows_text rows : forall index startX startY adjustedLineHeight adjustedCharWidth,
  map Png.text (draw_rows rows index startX startY adjustedLineHeight adjustedCharWidth)
  = map (fun span => [fst span]) (concat rows)
  /\ map Png.fillStyle
       (draw_rows rows index startX startY adjustedLineHeight adjustedCharWidth)
     = map snd (concat rows).
Proof.
  induction rows as [|row rows IH]; intros; cbn [draw_rows concat]; [auto|].
  rewrite !map_app.
  destruct (draw_spans_text row startX
              (startY + JS.ofZ (Z.of_nat index) * adjustedLineHeight) 0
              adjustedCharWidth) as [-> ->].
  destruct (IH (S index) startX startY adjustedLineHeight adjustedCharWidth) as [-> ->].
  auto.
Qed.

(** In monochrome one [fillText] per line, in green. *)
Lemma draw_lines_text lines : forall index startX startY adjustedLineHeight,
  map Png.text (draw_lines lines index startX startY adjustedLineHeight) = lines
  /\ Forall (fun call => Png.fillStyle call = "#00ff00")
       (draw_lines lines index startX startY adjustedLineHeight).
Proof.
  induction lines as [|line lines IH]; intros; cbn [draw_lines map]; [auto|].
  destruct (IH (S index) startX startY adjustedLineHeight) as [-> F]. auto.
Qed.

Section Glyphs.

Variables (key : string) (set : list jschar) (isInverted : bool).
Variables (data : list Z) (W H : nat).

Hypothesis set_own : property charSets key = Own set.
Hypothesis data_u8 : Forall u8 data.
Hypothesis data_length : length data = (4 * W * H)%nat.

Lemma pixel_glyph_defined y x :
  (y < H)%nat -> (x < W)%nat ->
  exists c, pixel_glyph set isInverted data W y x = Some c /\ In c set.
Proof.
  intros Hy Hx.
  assert (Hi : ((y * W + x) * 4 + 2 < 4 * W * H)%nat) by nia.
  destruct (sample_at data W H data_u8 data_length ((y * W + x) * 4))
    as (R & ER & HR); [lia|].
  destruct (sample_at data W H data_u8 data_length ((y * W + x) * 4 + 1))
    as (G & EG & HG); [lia|].
  destruct (sample_at data W H data_u8 data_length ((y * W + x) * 4 + 2))
    as (B & EB & HB); [lia|].
  unfold pixel_glyph. cbv zeta.
  rewrite (get_some _ _ _ ER), (get_some _ _ _ EG), (get_some _ _ _ EB).
  exact (glyph_defined key set R G B isInverted set_own HR HG HB).
Qed.

Lemma row_text_glyphs y :
  (y < H)%nat ->
  row_text set isInverted data W y
  = map (fun x => glyph_text (pixel_glyph set isInverted data W y x)) (seq 0 W) ++ [LF]
  /\ row_ok set W
       (map (fun x => glyph_text (pixel_glyph set isInverted data W y x)) (seq 0 W)).
Proof.
  intros Hy. unfold row_text, row_ok. rewrite length_map, length_seq.
  assert (A : forall l, Forall (fun x => x < W)%nat l ->
            flat_map (fun x => append_value [] (pixel_glyph set isInverted data W y x)) l
            = map (fun x => glyph_text (pixel_glyph set isInverted data W y x)) l
            /\ Forall (fun c => In c set)
                 (map (fun x => glyph_text (pixel_glyph set isInverted data W y x)) l)).
  { induction 1 as [|x l Hx _ [IH1 IH2]]; cbn [flat_map map]; [auto|].
    rewrite IH1.
    destruct (pixel_glyph_defined y x Hy Hx) as (c & -> & Hc).
    cbn [append_value glyph_text app]. auto. }
  destruct (A (seq 0 W)) as [-> F].
  - apply Forall_forall. intros x Hx. apply in_seq in Hx. lia.
  - auto.
Qed.

(** The text of the grid is the text of its rows of glyphs. *)
Lemma grid_text_rows :
  grid_text set isInverted data W H = text_of (glyph_rows set isInverted data W H)
  /\ Forall (row_ok set W) (glyph_rows set isInverted data W H)
  /\ length (glyph_rows set isInverted data W H) = H.
Proof.
  unfold grid_text, text_of, glyph_rows.
  rewrite length_map, length_seq.
  assert (A : forall l, Forall (fun y => y < H)%nat l ->
            flat_map (row_text set isInverted data W) l
            = concat (map (fun row => row ++ [LF])
                (map (fun y => map (fun x => glyph_text (pixel_glyph set isInverted
                                                            data W y x)) (seq 0 W)) l))
            /\ Forall (row_ok set W)
                 (map (fun y => map (fun x => glyph_text (pixel_glyph set isInverted
                                                             data W y x)) (seq 0 W)) l)).
  { induction 1 as [|y l Hy _ [IH1 IH2]]; cbn [flat_map map concat]; [auto|].
    destruct (row_text_glyphs y Hy) as [-> R]. rewrite IH1. auto. }
  destruct (A (seq 0 H)) as [-> F].
  - apply Forall_forall. intros y Hy. apply in_seq in Hy. lia.
  - auto.
Qed.

End Glyphs.

(** The spans [renderColoredASCII] makes of the cells of a grid spell its
    rows of glyphs. *)
Lemma rendered_glyphs css_color set isInverted paletteFunc data W H :
  map (map fst)
    (App.children (renderColoredASCII css_color
                     (grid_cells set isInverted paletteFunc data W H)))
  = glyph_rows set isInverted data W H.
Proof.
  unfold renderColoredASCII, App.children, grid_cells, glyph_rows.
  rewrite !map_map. apply map_ext. intros y. rewrite !map_map. reflexivity.
Qed.

(** The processed canvas of an image the browser draws in full has four
    8-bit samples per pixel. *)
Lemma processed_pixels_ok image options w h :
  canvas_ok image ->
  canvas_dimension 300 (Options.outputWidth options) = w ->
  canvas_dimension 150
    (JS.Math_floor (Image.height image
                    * (Options.outputWidth options / Image.width image))) = h ->
  (0 <= w)%Z -> (0 <= h)%Z ->
  Forall u8 (processed_pixels image options)
  /\ length (processed_pixels image options) = (4 * Z.to_nat w * Z.to_nat h)%nat.
Proof.
  intros OK Ew Eh Hw Hh. unfold processed_pixels. cbv zeta. rewrite Ew, Eh.
  destruct (OK w h Hw Hh) as [L F].
  assert (L' : length (Image.drawn image w h) = (4 * Z.to_nat w * Z.to_nat h)%nat) by lia.
  destruct (_ || _)%bool.
  - split; [now apply adjust_data_u8|now rewrite adjust_data_length].
  - auto.
Qed.

Lemma longest_rows W rows :
  (1 <= W)%nat -> rows <> [] -> Forall (fun row : jsstring => length row = W) rows ->
  longest (rows ++ [[]]) = Z.of_nat W.
Proof.
  intros HW NE F. unfold longest. rewrite map_app, fold_left_app. cbn [map fold_left length].
  assert (A : forall acc, (acc <= Z.of_nat W)%Z -> rows <> [] ->
            fold_left Z.max (map (fun line : list string => Z.of_nat (length line)) rows) acc
            = Z.of_nat W).
  { clear NE. induction F as [|row rows Hrow F IH]; intros acc Ha NE; [contradiction|].
    cbn [map fold_left]. rewrite Hrow.
    destruct rows as [|row' rows'].
    - cbn. lia.
    - apply IH; [lia|discriminate]. }
  rewrite A by (auto; lia). lia.
Qed.

Lemma text_of_not_empty rows : rows <> [] -> text_of rows <> [].
Proof.
  destruct rows as [|row rows]; [contradiction|]. intros _.
  unfold text_of. cbn [map concat]. destruct row; discriminate.
Qed.

(** A successful render, exactly. *)
Lemma render_exact css_color page image set OW h :
  let app := Page.state page in
  let settings := AppState.settings app in
  let isColorMode := String.eqb (Settings.colorMode settings) "color" in
  let data := processed_pixels image (App.options_of app) in
  let rows := glyph_rows set (AppState.isInverted app) data (Z.to_nat OW) (Z.to_nat h) in
  AppState.currentImage app = Some image ->
  canvas_ok image ->
  property charSets (Settings.charSetKey settings) = Own set ->
  (isColorMode = true ->
   property colorPalettes (Settings.colorPalette settings) <> Inherited) ->
  JS.toZ (Settings.outputWidth settings) = Some OW -> (1 <= OW <= 2147483647)%Z ->
  JS.toZ (JS.Math_floor (Image.height image
                         * (Settings.outputWidth settings / Image.width image)))
  = Some h ->
  (1 <= h <= 2147483647)%Z ->
  App.handleRender css_color page
  = (Page.make (AppState.make (Some image) (text_of rows) (AppState.isInverted app)
                  settings)
       (if isColorMode
        then renderColoredASCII css_color
               (grid_cells set (AppState.isInverted app)
                  (palette_of (Some (Settings.colorPalette settings))) data
                  (Z.to_nat OW) (Z.to_nat h))
        else TextContent (text_of rows))
       (Page.invertBtn page),
     Normal tt)
  /\ Forall (row_ok set (Z.to_nat OW)) rows /\ length rows = Z.to_nat h.
Proof.
  cbv zeta. intros EI OK P Pal EW HW Eh Hh.
  pose proof (canvas_dimension_integer 300 _ _ EW ltac:(lia)) as Dw.
  pose proof (canvas_dimension_integer 150 _ _ Eh ltac:(lia)) as Dh.
  set (options := App.options_of (Page.state page)).
  destruct (processed_pixels_ok image options OW h OK Dw Dh ltac:(lia) ltac:(lia))
    as [F L].
  destruct (grid_text_rows _ _ (AppState.isInverted (Page.state page)) _ _ _ P F L)
    as (ET & FR & LR).
  split; [|split; [exact FR|exact LR]].
  unfold App.handleRender. rewrite EI. fold options.
  pose proof (convert_with_set image options set) as C. cbv zeta in C.
  cbn [options Options.outputWidth App.options_of] in C.
  rewrite Dw, Dh in C. specialize (C P ltac:(lia) ltac:(lia) Pal).
  fold options in C. rewrite C.
  cbn [Result.ascii Result.colorData options App.options_of Options.isColorMode
       Options.isInverted Options.colorPalette].
  fold options. rewrite ET. rewrite <- EI.
  destruct (String.eqb _ "color"); reflexivity.
Qed.

(** X15: render, then save as PNG.  For an image the browser draws in
    full, a built-in character set, an integer width of 1 to 120 and a
    target height [h] of 1 to 249, [handleRender] succeeds and leaves a
    text of [h] rows of [outputWidth] glyphs; [handleSavePng] then returns
    a bitmap.  In monochrome it draws [h + 1] lines, the rows and an empty
    last line; in colour mode one glyph per pixel, the glyphs of the rows
    in order.  The layout is that of [h + 1] lines: the text block is
    within the bitmap up to [h = 199], and taller beyond. *)
Theorem render_then_save_png css_color page image selectedCharSet OW h :
  let app := Page.state page in
  let settings := AppState.settings app in
  let isColorMode := String.eqb (Settings.colorMode settings) "color" in
  AppState.currentImage app = Some image ->
  canvas_ok image ->
  property charSets (Settings.charSetKey settings) = Own selectedCharSet ->
  (isColorMode = true ->
   property colorPalettes (Settings.colorPalette settings) <> Inherited) ->
  JS.toZ (Settings.outputWidth settings) = Some OW -> (1 <= OW <= 120)%Z ->
  JS.toZ (JS.Math_floor (Image.height image
                         * (Settings.outputWidth settings / Image.width image)))
  = Some h ->
  (1 <= h <= 249)%Z ->
  exists page' rows png,
    App.handleRender css_color page = (page', Normal tt)
    /\ split_lines (AppState.currentAscii (Page.state page')) = rows ++ [[]]
    /\ length rows = Z.to_nat h
    /\ Forall (fun row => length row = Z.to_nat OW) rows
    /\ App.handleSavePng page' = Normal (Some png)
    /\ map Png.text (Png.calls png)
       = (if isColorMode then map (fun glyph => [glyph]) (concat rows)
          else rows ++ [[]])
    /\ (600 <= Z.max (Png.width png) (Png.height png) <= 1200)%Z
    /\ ((h <= 199)%Z ->
        (JS.ofZ OW * (Png.fontSize png * 0.6) <=? JS.ofZ (Png.width png)) = true
        /\ (JS.ofZ (h + 1) * Png.fontSize png <=? JS.ofZ (Png.height png)) = true)
    /\ ((199 < h)%Z ->
        (JS.ofZ (Png.height png) <? JS.ofZ (h + 1) * Png.fontSize png) = true).
Proof.
  cbv zeta. intros EI OK P Pal EW HW Eh Hh.
  destruct (render_exact css_color page image selectedCharSet OW h EI OK P Pal EW
              ltac:(lia) Eh ltac:(lia)) as (ER & FR & LR).
  cbv zeta in ER, FR, LR.
  set (rows := glyph_rows _ _ _ _ _) in *.
  pose proof (split_text _ _ _ P rows FR) as ES.
  assert (FL : Forall (fun row : list string => length row = Z.to_nat OW) rows).
  { eapply Forall_impl; [|exact FR]. now intros row [L _]. }
  assert (NE : rows <> []).
  { intros E. rewrite E in LR. cbn in LR. lia. }
  pose proof (longest_rows (Z.to_nat OW) rows ltac:(lia) NE FL) as EL.
  eexists. exists rows. eexists.
  split; [exact ER|]. cbn [Page.state AppState.currentAscii].
  split; [exact ES|]. split; [exact LR|]. split; [exact FL|].
  unfold App.handleSavePng.
  cbn [Page.state Page.asciiOutput AppState.currentAscii AppState.settings].
  destruct (handleSavePng_small (text_of rows)
              (Settings.colorMode (AppState.settings (Page.state page)))
              (App.children
                 (if String.eqb (Settings.colorMode (AppState.settings (Page.state page)))
                       "color"
                  then renderColoredASCII css_color
                         (grid_cells selectedCharSet
                            (AppState.isInverted (Page.state page))
                            (palette_of (Some (Settings.colorPalette
                                                 (AppState.settings (Page.state page)))))
                            (processed_pixels image (App.options_of (Page.state page)))
                            (Z.to_nat OW) (Z.to_nat h))
                  else TextContent (text_of rows))))
    as [E F].
  { now apply text_of_not_empty. }
  { rewrite ES, EL. lia. }
  { rewrite ES, length_app. cbn [length]. lia. }
  rewrite ES, EL in E, F.
  replace (Z.of_nat (length (rows ++ [[]]))) with (h + 1)%Z in E, F
    by (rewrite length_app; cbn [length]; lia).
  replace (Z.of_nat (Z.to_nat OW)) with OW in E, F by lia.
  split; [exact E|]. cbn [Png.calls Png.width Png.height Png.fontSize].
  destruct (layout_fact_spec _ _ F) as (Bw & Bh & Bm & _ & _ & Fit & Clip).
  split; [|split; [lia|split]].
  - unfold png_calls.
    destruct (String.eqb _ "color").
    + match goal with
      | |- map Png.text (draw_rows ?r ?i ?sx ?sy ?lh ?cw) = _ =>
          destruct (draw_rows_text r i sx sy lh cw) as [-> _]
      end.
      unfold rows. rewrite <- rendered_glyphs with (css_color := css_color)
        (paletteFunc := palette_of (Some (Settings.colorPalette
                                            (AppState.settings (Page.state page))))).
      rewrite <- concat_map, map_map. reflexivity.
    + match goal with
      | |- map Png.text (draw_lines ?l ?i ?sx ?sy ?lh) = _ =>
          destruct (draw_lines_text l i sx sy lh) as [-> _]
      end.
      reflexivity.
  - intros L. apply Fit. lia.
  - intros L. apply Clip. lia.
Qed.

(** ** State that outlives a render *)

(** X16: a click on the invert button flips [isInverted] and sets the
    label however its render completes; when the render throws, the text
    and the output are left as they were.  When rendering the page
    succeeds, two clicks leave the state and the output of that
    rendering.  The label does not follow: it then reads Revert on a page
    that is not inverted, where Invert is what [resetSettings] gives a
    page that is not inverted. *)
Theorem invert_twice_restores_the_rendering css_color page :
  let once := App.handleInvert css_color page in
  let twice := App.handleInvert css_color (fst once) in
  let rendered := App.handleRender css_color page in
  AppState.isInverted (Page.state (fst once))
  = negb (AppState.isInverted (Page.state page))
  /\ Page.invertBtn (fst once)
     = (if AppState.isInverted (Page.state page) then PlainRevert else FlippedInvert)
  /\ (forall e, snd once = Throw e ->
      AppState.currentAscii (Page.state (fst once))
      = AppState.currentAscii (Page.state page)
      /\ Page.asciiOutput (fst once) = Page.asciiOutput page)
  /\ (snd rendered = Normal tt ->
      snd twice = Normal tt
      /\ Page.state (fst twice) = Page.state (fst rendered)
      /\ Page.asciiOutput (fst twice) = Page.asciiOutput (fst rendered)
      /\ Page.invertBtn (fst twice)
         = (if AppState.isInverted (Page.state page) then FlippedInvert else PlainRevert))
  /\ AppState.isInverted (Page.state (App.resetSettings page)) = false
  /\ Page.invertBtn (App.resetSettings page) = FlippedInvert.
Proof.
  destruct page as [[[image|] ascii inverted settings] output label];
    unfold App.handleInvert, App.handleRender, App.options_of;
    cbn [Page.state Page.asciiOutput Page.invertBtn AppState.currentImage
         AppState.currentAscii AppState.isInverted AppState.settings fst snd].
  - destruct (convertImageToASCII image
                (Options.make (Settings.outputWidth settings) (Settings.brightness settings)
                   (Settings.contrast settings) (Settings.charSetKey settings)
                   (String.eqb (Settings.colorMode settings) "color") (negb inverted)
                   (Some (Settings.colorPalette settings))));
      cbn [Page.state Page.asciiOutput Page.invertBtn AppState.currentImage
           AppState.currentAscii AppState.isInverted AppState.settings fst snd];
      rewrite negb_involutive;
      destruct (convertImageToASCII image _) as [result| |];
      cbn; destruct inverted; repeat split; try discriminate; auto.
  - rewrite negb_involutive. cbn. destruct inverted; repeat split; try discriminate; auto.
Qed.

(** X17: the export reads the page as it was rendered, the mode as it
    is now.  After a successful monochrome render, switching the colour
    mode to ["color"] without rendering again exports a bitmap on which
    nothing is drawn; switching to any other mode exports the lines of
    the text, whatever mode it was rendered in. *)
Theorem export_reads_the_page_not_the_mode css_color page page' image png value :
  AppState.currentImage (Page.state page) = Some image ->
  App.handleRender css_color page = (page', Normal tt) ->
  App.handleSavePng (App.onColorModeChange value page') = Normal (Some png) ->
  let rendered_in_color :=
    String.eqb (Settings.colorMode (AppState.settings (Page.state page))) "color" in
  (rendered_in_color = false -> value = "color" -> Png.calls png = [])
  /\ (String.eqb value "color" = false ->
      map Png.text (Png.calls png)
      = split_lines (AppState.currentAscii (Page.state page'))).
Proof.
  intros EI ER ES. cbv zeta.
  unfold App.handleRender in ER. rewrite EI in ER.
  destruct (convertImageToASCII image _) as [result| |]; try discriminate.
  injection ER as <-.
  unfold App.handleSavePng, App.onColorModeChange in ES.
  cbn [Page.state Page.asciiOutput AppState.currentAscii AppState.settings
       Settings.colorMode] in ES |- *.
  destruct (Result.ascii result) as [|c cs] eqn:EA; [discriminate|].
  rewrite handleSavePng_layout in ES.
  destruct (_ || _)%bool; [discriminate|].
  injection ES as <-. cbn [Png.calls]. unfold png_calls. split.
  - intros M ->. rewrite M. cbn [String.eqb Ascii.eqb Bool.eqb].
    destruct (Result.colorData result); reflexivity.
  - intros ->.
    match goal with
    | |- map Png.text (draw_lines ?l ?i ?sx ?sy ?lh) = _ =>
        destruct (draw_lines_text l i sx sy lh) as [-> _]
    end.
    reflexivity.
Qed.

(** * Concrete runs *)

Lemma white_ok width height : canvas_ok (white_image width height).
Proof.
  intros w h Hw Hh. cbn. unfold white. split.
  - apply repeat_length.
  - apply Forall_forall. intros v Hv. apply repeat_spec in Hv. subst. lia.
Qed.

(** C9 at a 1x1 canvas, brightness 10 and contrast 25: the colour samples
    change, the alpha sample 40 stays. *)
Lemma alpha_untouched_witness :
  exists ctx',
    applyBrightnessContrast (mkCanvas 1 1 [10; 20; 30; 40]%Z) 1 1 10 25 = Normal ctx'
    /\ pixels ctx' = [0; 9; 21; 40]%Z
    /\ nth_error (pixels ctx') (4 * 0 + 3) = nth_error [10; 20; 30; 40]%Z (4 * 0 + 3)
    /\ length (pixels ctx') = length [10; 20; 30; 40]%Z.
Proof.
  eexists. split; [vm_compute; reflexivity|]. split; [reflexivity|].
  apply (alpha_untouched (mkCanvas 1 1 [10; 20; 30; 40]%Z) 1 1 10 25 _ 0).
  vm_compute. reflexivity.
Defined.


(** C8 on the white 2x2 image and the sample 200. *)
Lemma zero_adjustment_is_identity_witness :
  contrastFactor 0 = 1
  /\ (clamp (1 * (clamp (JS.ofZ 200 + 0) - 128) + 128) =? JS.ofZ 200) = true
  /\ adjust_sample 0 (contrastFactor 0) 200 = 200%Z
  /\ adjust_data 0 0 (white 2 2) = white 2 2
  /\ (ctx <- applyBrightnessContrast (drawImage (white_image 2 2) 2 2) 2 2 0 0 ;;
      getImageData ctx 2 2)%js
     = getImageData (drawImage (white_image 2 2) 2 2) 2 2.
Proof.
  apply (zero_adjustment_is_identity (white_image 2 2) 2 2 200 (white_ok 2 2));
    unfold u8; lia.
Defined.

(** C7 at the fire palette and a white pixel: (255, 127, 0). *)
Lemma palettes_stay_8bit_witness :
  (exists n, u8 n /\ JS.toZ (RGB.r (palette_fire (JS.ofZ 255) (JS.ofZ 255) (JS.ofZ 255))) = Some n)
  /\ (exists n, u8 n /\ JS.toZ (RGB.g (palette_fire (JS.ofZ 255) (JS.ofZ 255) (JS.ofZ 255))) = Some n)
  /\ (exists n, u8 n /\ JS.toZ (RGB.b (palette_fire (JS.ofZ 255) (JS.ofZ 255) (JS.ofZ 255))) = Some n).
Proof.
  apply (palettes_stay_8bit "fire" palette_fire 255 255 255);
    [reflexivity| | |]; unfold u8; lia.
Defined.

(** C2 at the set [simple] and a white pixel: index 3, the blank. *)
Lemma charIndex_in_bounds_witness :
  exists n glyph,
    JS.toZ (charIndex ["@"; "*"; "."; " "] false (JS.ofZ 255) (JS.ofZ 255) (JS.ofZ 255))
    = Some n
    /\ (0 <= n <= Z.of_nat (length ["@"; "*"; "."; " "]) - 1)%Z
    /\ array_get ["@"; "*"; "."; " "]
         (charIndex ["@"; "*"; "."; " "] false (JS.ofZ 255) (JS.ofZ 255) (JS.ofZ 255))
       = Some glyph
    /\ nth_error ["@"; "*"; "."; " "] (Z.to_nat n) = Some glyph.
Proof.
  apply (charIndex_in_bounds "simple" ["@"; "*"; "."; " "] 255 255 255 false);
    [reflexivity| | |]; unfold u8; lia.
Defined.

(** C6 at contrast = -255. *)
Lemma contrast_denominator_zero_at_259_witness :
  ((contrastDenominator (JS.ofZ (-255)) =? 0) = true <-> (-255)%Z = 259%Z)
  /\ contrastDenominator (-255) = 131070
  /\ contrastFactor (-255) = 0
  /\ contrastFactor 259 = infinity.
Proof.
  apply (contrast_denominator_zero_at_259 (-255)). lia.
Defined.

(** C6 as stated fails: at contrast = -255 the denominator is 131070, not
    zero, and the factor is 0. *)
Lemma no_division_by_zero_at_minus_255 :
  (contrastDenominator (-255) =? 0) = false
  /\ contrastDenominator (-255) = 131070
  /\ contrastNumerator (-255) = 0
  /\ contrastFactor (-255) = 0.
Proof. repeat split; vm_compute; reflexivity. Qed.

(** C1 on the 2x2 solid-white image at outputWidth 2: two rows of two
    blanks. *)
Lemma grid_shape_witness :
  exists result rows,
    convertImageToASCII (white_image 2 2) (simple_options 2) = Normal result
    /\ split_lines (Result.ascii result) = rows ++ [[]]
    /\ length rows = Z.to_nat 2
    /\ Forall (fun row => length row = Z.to_nat 2) rows
    /\ match Result.colorData result with
       | Some grid =>
           Options.isColorMode (simple_options 2) = true
           /\ length grid = Z.to_nat 2
           /\ Forall (fun cells => length cells = Z.to_nat 2) grid
       | None => Options.isColorMode (simple_options 2) = false
       end.
Proof.
  apply (proj2 (grid_shape (white_image 2 2) (simple_options 2)
                  ["@"; "*"; "."; " "] 2 2 (white_ok 2 2) eq_refl
                  ltac:(discriminate) eq_refl ltac:(lia) eq_refl ltac:(lia))).
  lia.
Defined.

(** C1 as stated fails on a 2x1 image at outputWidth 1: the target height
    is [floor(1 * (1 / 2)) = 0], not 1, and the conversion throws instead
    of returning a grid of one row. *)
Lemma no_minimum_row :
  JS.toZ (JS.Math_floor (Image.height (white_image 2 1)
                         * (Options.outputWidth (simple_options 1)
                            / Image.width (white_image 2 1)))) = Some 0%Z
  /\ convertImageToASCII (white_image 2 1) (simple_options 1) = Throw IndexSizeError.
Proof. split; vm_compute; reflexivity. Qed.

(** The target height is computed in doubles: for a 49x49 image at
    outputWidth 1, [49 * (1 / 49)] is 0.9999999999999999 and its floor is
    0, although [floor(49 * 1 / 49) = 1]. *)
Example double_rounding_loses_a_row :
  49 * (1 / 49) = 0.99999999999999989
  /\ convertImageToASCII (white_image 49 49) (simple_options 1) = Throw IndexSizeError.
Proof. split; vm_compute; reflexivity. Qed.

(** C5 at a zero-width image, at the unknown set key ["nope"] and at the
    unknown palette key ["sepia"]. *)
Lemma conversion_failures_witness :
  convertImageToASCII (white_image 0 2) (simple_options 2) = Throw IndexSizeError
  /\ convertImageToASCII (white_image 2 2)
       (Options.make 2 0 0 "nope" false false None) = Throw TypeError
  /\ convertImageToASCII (white_image 2 2)
       (with_palette (Options.make 2 0 0 "simple" true false None) (Some "sepia"))
     = convertImageToASCII (white_image 2 2)
         (with_palette (Options.make 2 0 0 "simple" true false None) (Some "original")).
Proof.
  split; [|split].
  - apply (proj1 (conversion_failures (white_image 0 2) (simple_options 2))).
    right. left. reflexivity.
  - apply (proj1 (proj2 (conversion_failures (white_image 2 2)
                           (Options.make 2 0 0 "nope" false false None)))).
    + reflexivity.
    + now vm_compute.
    + now vm_compute.
  - apply (proj2 (proj2 (conversion_failures (white_image 2 2)
                           (Options.make 2 0 0 "simple" true false None)))).
    reflexivity.
Defined.

(** C5 as stated fails: with the unknown palette key ["sepia"] the
    conversion of the 2x2 white image succeeds, with the colours of the
    [original] palette. *)
Lemma unknown_palette_is_accepted :
  property colorPalettes "sepia" = Undefined
  /\ exists result,
       convertImageToASCII (white_image 2 2)
         (Options.make 2 0 0 "simple" true false (Some "sepia")) = Normal result
       /\ Result.ascii result = [" "; " "; LF; " "; " "; LF]
       /\ Result.colorData result
          = Some [[Cell.make (Some " ") 255 255 255; Cell.make (Some " ") 255 255 255];
                  [Cell.make (Some " ") 255 255 255; Cell.make (Some " ") 255 255 255]].
Proof.
  split; [reflexivity|]. eexists. split; [vm_compute; reflexivity|].
  split; reflexivity.
Qed.

(** C10 on the 2x2 white image with the palettes [fire] and [ice]. *)
Lemma monochrome_ignores_palette_witness :
  convertImageToASCII (white_image 2 2) (with_palette (simple_options 2) (Some "fire"))
  = convertImageToASCII (white_image 2 2) (with_palette (simple_options 2) (Some "ice"))
  /\ (forall result,
        convertImageToASCII (white_image 2 2)
          (with_palette (simple_options 2) (Some "fire")) = Normal result ->
        Result.colorData result = None).
Proof.
  apply (monochrome_ignores_palette (white_image 2 2) (simple_options 2)
           (Some "fire") (Some "ice")).
  reflexivity.
Defined.

(** C4 at the text ["@"]. *)
Lemma png_size_of_single_glyph_witness :
  exists png,
    handleSavePng ["@"] "monochrome" [] = Normal (Some png)
    /\ Png.width png = 578%Z /\ Png.height png = 600%Z
    /\ Png.fontSize png = 12.
Proof.
  apply (png_size_of_single_glyph "@" "monochrome" []). reflexivity.
Defined.

(** C4 as stated fails: the bitmap of a 1x1 grid is 578 pixels wide, less
    than 600; with the line feed the converter appends it is 530 wide. *)
Lemma png_width_below_minimum :
  (exists png,
     handleSavePng ["@"] "monochrome" [] = Normal (Some png)
     /\ Png.width png = 578%Z /\ Png.height png = 600%Z
     /\ (Png.width png <? 600)%Z = true)
  /\ (exists png,
        handleSavePng ["@"; LF] "monochrome" [] = Normal (Some png)
        /\ Png.width png = 530%Z /\ Png.height png = 600%Z).
Proof.
  split; eexists; (split; [vm_compute; reflexivity|]); repeat split.
Qed.

(** ** Runs of the further properties *)

(** X2 at the sample 250 and brightness 10, which saturates at 255. *)
Lemma brightness_shifts_and_saturates_witness :
  adjust_data (JS.ofZ 10) 0 [250; 20; 30; 40]%Z = [255; 30; 40; 40]%Z
  /\ nth_error (adjust_data (JS.ofZ 10) 0 [250; 20; 30; 40]%Z) (4 * 0 + 0)
     = Some (Z.min 255 (Z.max 0 (250 + 10))).
Proof.
  split; [vm_compute; reflexivity|].
  apply (brightness_shifts_and_saturates [250; 20; 30; 40]%Z 10 0 0 250);
    [lia|lia|reflexivity|unfold u8; lia].
Defined.

(** X3 at brightness 20 and contrast 30, on the samples 100 and 200 of a
    pixel: they become 118 and 244. *)
Lemma tonal_curve_is_monotone_witness :
  adjust_data (JS.ofZ 20) (JS.ofZ 30) [100; 200; 30; 40]%Z = [118; 244; 29; 40]%Z
  /\ exists a a',
       nth_error (adjust_data (JS.ofZ 20) (JS.ofZ 30) [100; 200; 30; 40]%Z) 0 = Some a
       /\ nth_error (adjust_data (JS.ofZ 20) (JS.ofZ 30) [100; 200; 30; 40]%Z) 1 = Some a'
       /\ (a <= a')%Z.
Proof.
  split; [vm_compute; reflexivity|].
  apply (tonal_curve_is_monotone [100; 200; 30; 40]%Z 20 30 0 1 100 200);
    [lia|lia|discriminate|discriminate|reflexivity|reflexivity
    |unfold u8; lia|unfold u8; lia|lia].
Defined.

(** X4 at contrast 30 on the sample 120, which becomes 118. *)
Lemma contrast_pivots_on_128_witness :
  adjust_data 0 (JS.ofZ 30) [120; 200; 50; 40]%Z = [118; 219; 29; 40]%Z
  /\ exists a,
       nth_error (adjust_data 0 (JS.ofZ 30) [120; 200; 50; 40]%Z) (4 * 0 + 0) = Some a
       /\ ((0 <= 30)%Z ->
           ((128 <= 120)%Z -> (120 <= a)%Z) /\ ((120 <= 128)%Z -> (a <= 120)%Z))
       /\ ((30 <= 0)%Z ->
           ((128 <= 120)%Z -> (128 <= a <= 120)%Z)
           /\ ((120 <= 128)%Z -> (120 <= a <= 128)%Z)).
Proof.
  split; [vm_compute; reflexivity|].
  apply (contrast_pivots_on_128 [120; 200; 50; 40]%Z 30 0 0 120);
    [lia|lia|reflexivity|unfold u8; lia].
Defined.

(** X5 on one pixel with brightness 10: gray 128 at contrast -255, black
    at contrast 259. *)
Lemma extreme_contrasts_witness :
  (nth_error (adjust_data 10 (-255) [10; 20; 30; 40]%Z) (4 * 0 + 0) = Some 128%Z
   /\ nth_error (adjust_data 10 259 [10; 20; 30; 40]%Z) (4 * 0 + 0)
      = Some (if (brightness_step 10 10 <=? 128)%Z then 0 else 255)%Z)
  /\ adjust_data 10 (-255) [10; 20; 30; 40]%Z = [128; 128; 128; 40]%Z
  /\ adjust_data 10 259 [10; 20; 30; 40]%Z = [0; 0; 0; 40]%Z.
Proof.
  split; [|split; vm_compute; reflexivity].
  apply (extreme_contrasts [10; 20; 30; 40]%Z 10 0 0 10); [lia|reflexivity].
Defined.

(** X7 on two pixels. *)
Lemma adjustment_is_pixelwise_witness :
  adjust_data 10 25 ([10; 20; 30; 40] ++ [50; 60; 70; 80])%Z
  = (adjust_data 10 25 [10; 20; 30; 40] ++ adjust_data 10 25 [50; 60; 70; 80])%Z.
Proof. apply (adjustment_is_pixelwise 10 25). reflexivity. Defined.

(** X8 at the pixel (12, 200, 7). *)
Lemma luminance_range_witness :
  (0 <=? luminance (JS.ofZ 12) (JS.ofZ 200) (JS.ofZ 7)) = true
  /\ (luminance (JS.ofZ 12) (JS.ofZ 200) (JS.ofZ 7) <=? 255) = true
  /\ ((luminance (JS.ofZ 12) (JS.ofZ 200) (JS.ofZ 7) =? 255) = true
      <-> 12%Z = 255%Z /\ 200%Z = 255%Z /\ 7%Z = 255%Z)
  /\ ((luminance (JS.ofZ 12) (JS.ofZ 200) (JS.ofZ 7) =? 0) = true
      <-> 12%Z = 0%Z /\ 200%Z = 0%Z /\ 7%Z = 0%Z).
Proof. apply (luminance_range 12 200 7); unfold u8; lia. Defined.

(** X9 at the set [simple] and the pixel (255, 255, 254), which is not
    white: its index is 2, not the last index 3, and its glyph is the
    dot, not the blank. *)
Lemma last_glyph_marks_the_extreme_witness :
  (JS.toZ (charIndex ["@"; "*"; "."; " "] false (JS.ofZ 255) (JS.ofZ 255) (JS.ofZ 254))
   = Some (Z.of_nat (length ["@"; "*"; "."; " "]) - 1)%Z
   <-> 255%Z = 255%Z /\ 255%Z = 255%Z /\ 254%Z = 255%Z)
  /\ (array_get ["@"; "*"; "."; " "]
        (charIndex ["@"; "*"; "."; " "] false (JS.ofZ 255) (JS.ofZ 255) (JS.ofZ 254))
      = nth_error ["@"; "*"; "."; " "]
          (Z.to_nat (Z.of_nat (length ["@"; "*"; "."; " "]) - 1))
      <-> 255%Z = 255%Z /\ 255%Z = 255%Z /\ 254%Z = 255%Z)
  /\ JS.toZ (charIndex ["@"; "*"; "."; " "] false (JS.ofZ 255) (JS.ofZ 255) (JS.ofZ 254))
     = Some 2%Z
  /\ array_get ["@"; "*"; "."; " "]
       (charIndex ["@"; "*"; "."; " "] false (JS.ofZ 255) (JS.ofZ 255) (JS.ofZ 254))
     = Some ".".
Proof.
  pose proof (last_glyph_marks_the_extreme "simple" ["@"; "*"; "."; " "] 255 255 254
                eq_refl ltac:(unfold u8; lia) ltac:(unfold u8; lia)
                ltac:(unfold u8; lia)) as (W & _ & G & _).
  split; [exact W|]. split; [exact (proj1 (G ltac:(discriminate)))|].
  split; vm_compute; reflexivity.
Defined.

(** X10 on the 2x2 white image with brightness -10, in colour mode: the
    four opaque pixels become (245, 245, 245), two rows of two dots. *)
Lemma converter_is_pixelwise_witness :
  convertImageToASCII (white_image 2 2) (Options.make 2 (-10) 0 "simple" true false None)
  = Normal (Result.make
              ["."; "."; LF; "."; "."; LF]
              (Some [[Cell.make (Some ".") 245 245 245; Cell.make (Some ".") 245 245 245];
                     [Cell.make (Some ".") 245 245 245; Cell.make (Some ".") 245 245 245]])
              (mkCanvas 2 2 [245; 245; 245; 255; 245; 245; 245; 255;
                             245; 245; 245; 255; 245; 245; 245; 255]%Z))
  /\ opaque (Image.drawn (white_image 2 2) 2 2) = true.
Proof.
  split; [|reflexivity].
  pose proof (converter_is_pixelwise (white_image 2 2)
                (Options.make 2 (-10) 0 "simple" true false None)
                ["@"; "*"; "."; " "] eq_refl ltac:(discriminate)
                ltac:(intros _; vm_compute; reflexivity)) as [_ C].
  rewrite C; [vm_compute; reflexivity|vm_compute; discriminate|vm_compute; discriminate].
Defined.

(** X11 on the 2x2 white image. *)
Lemma text_ignores_color_mode_witness :
  exists result',
    convertImageToASCII (white_image 2 2) (with_color_mode (simple_options 2) false)
    = Normal result'
    /\ Result.ascii result' = [" "; " "; LF; " "; " "; LF]
    /\ Result.processedCanvas result' = mkCanvas 2 2 (white 2 2)
    /\ Result.colorData result' = None.
Proof.
  apply (text_ignores_color_mode (white_image 2 2) (simple_options 2)
           (Result.make [" "; " "; LF; " "; " "; LF]
              (Some [[Cell.make (Some " ") 255 255 255; Cell.make (Some " ") 255 255 255];
                     [Cell.make (Some " ") 255 255 255; Cell.make (Some " ") 255 255 255]])
              (mkCanvas 2 2 (white 2 2)))).
  vm_compute. reflexivity.
Defined.

(** X12 at the set [dense] and the gray levels 10 and 200: the indices 0
    and 7, and 9 and 2 when inverted. *)
Lemma gray_ramp_is_monotone_witness :
  JS.toZ (charIndex ["@"; "#"; "$"; "%"; "&"; "*"; "+"; "-"; ":"; "."; " "] false
            (JS.ofZ 10) (JS.ofZ 10) (JS.ofZ 10))
  = Some (gray_index ["@"; "#"; "$"; "%"; "&"; "*"; "+"; "-"; ":"; "."; " "] false 10)
  /\ JS.toZ (charIndex ["@"; "#"; "$"; "%"; "&"; "*"; "+"; "-"; ":"; "."; " "] true
               (JS.ofZ 10) (JS.ofZ 10) (JS.ofZ 10))
     = Some (gray_index ["@"; "#"; "$"; "%"; "&"; "*"; "+"; "-"; ":"; "."; " "] true 10)
  /\ (gray_index ["@"; "#"; "$"; "%"; "&"; "*"; "+"; "-"; ":"; "."; " "] false 10
      <= gray_index ["@"; "#"; "$"; "%"; "&"; "*"; "+"; "-"; ":"; "."; " "] false 200)%Z
  /\ (gray_index ["@"; "#"; "$"; "%"; "&"; "*"; "+"; "-"; ":"; "."; " "] true 200
      <= gray_index ["@"; "#"; "$"; "%"; "&"; "*"; "+"; "-"; ":"; "."; " "] true 10)%Z.
Proof.
  apply (gray_ramp_is_monotone "dense"
           ["@"; "#"; "$"; "%"; "&"; "*"; "+"; "-"; ":"; "."; " "] 10 200);
    [reflexivity| | |]; unfold u8; lia.
Defined.

(** X13 at the gray level 1, which the palette turns into black. *)
Lemma grayscale_darkens_some_grays_witness :
  exists gray,
    JS.toZ (RGB.r (palette_grayscale (JS.ofZ 1) (JS.ofZ 1) (JS.ofZ 1))) = Some gray
    /\ JS.toZ (RGB.g (palette_grayscale (JS.ofZ 1) (JS.ofZ 1) (JS.ofZ 1))) = Some gray
    /\ JS.toZ (RGB.b (palette_grayscale (JS.ofZ 1) (JS.ofZ 1) (JS.ofZ 1))) = Some gray
    /\ (gray = if luminance (JS.ofZ 1) (JS.ofZ 1) (JS.ofZ 1) <? JS.ofZ 1
               then (1 - 1)%Z else 1%Z)
    /\ (gray = (1 - 1)%Z <-> In 1%Z darkened_grays)
    /\ length darkened_grays = 65%nat.
Proof. apply (grayscale_darkens_some_grays 1). unfold u8. lia. Defined.

(** X14 on a text of two rows of two glyphs: a bitmap of 517 x 600 and a
    font size of 12. *)
Lemma png_fits_up_to_200_lines_witness :
  exists png,
    handleSavePng ["@"; "@"; LF; "@"; "@"; LF] "monochrome" [] = Normal (Some png)
    /\ (1 <= Png.width png <= 1200)%Z /\ (1 <= Png.height png <= 1200)%Z
    /\ (600 <= Z.max (Png.width png) (Png.height png))%Z
    /\ (6 <=? Png.fontSize png) = true /\ (Png.fontSize png <=? 12) = true
    /\ ((Z.of_nat (length (split_lines ["@"; "@"; LF; "@"; "@"; LF])) <= 200)%Z ->
        (JS.ofZ (longest (split_lines ["@"; "@"; LF; "@"; "@"; LF]))
         * (Png.fontSize png * 0.6) <=? JS.ofZ (Png.width png)) = true
        /\ (JS.ofZ (Z.of_nat (length (split_lines ["@"; "@"; LF; "@"; "@"; LF])))
            * Png.fontSize png <=? JS.ofZ (Png.height png)) = true)
    /\ ((200 < Z.of_nat (length (split_lines ["@"; "@"; LF; "@"; "@"; LF])))%Z ->
        (JS.ofZ (Png.height png)
         <? JS.ofZ (Z.of_nat (length (split_lines ["@"; "@"; LF; "@"; "@"; LF])))
            * Png.fontSize png) = true).
Proof.
  apply (png_fits_up_to_200_lines ["@"; "@"; LF; "@"; "@"; LF] "monochrome" []).
  - discriminate.
  - vm_compute. split; discriminate.
  - vm_compute. discriminate.
Defined.

(** X15 on the page that holds the 2x2 white image, in colour mode: the
    export draws the four blanks of the two rows. *)
Lemma render_then_save_png_witness :
  exists page' rows png,
    App.handleRender white_css (white_page "color") = (page', Normal tt)
    /\ split_lines (AppState.currentAscii (Page.state page')) = rows ++ [[]]
    /\ length rows = Z.to_nat 2
    /\ Forall (fun row => length row = Z.to_nat 2) rows
    /\ App.handleSavePng page' = Normal (Some png)
    /\ map Png.text (Png.calls png) = map (fun glyph => [glyph]) (concat rows)
    /\ (600 <= Z.max (Png.width png) (Png.height png) <= 1200)%Z
    /\ ((2 <= 199)%Z ->
        (JS.ofZ 2 * (Png.fontSize png * 0.6) <=? JS.ofZ (Png.width png)) = true
        /\ (JS.ofZ (2 + 1) * Png.fontSize png <=? JS.ofZ (Png.height png)) = true)
    /\ ((199 < 2)%Z ->
        (JS.ofZ (Png.height png) <? JS.ofZ (2 + 1) * Png.fontSize png) = true).
Proof.
  apply (render_then_save_png white_css (white_page "color") (white_image 2 2)
           ["@"; "*"; "."; " "] 2 2 eq_refl (white_ok 2 2) eq_refl
           ltac:(discriminate) eq_refl ltac:(lia) eq_refl ltac:(lia)).
Defined.

(** X16 on the page that holds the 2x2 white image: rendering it
    succeeds, and two clicks restore that rendering. *)
Lemma invert_twice_restores_the_rendering_witness :
  snd (App.handleRender white_css (white_page "monochrome")) = Normal tt
  /\ AppState.isInverted
       (Page.state (fst (App.handleInvert white_css (white_page "monochrome"))))
     = negb (AppState.isInverted (Page.state (white_page "monochrome")))
  /\ snd (App.handleInvert white_css
            (fst (App.handleInvert white_css (white_page "monochrome"))))
     = Normal tt
  /\ Page.state (fst (App.handleInvert white_css
                        (fst (App.handleInvert white_css (white_page "monochrome")))))
     = Page.state (fst (App.handleRender white_css (white_page "monochrome")))
  /\ Page.asciiOutput
       (fst (App.handleInvert white_css
               (fst (App.handleInvert white_css (white_page "monochrome")))))
     = Page.asciiOutput (fst (App.handleRender white_css (white_page "monochrome")))
  /\ Page.invertBtn
       (fst (App.handleInvert white_css
               (fst (App.handleInvert white_css (white_page "monochrome")))))
     = (if AppState.isInverted (Page.state (white_page "monochrome"))
        then FlippedInvert else PlainRevert).
Proof.
  assert (E : snd (App.handleRender white_css (white_page "monochrome")) = Normal tt)
    by (vm_compute; reflexivity).
  split; [exact E|].
  pose proof (invert_twice_restores_the_rendering white_css (white_page "monochrome"))
    as (F & _ & _ & T & _).
  split; [exact F|]. exact (T E).
Defined.

(** X17 on the page that holds the 2x2 white image, rendered in
    monochrome and exported in colour mode: a bitmap of 517 x 600 with
    nothing drawn on it. *)
Lemma export_reads_the_page_not_the_mode_witness :
  exists png,
    App.handleSavePng
      (App.onColorModeChange "color"
         (fst (App.handleRender white_css (white_page "monochrome"))))
    = Normal (Some png)
    /\ Png.calls png = []
    /\ Png.width png = 517%Z /\ Png.height png = 600%Z.
Proof.
  eexists. split; [vm_compute; reflexivity|]. split; [|split; reflexivity].
  assert (ER : App.handleRender white_css (white_page "monochrome")
               = (fst (App.handleRender white_css (white_page "monochrome")), Normal tt))
    by (vm_compute; reflexivity).
  match goal with
  | |- Png.calls ?png = _ =>
      assert (ES : App.handleSavePng
                     (App.onColorModeChange "color"
                        (fst (App.handleRender white_css (white_page "monochrome"))))
                   = Normal (Some png)) by (vm_compute; reflexivity);
      exact (proj1 (export_reads_the_page_not_the_mode white_css
                      (white_page "monochrome") _ (white_image 2 2) png "color"
                      eq_refl ER ES) eq_refl eq_refl)
  end.
Defined.
